(** * AirETL: the extraction cascade and the schema version store

    A shallow embedding of [src/parsers/unstructured_parser.py]
    ([UnstructuredDataParser]), of the schema export endpoint of [main.py]
    and of the schema engine the pipeline calls.

    Modelling conventions.
    - A Python [str] is a [string] whose characters are the code points
      0..255; the character classes below ([isspace], [isword], [lower])
      are the Unicode ones restricted to that range.
    - A Python [dict] is an association list in insertion order; assigning
      to an existing key keeps the key's position ([dict_set]).
    - A call that may raise returns a [Result]; the message carried by
      [Raise] is [str(e)].
    - The libraries the parser calls ([json], [pandas], [bs4], [yaml],
      [datetime]) are fields of a [Runtime] record.
    - Logging is left out, and so is [json_patterns['json_array']], which
      no method reads. *)

From Stdlib Require Import String Ascii List ZArith Bool Arith Lia DecimalString.
From Stdlib Require DecimalNat.
Import ListNotations.
Open Scope list_scope.
Open Scope string_scope.

(** ** Python strings *)

Module Str.

Definition NL : ascii := "010"%char.
Definition DQ : ascii := "034"%char.
Definition SQ : ascii := "039"%char.

Definition str1 (c : ascii) : string := String c EmptyString.

Definition code (c : ascii) : nat := nat_of_ascii c.

Definition between (lo hi : nat) (c : ascii) : bool :=
  Nat.leb lo (code c) && Nat.leb (code c) hi.

(** [str.isspace] on code points below 256 (also the class [\s]). *)
Definition isspace (c : ascii) : bool :=
  between 9 13 c || between 28 32 c || Nat.eqb (code c) 133 || Nat.eqb (code c) 160.

Definition isdecimal (c : ascii) : bool := between 48 57 c.

Definition isupper_ascii (c : ascii) : bool := between 65 90 c.
Definition islower_ascii (c : ascii) : bool := between 97 122 c.

(** Letters of Latin-1 outside ASCII: the two ordinal indicators, the
    micro sign and the accented letters. *)
Definition isalpha_latin (c : ascii) : bool :=
  Nat.eqb (code c) 170 || Nat.eqb (code c) 181 || Nat.eqb (code c) 186
  || between 192 214 c || between 216 246 c || between 248 255 c.

Definition isalpha (c : ascii) : bool :=
  isupper_ascii c || islower_ascii c || isalpha_latin c.

(** [str.isdigit] per character: the decimals and the superscripts
    one, two and three. *)
Definition isdigit_char (c : ascii) : bool :=
  isdecimal c || Nat.eqb (code c) 178 || Nat.eqb (code c) 179 || Nat.eqb (code c) 185.

(** [str.isnumeric] per character adds the three vulgar fractions. *)
Definition isnumeric_char (c : ascii) : bool :=
  isdigit_char c || between 188 190 c.

Definition isalnum (c : ascii) : bool := isalpha c || isnumeric_char c.

(** The class [\w] of [re] on [str] patterns. *)
Definition isword (c : ascii) : bool := isalnum c || Nat.eqb (code c) 95.

Definition lower_char (c : ascii) : ascii :=
  if isupper_ascii c || between 192 214 c || between 216 222 c
  then ascii_of_nat (code c + 32) else c.

Fixpoint lower (s : string) : string :=
  match s with
  | EmptyString => EmptyString
  | String c s' => String (lower_char c) (lower s')
  end.

(** [sub in s] *)
Fixpoint contains (sub s : string) : bool :=
  prefix sub s ||
  match s with
  | EmptyString => false
  | String _ s' => contains sub s'
  end.

Definition has_char (c : ascii) (s : string) : bool := contains (str1 c) s.

Definition startswith (p s : string) : bool := prefix p s.

Fixpoint lstrip_by (p : ascii -> bool) (s : string) : string :=
  match s with
  | EmptyString => EmptyString
  | String c s' => if p c then lstrip_by p s' else s
  end.

Fixpoint rstrip_by (p : ascii -> bool) (s : string) : string :=
  match s with
  | EmptyString => EmptyString
  | String c s' =>
      match rstrip_by p s' with
      | EmptyString => if p c then EmptyString else str1 c
      | r => String c r
      end
  end.

Definition strip_by (p : ascii -> bool) (s : string) : string :=
  rstrip_by p (lstrip_by p s).

(** [s.strip()] *)
Definition strip (s : string) : string := strip_by isspace s.

(** [s.strip(chars)] *)
Definition strip_chars (chars : string) (s : string) : string :=
  strip_by (fun c => has_char c chars) s.

(** [s.split(sep)] for a one-character separator. *)
Fixpoint split (sep : ascii) (s : string) : list string :=
  match s with
  | EmptyString => [EmptyString]
  | String c s' =>
      if Ascii.eqb c sep then EmptyString :: split sep s'
      else match split sep s' with
           | [] => [str1 c]
           | h :: t => String c h :: t
           end
  end.

(** [s.split(sep, 1)] when [sep in s]: the text before and after the first
    separator; [None] when the separator does not occur. *)
Fixpoint split1 (sep : ascii) (s : string) : option (string * string) :=
  match s with
  | EmptyString => None
  | String c s' =>
      if Ascii.eqb c sep then Some (EmptyString, s')
      else match split1 sep s' with
           | Some (a, b) => Some (String c a, b)
           | None => None
           end
  end.

(** [len(s.split())]: the number of maximal runs of non-space characters. *)
Fixpoint count_words_from (inword : bool) (s : string) : nat :=
  match s with
  | EmptyString => 0
  | String c s' =>
      if isspace c then count_words_from false s'
      else if inword then count_words_from true s'
           else S (count_words_from true s')
  end.

Definition count_words (s : string) : nat := count_words_from false s.

(** [sep.join(l)] *)
Fixpoint join (sep : string) (l : list string) : string :=
  match l with
  | [] => EmptyString
  | [x] => x
  | x :: t => x ++ sep ++ join sep t
  end.

(** [s.replace(a, b)] for one-character [a] and [b]. *)
Fixpoint replace_char (a b : ascii) (s : string) : string :=
  match s with
  | EmptyString => EmptyString
  | String c s' => String (if Ascii.eqb c a then b else c) (replace_char a b s')
  end.

(** [s[:n]] *)
Definition take (n : nat) (s : string) : string := substring 0 n s.

Fixpoint all_chars (p : ascii -> bool) (s : string) : bool :=
  match s with
  | EmptyString => true
  | String c s' => p c && all_chars p s'
  end.

(** Decimal value of a string of ASCII digits. *)
Fixpoint digits_value (acc : Z) (s : string) : Z :=
  match s with
  | EmptyString => acc
  | String c s' => digits_value (10 * acc + Z.of_nat (code c - 48)) s'
  end.

Fixpoint mem (x : string) (l : list string) : bool :=
  match l with
  | [] => false
  | y :: t => String.eqb x y || mem x t
  end.

End Str.

(** ** Values, dicts and results *)

#[warnings="-register-all"]
Inductive Value : Type :=
| VNone
| VBool (b : bool)
| VInt (z : Z)
| VFloat (literal : string)   (* a float, kept as the literal it was read from *)
| VStr (s : string)
| VList (items : list Value)
| VDict (entries : list (string * Value)).

Definition Dict : Type := list (string * Value).

Fixpoint dict_get (k : string) (d : Dict) : option Value :=
  match d with
  | [] => None
  | (k', v) :: t => if String.eqb k k' then Some v else dict_get k t
  end.

(** [d[k] = v] *)
Fixpoint dict_set (k : string) (v : Value) (d : Dict) : Dict :=
  match d with
  | [] => [(k, v)]
  | (k', v') :: t =>
      if String.eqb k k' then (k', v) :: t else (k', v') :: dict_set k v t
  end.

(** [d.update(m)] *)
Definition dict_update (d m : Dict) : Dict :=
  fold_left (fun acc kv => dict_set (fst kv) (snd kv) acc) m d.

Definition VStrs (l : list string) : Value := VList (map VStr l).

Definition VNat (n : nat) : Value := VInt (Z.of_nat n).

Inductive Result (A : Type) : Type :=
| Ok (a : A)
| Raise (msg : string).
Arguments Ok {A} a.
Arguments Raise {A} msg.

(** The outcome of a decoder whose own error class the callers catch by
    name: [Decoded], the decoder's error ([json.JSONDecodeError],
    [yaml.YAMLError]) or any other exception. *)
Inductive Decode (A : Type) : Type :=
| Decoded (a : A)
| DecodeError (msg : string)
| Crash (msg : string).
Arguments Decoded {A} a.
Arguments DecodeError {A} msg.
Arguments Crash {A} msg.

(** ** The [re] module: a backtracking matcher

    [regex] has the constructs the parser's patterns use.  Matching is by
    continuation: a continuation that fails makes the matcher try the next
    alternative, which is the search order of Python's engine (leftmost
    alternative first, greedy repetition longest first, lazy repetition
    shortest first). *)

Module Re.
Import Str.

Inductive regex : Type :=
| Eps
| Cls (p : ascii -> bool)        (* one character of a class *)
| Cat (a b : regex)
| Alt (a b : regex)              (* a|b *)
| Star (r : regex)               (* r*  *)
| StarLazy (r : regex)           (* r*? *)
| Grp (n : nat) (r : regex)      (* the n-th capturing group *)
| Ahead (r : regex)              (* (?=r) *)
| Dollar.                        (* $ without MULTILINE *)

(** A position: the offset from where the match started and the text that
    is left. *)
Record cursor : Type := Cursor { offset : nat; rest : string }.

Definition groups : Type := list (nat * string).

Fixpoint group (n : nat) (g : groups) : string :=
  match g with
  | [] => EmptyString
  | (m, s) :: t => if Nat.eqb n m then s else group n t
  end.

Definition orelse {A : Type} (x y : option A) : option A :=
  match x with Some _ => x | None => y end.

(** Repetition.  [step] matches the repeated pattern once and [k] is what
    follows the repetition.  A turn that consumes nothing is refused, so
    [n] turns are enough when [n] exceeds the length of the text left. *)
Section Repetition.

Context {A : Type}.
Variable step : cursor -> groups -> (cursor -> groups -> option A) -> option A.
Variable k : cursor -> groups -> option A.

(** One more turn, if the turn advances. *)
Definition turn (again : cursor -> groups -> option A) (i : cursor) (g : groups)
    : option A :=
  step i g (fun j g' => if Nat.ltb (offset i) (offset j) then again j g' else None).

(** Greedy: another turn first, what follows otherwise. *)
Fixpoint greedy (n : nat) (i : cursor) (g : groups) {struct n} : option A :=
  match n with
  | O => k i g
  | S n' => orelse (turn (greedy n') i g) (k i g)
  end.

(** Lazy: what follows first, another turn otherwise. *)
Fixpoint lazy (n : nat) (i : cursor) (g : groups) {struct n} : option A :=
  match n with
  | O => k i g
  | S n' => orelse (k i g) (turn (lazy n') i g)
  end.

End Repetition.

Fixpoint run {A : Type} (r : regex) (i : cursor) (g : groups)
    (k : cursor -> groups -> option A) {struct r} : option A :=
  match r with
  | Eps => k i g
  | Cls p =>
      match rest i with
      | String c s' => if p c then k (Cursor (S (offset i)) s') g else None
      | EmptyString => None
      end
  | Cat a b => run a i g (fun j g' => run b j g' k)
  | Alt a b => orelse (run a i g k) (run b i g k)
  | Star r' => greedy (run r') k (S (String.length (rest i))) i g
  | StarLazy r' => lazy (run r') k (S (String.length (rest i))) i g
  | Grp n r' =>
      run r' i g (fun j g' =>
        k j ((n, substring 0 (offset j - offset i) (rest i)) :: g'))
  | Ahead r' =>
      match run r' i g (fun _ g' => Some g') with
      | Some g' => k i g'
      | None => None
      end
  | Dollar =>
      match rest i with
      | EmptyString => k i g
      | String c EmptyString => if Ascii.eqb c NL then k i g else None
      | _ => None
      end
  end.

(** A match of [r] at the start of [s]: its length and its groups. *)
Definition match_here (r : regex) (s : string) : option (nat * groups) :=
  run r (Cursor 0 s) [] (fun j g => Some (offset j, g)).

(** The text cut into matches and the characters between them, scanning
    left to right without overlap ([skip] characters are still inside the
    previous match). *)
Inductive piece : Type :=
| Gap (c : ascii)
| Hit (text : string) (g : groups).

Fixpoint scan (r : regex) (skip : nat) (s : string) {struct s} : list piece :=
  match skip with
  | S n =>
      match s with
      | String _ s' => scan r n s'
      | EmptyString => []
      end
  | O =>
      match match_here r s with
      | Some (len, g) =>
          Hit (substring 0 len s) g ::
          match s with
          | String c s' =>
              match len with
              | O => Gap c :: scan r 0 s'
              | S n => scan r n s'
              end
          | EmptyString => []
          end
      | None =>
          match s with
          | String c s' => Gap c :: scan r 0 s'
          | EmptyString => []
          end
      end
  end.

Fixpoint hits (l : list piece) : list (string * groups) :=
  match l with
  | [] => []
  | Gap _ :: t => hits t
  | Hit m g :: t => (m, g) :: hits t
  end.

(** [re.findall] for a pattern without groups, with one group, with two. *)
Definition findall (r : regex) (s : string) : list string :=
  map fst (hits (scan r 0 s)).

Definition findall1 (r : regex) (s : string) : list string :=
  map (fun h => group 1 (snd h)) (hits (scan r 0 s)).

Definition findall2 (r : regex) (s : string) : list (string * string) :=
  map (fun h => (group 1 (snd h), group 2 (snd h))) (hits (scan r 0 s)).

(** [re.search(r, s).group(1)], [None] when there is no match. *)
Definition search1 (r : regex) (s : string) : option string :=
  match hits (scan r 0 s) with
  | [] => None
  | h :: _ => Some (group 1 (snd h))
  end.

(** [re.sub(r, template, s)]; the template is a function of the groups. *)
Fixpoint subst (template : groups -> string) (l : list piece) : string :=
  match l with
  | [] => EmptyString
  | Gap c :: t => String c (subst template t)
  | Hit _ g :: t => template g ++ subst template t
  end.

Definition sub (r : regex) (template : groups -> string) (s : string) : string :=
  subst template (scan r 0 s).

(** Pattern syntax. *)
Definition chr (c : ascii) : regex := Cls (Ascii.eqb c).
Definition chr_i (c : ascii) : regex :=
  Cls (fun x => Ascii.eqb (lower_char x) (lower_char c)).
Definition dotall : regex := Cls (fun _ => true).             (* . with DOTALL *)
Definition dot : regex := Cls (fun c => negb (Ascii.eqb c NL)). (* . *)
Definition oneof (chars : string) : regex := Cls (fun c => has_char c chars).
Definition noneof (chars : string) : regex := Cls (fun c => negb (has_char c chars)).
Definition ws : regex := Cls isspace.        (* \s *)
Definition digit : regex := Cls isdecimal.   (* "\d" *)
Definition word : regex := Cls isword.       (* "\w" *)

Fixpoint lit (s : string) : regex :=
  match s with
  | EmptyString => Eps
  | String c EmptyString => chr c
  | String c s' => Cat (chr c) (lit s')
  end.

Fixpoint lit_i (s : string) : regex :=
  match s with
  | EmptyString => Eps
  | String c EmptyString => chr_i c
  | String c s' => Cat (chr_i c) (lit_i s')
  end.

Fixpoint seq (l : list regex) : regex :=
  match l with
  | [] => Eps
  | [r] => r
  | r :: t => Cat r (seq t)
  end.

Definition plus (r : regex) : regex := Cat r (Star r).     (* r+ *)
Definition opt (r : regex) : regex := Alt r Eps.           (* r? *)

Fixpoint times (n : nat) (r : regex) : regex :=            (* r{n} *)
  match n with
  | O => Eps
  | S O => r
  | S n' => Cat r (times n' r)
  end.

End Re.

(** ** What the parser imports *)

(** A parsed document of [bs4]: every [table] as the stripped texts of the
    [td]/[th] cells of each of its [tr] rows, and every [script] element as
    its [type] attribute and its [.string]. *)
Record Soup : Type := {
  soup_tables : list (list (list string));
  soup_scripts : list (option string * option string)
}.

Record Runtime : Type := {
  HAS_PANDAS : bool;
  HAS_BS4 : bool;
  HAS_YAML : bool;
  json_loads : string -> Decode Value;           (* json.loads *)
  read_csv_rows : string -> Result (list Dict);  (* row.to_dict() of each row of pd.read_csv *)
  BeautifulSoup : string -> Result Soup;         (* BeautifulSoup(content, 'html.parser') *)
  yaml_safe_load : string -> Decode Value;       (* yaml.safe_load *)
  now_isoformat : string                         (* datetime.now().isoformat() *)
}.

Definition bind {A B : Type} (x : Result A) (f : A -> Result B) : Result B :=
  match x with
  | Ok a => f a
  | Raise e => Raise e
  end.

Notation "x <- e ;; k" := (bind e (fun x => k))
  (at level 61, e at next level, right associativity).

Definition type_name (v : Value) : string :=
  match v with
  | VNone => "NoneType"
  | VBool _ => "bool"
  | VInt _ => "int"
  | VFloat _ => "float"
  | VStr _ => "str"
  | VList _ => "list"
  | VDict _ => "dict"
  end.

(** [v[k] = x] for a string key: a [TypeError] unless [v] is a dict. *)
Definition setitem (v : Value) (k : string) (x : Value) : Result Dict :=
  match v with
  | VDict d => Ok (dict_set k x d)
  | VList _ => Raise "list indices must be integers or slices, not str"
  | _ => Raise ("'" ++ type_name v ++ "' object does not support item assignment")
  end.

(** Truth value of an object.  A float literal is zero when its mantissa
    has no non-zero digit. *)
Fixpoint mantissa_nonzero (s : string) : bool :=
  match s with
  | EmptyString => false
  | String c s' =>
      if Ascii.eqb c "e" || Ascii.eqb c "E" then false
      else Str.between 49 57 c || Ascii.eqb c "n" || Ascii.eqb c "N"
           || Ascii.eqb c "i" || Ascii.eqb c "I" || mantissa_nonzero s'
  end.

Definition truthy (v : Value) : bool :=
  match v with
  | VNone => false
  | VBool b => b
  | VInt z => negb (Z.eqb z 0)
  | VFloat l => mantissa_nonzero l
  | VStr s => negb (String.eqb s EmptyString)
  | VList l => match l with [] => false | _ => true end
  | VDict d => match d with [] => false | _ => true end
  end.

Definition string_of_nat (n : nat) : string :=
  DecimalString.NilEmpty.string_of_uint (Nat.to_uint n).

(** [dict(zip(keys, values))], assigned left to right. *)
Fixpoint assign_columns (keys values : list string) (row : Dict) : Dict :=
  match keys, values with
  | k :: ks, v :: vs => assign_columns ks vs (dict_set k (VStr v) row)
  | _, _ => row
  end.

(** ** [UnstructuredDataParser] *)

Module Parser.
Import Str Re.

(** *** The patterns of [__init__] *)

(** "--- MARKER.*?(?=---|$)", used with [re.DOTALL | re.IGNORECASE]. *)
Definition section_pattern (marker : string) : regex :=
  seq [lit_i marker; StarLazy dotall; Ahead (Alt (lit_i "---") Dollar)].

(** "=== VARIANT v2 START ===.*?=== VARIANT v2 END ===" *)
Definition variant_pattern : regex :=
  seq [lit_i "=== VARIANT v2 START ==="; StarLazy dotall;
       lit_i "=== VARIANT v2 END ==="].

Definition section_patterns : list (string * regex) :=
  [ ("metadata", section_pattern "--- METADATA");
    ("raw_paragraph", section_pattern "--- RAW PARAGRAPH");
    ("inline_json", section_pattern "--- INLINE JSON");
    ("malformed_json", section_pattern "--- MALFORMED JSON");
    ("html_snippet", section_pattern "--- HTML SNIPPET");
    ("csv_section", section_pattern "--- CSV-LIKE SECTION");
    ("key_value", section_pattern "--- KEY-VALUE KVP BLOCK");
    ("json_ld", section_pattern "--- JSON-LD");
    ("inline_csv", section_pattern "--- INLINE CSV TABLE");
    ("free_text", section_pattern "--- FREE TEXT");
    ("ocr_footer", section_pattern "--- OCR-LIKE PAGE FOOTER");
    ("sql_snippet", section_pattern "--- SQL-LIKE SNIPPET");
    ("repeated_fields", section_pattern "--- REPEATED FIELDS");
    ("ambiguous_types", section_pattern "--- AMBIGUOUS TYPES");
    ("variant_v2", variant_pattern) ].

(** [json_patterns['json_object']]; with its tokens spaced out the pattern
    is "\{ [^{}]* (?: \{ [^{}]* \} [^{}]* )* \}". *)
Definition json_object : regex :=
  seq [chr "{"; Star (noneof "{}");
       Star (seq [chr "{"; Star (noneof "{}"); chr "}"; Star (noneof "{}")]);
       chr "}"].

Definition price_patterns : list regex :=
  [ (* "\$?\d+\.?\d*\s*USD" *)
    seq [opt (chr "$"); plus digit; opt (chr "."); Star digit; Star ws; lit_i "USD"];
    (* "\$\d+\.?\d*" *)
    seq [chr "$"; plus digit; opt (chr "."); Star digit];
    (* "\d+[.,]\d+" *)
    seq [plus digit; oneof ".,"; plus digit];
    (* "price[:\s]+[\$]?\d+\.?\d*" *)
    seq [lit_i "price"; plus (Cls (fun c => Ascii.eqb c ":" || isspace c));
         opt (chr "$"); plus digit; opt (chr "."); Star digit] ].

Definition date_patterns : list regex :=
  [ (* "\d{4}-\d{2}-\d{2}" *)
    seq [times 4 digit; chr "-"; times 2 digit; chr "-"; times 2 digit];
    (* "\d{2}/\d{2}/\d{4}" *)
    seq [times 2 digit; chr "/"; times 2 digit; chr "/"; times 4 digit];
    (* "\d{2}-\d{2}-\d{4}" *)
    seq [times 2 digit; chr "-"; times 2 digit; chr "-"; times 4 digit];
    (* "\w+\s+\d{1,2},\s+\d{4}" *)
    seq [plus word; plus ws; digit; opt digit; chr ","; plus ws; times 4 digit];
    (* "\d{4}/\d{2}/\d{2}" *)
    seq [times 4 digit; chr "/"; times 2 digit; chr "/"; times 2 digit] ].

(** *** [_extract_sections] *)

Definition first_match (name : string) (pattern : regex) (content : string)
    : list (string * string) :=
  match findall pattern content with
  | [] => []
  | m :: _ => [(name, m)]
  end.

Definition _extract_sections (content : string) : list (string * string) :=
  flat_map (fun np => first_match (fst np) (snd np) content) section_patterns.

(** *** Line-oriented section parsers *)

(** The guard the key/value parsers share:
    [':' in line and not line.strip().startswith('#')
     and not line.strip().startswith('---')]. *)
Definition colon_line (line : string) : bool :=
  has_char ":" line && negb (startswith "#" (strip line))
  && negb (startswith "---" (strip line)).

(** [key, value = line.split(':', 1)], both stripped. *)
Definition key_value_of (line : string) : option (string * string) :=
  match split1 ":" line with
  | Some (key, value) => Some (strip key, strip value)
  | None => None
  end.

Definition metadata_line (metadata : Dict) (line : string) : Dict :=
  if colon_line line then
    match key_value_of line with
    | Some (key, value) => dict_set key (VStr value) metadata
    | None => metadata
    end
  else metadata.

Definition _parse_metadata (content : string) : list Dict :=
  let metadata :=
    fold_left metadata_line (split NL content) [("data_type", VStr "metadata")] in
  if Nat.ltb 1 (List.length metadata) then [metadata] else [].

(** [for i, part in enumerate(parts): result[f'tag_{i}'] = part.strip()] *)
Fixpoint assign_tags (i : nat) (parts : list string) (result : Dict) : Dict :=
  match parts with
  | [] => result
  | part :: t =>
      assign_tags (S i) t (dict_set ("tag_" ++ string_of_nat i) (VStr (strip part)) result)
  end.

Definition key_value_line (result : Dict) (line : string) : Dict :=
  if colon_line line then
    match key_value_of line with
    | Some (key, value) => dict_set key (VStr value) result
    | None => result
    end
  else if has_char ";" line && negb (startswith "#" (strip line)) then
    assign_tags 0 (split ";" line) result
  else result.

Definition _parse_key_value (content : string) : list Dict :=
  let result :=
    fold_left key_value_line (split NL content) [("data_type", VStr "key_value_pairs")] in
  if Nat.ltb 1 (List.length result) then [result] else [].

(** The body of the [if key in fields] statement of [_parse_repeated_fields]. *)
Definition accumulate (key value : string) (fields : Dict) : Dict :=
  match dict_get key fields with
  | Some (VList items) => dict_set key (VList (items ++ [VStr value])) fields
  | Some old => dict_set key (VList [old; VStr value]) fields
  | None => dict_set key (VStr value) fields
  end.

Definition repeated_line (fields : Dict) (line : string) : Dict :=
  if colon_line line then
    match key_value_of line with
    | Some (key, value) => accumulate key value fields
    | None => fields
    end
  else fields.

Definition _parse_repeated_fields (content : string) : list Dict :=
  let fields := fold_left repeated_line (split NL content) [] in
  match fields with
  | [] => []
  | _ => [dict_set "data_type" (VStr "repeated_fields") fields]
  end.

(** *** The JSON repair cascade *)

Definition quotes : string := String DQ (String SQ EmptyString).

(** Strategy 1, [_fix_malformed_json]. *)
Definition _fix_malformed_json (json_str : string) : string :=
  (* ",(\s*[}\]])" becomes "\1" *)
  let json_str :=
    sub (seq [chr ","; Grp 1 (Cat (Star ws) (oneof "}]"))]) (group 1) json_str in
  (* quote, "\s*\n\s*", quote becomes quote, comma, newline, quote *)
  let json_str :=
    sub (seq [chr DQ; Star ws; chr NL; Star ws; chr DQ])
        (fun _ => String DQ (String "," (String NL (str1 DQ)))) json_str in
  (* "(\w+):" becomes the group in double quotes, then a colon *)
  let json_str :=
    sub (seq [Grp 1 (plus word); chr ":"])
        (fun g => String DQ (group 1 g ++ String DQ ":")) json_str in
  json_str.

Definition ident_start (c : ascii) : bool :=
  isupper_ascii c || islower_ascii c || Ascii.eqb c "_".
Definition ident_char (c : ascii) : bool := ident_start c || isdecimal c.

(** Strategy 2, [_aggressive_json_fix]. *)
Definition _aggressive_json_fix (json_str : string) : string :=
  (* "//.*?\n" removed *)
  let json_str := sub (seq [lit "//"; StarLazy dot; chr NL]) (fun _ => EmptyString) json_str in
  (* "/\*.*?\*/" removed, with re.DOTALL *)
  let json_str := sub (seq [lit "/*"; StarLazy dotall; lit "*/"]) (fun _ => EmptyString) json_str in
  (* ":\s*(IDENT)\s*([,}])" with IDENT = "[a-zA-Z_][a-zA-Z0-9_]*": the
     identifier is put in double quotes *)
  let json_str :=
    sub (seq [chr ":"; Star ws; Grp 1 (Cat (Cls ident_start) (Star (Cls ident_char)));
              Star ws; Grp 2 (oneof ",}")])
        (fun g => ": " ++ String DQ (group 1 g ++ String DQ (group 2 g))) json_str in
  (* single quotes to double quotes *)
  let json_str := replace_char SQ DQ json_str in
  (* ",\s*([}\]])" becomes "\1" *)
  let json_str := sub (seq [chr ","; Star ws; Grp 1 (oneof "}]")]) (group 1) json_str in
  (* quote, "\s*\n\s*", quote becomes quote, comma, newline, quote *)
  let json_str :=
    sub (seq [chr DQ; Star ws; chr NL; Star ws; chr DQ])
        (fun _ => String DQ (String "," (String NL (str1 DQ)))) json_str in
  (* "(\d)\s*\n\s*" and a quote: a comma is put after the digit *)
  let json_str :=
    sub (seq [Grp 1 digit; Star ws; chr NL; Star ws; chr DQ])
        (fun g => group 1 g ++ String "," (String NL (str1 DQ))) json_str in
  (* "}\s*\n\s*" and a quote: a comma is put after the brace *)
  let json_str :=
    sub (seq [chr "}"; Star ws; chr NL; Star ws; chr DQ])
        (fun _ => String "}" (String "," (String NL (str1 DQ)))) json_str in
  json_str.

(** The prefix the four patterns of strategy 3 share: an optional quote,
    "(\w+)", an optional quote, "\s*:\s*". *)
Definition key_prefix : list regex :=
  [opt (oneof quotes); Grp 1 (plus word); opt (oneof quotes); Star ws; chr ":"; Star ws].

Fixpoint assign_all (kvs : list (string * Value)) (result : Dict) : Dict :=
  match kvs with
  | [] => result
  | (k, v) :: t => assign_all t (dict_set k v result)
  end.

Definition nonempty (s : string) : bool := negb (String.eqb s EmptyString).

(** Strategy 3, [_extract_json_fields_manually]; [VNone] when no field is
    recognised.  [int(value)] is taken to succeed on every run of digits
    (CPython's limit on the length of a converted integer is left out). *)
Definition _extract_json_fields_manually (json_str : string) : Value :=
  (* a quoted value without quotes inside *)
  let string_matches :=
    findall2 (seq (key_prefix ++ [oneof quotes; Grp 2 (Star (noneof quotes)); oneof quotes]))
             json_str in
  let result := assign_all (map (fun kv => (fst kv, VStr (snd kv))) string_matches) [] in
  (* "(\d+(?:\.\d+)?)" *)
  let numeric_matches :=
    findall2 (seq (key_prefix ++
                   [Grp 2 (Cat (plus digit) (opt (Cat (chr ".") (plus digit))))]))
             json_str in
  let result :=
    assign_all
      (map (fun kv =>
              (fst kv, if has_char "." (snd kv) then VFloat (snd kv)
                       else VInt (digits_value 0 (snd kv))))
           numeric_matches) result in
  (* "(true|false)", with re.IGNORECASE *)
  let bool_matches :=
    findall2 (seq (key_prefix ++ [Grp 2 (Alt (lit_i "true") (lit_i "false"))])) json_str in
  let result :=
    assign_all (map (fun kv => (fst kv, VBool (String.eqb (lower (snd kv)) "true")))
                    bool_matches) result in
  (* a bracketed value without a closing bracket inside *)
  let array_matches :=
    findall2 (seq (key_prefix ++ [chr "["; Grp 2 (Star (noneof "]")); chr "]"])) json_str in
  let result :=
    assign_all
      (map (fun kv =>
              let items := map (fun item => strip_chars quotes (strip item))
                               (split "," (snd kv)) in
              (fst kv, VStrs (filter nonempty items)))
           array_matches) result in
  match result with
  | [] => VNone
  | _ => VDict result
  end.

(** [_extract_readable_content] *)
Definition _extract_readable_content (json_str : string) : string :=
  let content := strip_chars "{}" json_str in
  let content := sub (plus ws) (fun _ => " ") content in
  let readable_parts :=
    findall2 (seq [opt (oneof quotes); Grp 1 (plus word); opt (oneof quotes);
                   Star ws; chr ":"; Star ws; opt (oneof quotes);
                   Grp 2 (Star (Cls (fun c => negb (Ascii.eqb c "," || has_char c quotes))));
                   opt (oneof quotes)])
             content in
  match readable_parts with
  | [] => if Nat.ltb 100 (String.length content) then take 100 content ++ "..."
          else content
  | _ => join "; " (map (fun kv => fst kv ++ ": " ++ strip (snd kv)) readable_parts)
  end.

Section WithRuntime.

Variable rt : Runtime.

(** [try: return json.loads(text) except json.JSONDecodeError: pass], then
    the rest of the cascade. *)
Definition or_next (attempt : Decode Value) (next : Result Value) : Result Value :=
  match attempt with
  | Decoded v => Ok v
  | DecodeError _ => next
  | Crash e => Raise e
  end.

Definition last_resort (json_str : string) : Value :=
  VDict [ ("raw_content", VStr (strip json_str));
          ("parsing_error", VStr "Could not parse as valid JSON");
          ("extracted_text", VStr (_extract_readable_content json_str)) ].

(** Strategy 3 sits in [try: return ... except: pass]: whatever
    [_extract_json_fields_manually] returns is returned, [None] included,
    and only an exception would lead to the last statement. *)
Definition strategy3 (json_str : string) : Result Value :=
  Ok (_extract_json_fields_manually json_str).

Definition _attempt_json_fixes (json_str : string) : Result Value :=
  or_next (json_loads rt (_fix_malformed_json json_str))
    (or_next (json_loads rt (_aggressive_json_fix json_str))
       match strategy3 json_str with
       | Ok fields => Ok fields
       | Raise _ => Ok (last_resort json_str)
       end).

(** [parsed_obj['data_type'] = 'json_object'; parsed_obj['was_malformed'] = flag] *)
Definition tag_json (v : Value) (was_malformed : bool) : Result Dict :=
  d <- setitem v "data_type" (VStr "json_object") ;;
  Ok (dict_set "was_malformed" (VBool was_malformed) d).

(** The [if parsed_obj:] block after a repair. *)
Definition repaired (json_str : string) (results : list Dict) : Result (list Dict) :=
  parsed_obj <- _attempt_json_fixes json_str ;;
  if truthy parsed_obj then
    d <- tag_json parsed_obj true ;;
    Ok (results ++ [d])%list
  else Ok results.

Definition from_array (item : Value) : list Dict :=
  match item with
  | VDict d =>
      [dict_set "from_array" (VBool true)
         (dict_set "was_malformed" (VBool false)
            (dict_set "data_type" (VStr "json_object") d))]
  | _ => []
  end.

Fixpoint json_section_loop (json_objects : list string) (results : list Dict)
    : Result (list Dict) :=
  match json_objects with
  | [] => Ok results
  | json_str :: t =>
      match json_loads rt json_str with
      | Decoded (VDict d) =>
          json_section_loop t
            (results ++ [dict_set "was_malformed" (VBool false)
                           (dict_set "data_type" (VStr "json_object") d)])%list
      | Decoded (VList items) =>
          json_section_loop t (results ++ flat_map from_array items)%list
      | Decoded _ => json_section_loop t results
      | DecodeError _ =>
          results' <- repaired json_str results ;;
          json_section_loop t results'
      | Crash e => Raise e
      end
  end.

Definition _parse_json_section (content : string) : Result (list Dict) :=
  json_section_loop (findall json_object content) [].

Fixpoint malformed_loop (json_candidates : list string) (results : list Dict)
    : Result (list Dict) :=
  match json_candidates with
  | [] => Ok results
  | json_str :: t =>
      results' <- repaired json_str results ;;
      malformed_loop t results'
  end.

Definition _parse_malformed_json (content : string) : Result (list Dict) :=
  malformed_loop (findall json_object content) [].

(** *** HTML *)

Definition html_row (data_type : string) (headers cells : list string) : list Dict :=
  if Nat.eqb (List.length cells) (List.length headers)
  then [dict_set "data_type" (VStr data_type) (assign_columns headers cells [])]
  else [].

(** [_extract_table_data]: the first [tr] gives the headers, the others the rows. *)
Definition _extract_table_data (table : list (list string)) : list Dict :=
  match table with
  | [] => []
  | headers :: rows => flat_map (html_row "html_table_row" headers) rows
  end.

Definition ld_json_script (script : option string * option string) : list Dict :=
  match script with
  | (Some type_, Some text) =>
      if String.eqb type_ "application/ld+json" then
        match json_loads rt text with
        | Decoded (VDict d) => [dict_set "data_type" (VStr "json_ld_from_html") d]
        | _ => []
        end
      else []
  | _ => []
  end.

(** "<tr[^>]*>(.*?)</tr>" with [re.DOTALL | re.IGNORECASE]; the cell
    patterns "<th[^>]*>(.*?)</th>" and "<td[^>]*>(.*?)</td>" with
    [re.IGNORECASE] only. *)
Definition tr_pattern : regex :=
  seq [lit_i "<tr"; Star (noneof ">"); chr ">"; Grp 1 (StarLazy dotall); lit_i "</tr>"].
Definition cell_pattern (tag : string) : regex :=
  seq [lit_i ("<" ++ tag); Star (noneof ">"); chr ">"; Grp 1 (StarLazy dot);
       lit_i ("</" ++ tag ++ ">")].

(** "<[^>]+>" removed, then stripped. *)
Definition clean_cell (cell : string) : string :=
  strip (sub (seq [chr "<"; plus (noneof ">"); chr ">"]) (fun _ => EmptyString) cell).

Definition _parse_html_simple (content : string) : list Dict :=
  match findall1 tr_pattern content with
  | first :: (_ :: _) as rest =>
      let header_cells :=
        match findall1 (cell_pattern "th") first with
        | [] => findall1 (cell_pattern "td") first
        | cells => cells
        end in
      flat_map (fun row =>
                  html_row "html_table_row" (map strip header_cells)
                    (map clean_cell (findall1 (cell_pattern "td") row)))
               rest
  | _ => []
  end.

Definition _parse_html_section (content : string) : list Dict :=
  if negb (HAS_BS4 rt) then _parse_html_simple content
  else
    match BeautifulSoup rt content with
    | Ok soup =>
        (flat_map _extract_table_data (soup_tables soup)
         ++ flat_map ld_json_script (soup_scripts soup))%list
    | Raise e =>
        [[("data_type", VStr "raw_html"); ("content", VStr content);
          ("parse_error", VStr e)]]
    end.

(** *** CSV *)

Definition not_comment (line : string) : bool := negb (startswith "#" (strip line)).

Definition csv_line (line : string) : bool :=
  has_char "," line && not_comment line && negb (startswith "---" (strip line)).

(** One line of the manual path: kept when it has as many fields as the
    header. *)
Definition csv_row (data_type : string) (headers : list string) (line : string)
    : list Dict :=
  let values := map strip (split "," line) in
  if Nat.eqb (List.length values) (List.length headers)
  then [dict_set "data_type" (VStr data_type) (assign_columns headers values [])]
  else [].

Definition manual_csv (data_type : string) (csv_lines : list string) : list Dict :=
  match csv_lines with
  | [] => []
  | header :: rows =>
      flat_map (csv_row data_type (map strip (split "," header))) rows
  end.

Definition pandas_csv (data_type : string) (csv_lines : list string)
    : Result (list Dict) :=
  rows <- read_csv_rows rt (join (str1 NL) csv_lines) ;;
  Ok (map (dict_set "data_type" (VStr data_type)) rows).

Definition _parse_csv_section (content : string) : list Dict :=
  let lines := split NL (strip content) in
  let csv_lines := filter csv_line lines in
  if Nat.leb 2 (List.length csv_lines) then
    if HAS_PANDAS rt then
      match pandas_csv "csv_row" csv_lines with
      | Ok results => results
      | Raise e =>
          [[("data_type", VStr "malformed_csv");
            ("raw_content", VStr (join (str1 NL) csv_lines));
            ("error", VStr e)]]
      end
    else manual_csv "csv_row" csv_lines
  else [].

(** *** JSON-LD *)

(** The pattern of [_parse_json_ld]: "<script[^>]*", the attribute
    type="application/ld\+json", "[^>]*>(.*?)</script>", with [re.DOTALL]. *)
Definition json_ld_pattern : regex :=
  seq [lit "<script"; Star (noneof ">");
       lit ("type=" ++ String DQ ("application/ld+json" ++ str1 DQ));
       Star (noneof ">"); chr ">"; Grp 1 (StarLazy dotall); lit "</script>"].

Fixpoint json_ld_loop (matches : list string) (results : list Dict)
    : Result (list Dict) :=
  match matches with
  | [] => Ok results
  | m :: t =>
      match json_loads rt (strip m) with
      | Decoded parsed =>
          d <- setitem parsed "data_type" (VStr "json_ld") ;;
          json_ld_loop t (results ++ [d])%list
      | DecodeError e =>
          json_ld_loop t
            (results ++ [[("data_type", VStr "malformed_json_ld");
                          ("raw_content", VStr (strip m)); ("error", VStr e)]])%list
      | Crash e => Raise e
      end
  end.

Definition _parse_json_ld (content : string) : Result (list Dict) :=
  json_ld_loop (findall1 json_ld_pattern content) [].

(** *** Ambiguous types *)

Definition fullmatch (r : regex) (s : string) : bool :=
  match run r (Cursor 0 s) []
          (fun j _ => match rest j with EmptyString => Some tt | _ => None end) with
  | Some _ => true
  | None => false
  end.

Definition digitpart : regex := Cat digit (Star (Cat (opt (chr "_")) digit)).

(** The strings [float()] accepts, once the blanks around them are gone. *)
Definition float_syntax : regex :=
  seq [opt (oneof "+-");
       Alt (seq [Alt (seq [digitpart; opt (Cat (chr ".") (opt digitpart))])
                     (Cat (chr ".") digitpart);
                 opt (seq [oneof "eE"; opt (oneof "+-"); digitpart])])
           (Alt (lit_i "infinity") (Alt (lit_i "inf") (lit_i "nan")))].

(** The blanks [float()] strips: ASCII white space and the non-ASCII spaces. *)
Definition float_blank (c : ascii) : bool :=
  between 9 13 c || Nat.eqb (code c) 32 || Nat.eqb (code c) 133 || Nat.eqb (code c) 160.

Definition float_parses (value : string) : bool :=
  fullmatch float_syntax (strip_by float_blank value).

Definition _is_float (value : string) : bool :=
  float_parses value && has_char "." value.

(** [value.isdigit()] *)
Definition isdigit (value : string) : bool :=
  nonempty value && all_chars isdigit_char value.

Definition with_original (key : string) (v : Value) (value : string) (result : Dict) : Dict :=
  dict_set (key ++ "_original") (VStr value) (dict_set key v result).

(** One line of [_parse_ambiguous_types].  [value.isdigit()] also holds of
    the superscript digits, on which [int(value)] raises the [ValueError]
    that the loop catches. *)
Definition ambiguous_line (result : Dict) (line : string) : Dict :=
  if colon_line line then
    match split1 ":" line with
    | Some (key, value) =>
        let key := strip key in
        let value := strip_chars (str1 DQ) (strip value) in
        if mem (lower value) ["true"; "false"] then
          with_original key (VBool (String.eqb (lower value) "true")) value result
        else if String.eqb value "N/A" then
          with_original key VNone value result
        else if isdigit value then
          if all_chars isdecimal value
          then with_original key (VInt (digits_value 0 value)) value result
          else result   (* int(value) raises ValueError: continue *)
        else if _is_float value then
          with_original key (VFloat value) value result
        else dict_set key (VStr value) result
    | None => result
    end
  else result.

Definition _parse_ambiguous_types (content : string) : list Dict :=
  let result :=
    fold_left ambiguous_line (split NL content) [("data_type", VStr "ambiguous_types")] in
  if Nat.ltb 1 (List.length result) then [result] else [].

(** *** Variant block *)

Fixpoint variant_json_loop (json_objects : list string) (results : list Dict)
    : Result (list Dict) :=
  match json_objects with
  | [] => Ok results
  | json_str :: t =>
      match json_loads rt json_str with
      | Decoded parsed =>
          d <- setitem parsed "data_type" (VStr "schema_variant") ;;
          variant_json_loop t (results ++ [dict_set "version" (VStr "v2") d])%list
      | DecodeError _ => variant_json_loop t results
      | Crash e => Raise e
      end
  end.

(** "---\n(.*?)\n---" with [re.DOTALL] *)
Definition yaml_pattern : regex :=
  seq [lit "---"; chr NL; Grp 1 (StarLazy dotall); chr NL; lit "---"].

Fixpoint variant_yaml_loop (yaml_matches : list string) (results : list Dict)
    : Result (list Dict) :=
  match yaml_matches with
  | [] => Ok results
  | yaml_str :: t =>
      match yaml_safe_load rt yaml_str with
      | Decoded (VDict d) =>
          variant_yaml_loop t
            (results ++ [dict_set "data_type" (VStr "yaml_frontmatter") d])%list
      | Decoded _ => variant_yaml_loop t results
      | DecodeError _ => variant_yaml_loop t results
      | Crash e => Raise e
      end
  end.

Definition variant_csv (content : string) : list Dict :=
  let csv_lines :=
    filter (fun line => has_char "," line && not_comment line) (split NL content) in
  if Nat.leb 2 (List.length csv_lines) then
    if HAS_PANDAS rt then
      match pandas_csv "variant_csv_row" csv_lines with
      | Ok rows => rows
      | Raise _ => []
      end
    else manual_csv "variant_csv_row" csv_lines
  else [].

Definition _parse_variant_section (content : string) : Result (list Dict) :=
  results <- variant_json_loop (findall json_object content) [] ;;
  results <- (if HAS_YAML rt
              then variant_yaml_loop (findall1 yaml_pattern content) results
              else Ok results) ;;
  Ok (results ++ variant_csv content)%list.

(** *** Text sections *)

Definition set_if_any (key : string) (found : list string) (result : Dict) : Dict :=
  match found with
  | [] => result
  | _ => dict_set key (VStrs found) result
  end.

Definition _parse_raw_text (content : string) : list Dict :=
  let result := [("data_type", VStr "raw_text_analysis")] in
  (* every price pattern is used with re.IGNORECASE *)
  let prices := flat_map (fun pattern => findall pattern content) price_patterns in
  let result := set_if_any "extracted_prices" prices result in
  let dates := flat_map (fun pattern => findall pattern content) date_patterns in
  let result := set_if_any "extracted_dates" dates result in
  (* a quote, a group of non-quotes, a quote *)
  let quoted_strings :=
    findall1 (seq [chr DQ; Grp 1 (Star (noneof (str1 DQ))); chr DQ]) content in
  let result := set_if_any "quoted_strings" quoted_strings result in
  let result := dict_set "word_count" (VNat (count_words content)) result in
  let result := dict_set "char_count" (VNat (String.length content)) result in
  let result := dict_set "line_count" (VNat (List.length (split NL content))) result in
  [result].

(** "var\s+\w+\s*=\s*(\{[^}]+\})" *)
Definition js_pattern : regex :=
  seq [lit "var"; plus ws; plus word; Star ws; chr "="; Star ws;
       Grp 1 (seq [chr "{"; plus (noneof "}"); chr "}"])].

(** "\(?\d{3}\)?[-.\s]?\d{3}[-.\s]?\d{4}" *)
Definition phone_pattern : regex :=
  let sep := opt (Cls (fun c => has_char c "-." || isspace c)) in
  seq [opt (chr "("); times 3 digit; opt (chr ")"); sep; times 3 digit; sep;
       times 4 digit].

(** "promo code:\s*([A-Z0-9]+)" with [re.IGNORECASE] *)
Definition promo_pattern : regex :=
  seq [lit_i "promo code:"; Star ws;
       Grp 1 (plus (Cls (fun c => isupper_ascii c || islower_ascii c || isdecimal c)))].

Definition js_object (js_obj : string) : Dict :=
  match json_loads rt (replace_char SQ DQ js_obj) with
  | Decoded (VDict d) => dict_set "data_type" (VStr "javascript_object") d
  | _ => [("data_type", VStr "malformed_js_object"); ("raw_content", VStr js_obj)]
  end.

Definition _parse_free_text (content : string) : list Dict :=
  let results := map js_object (findall1 js_pattern content) in
  let results :=
    match findall phone_pattern content with
    | [] => results
    | phones =>
        (results ++ [[("data_type", VStr "contact_info");
                      ("phone_numbers", VStrs phones)]])%list
    end in
  match findall1 promo_pattern content with
  | [] => results
  | promos =>
      (results ++ [[("data_type", VStr "promotional_info");
                    ("promo_codes", VStrs promos)]])%list
  end.

(** [line.split(':', 1)[1].strip() if ':' in line else line] *)
Definition after_colon (line : string) : string :=
  match split1 ":" line with
  | Some (_, value) => strip value
  | None => line
  end.

Definition ocr_line (result : Dict) (line : string) : Dict :=
  let line := strip line in
  if contains "page" (lower line) then dict_set "page_info" (VStr line) result
  else if contains "document title" (lower line) then
    dict_set "document_title" (VStr (after_colon line)) result
  else if contains "l0cation" (lower line) || contains "location" (lower line) then
    dict_set "ocr_errors_detected" (VBool true)
      (dict_set "location" (VStr (after_colon line)) result)
  else if contains "total" (lower line) then dict_set "total_info" (VStr line) result
  else result.

Definition _parse_ocr_footer (content : string) : list Dict :=
  let result := fold_left ocr_line (split NL (strip content)) [("data_type", VStr "ocr_footer")] in
  if Nat.ltb 1 (List.length result) then [result] else [].

Definition _parse_generic_text (content section_type : string) : list Dict :=
  [[ ("data_type", VStr ("generic_" ++ section_type));
     ("content", VStr (strip content));
     ("word_count", VNat (count_words content));
     ("char_count", VNat (String.length content)) ]].

(** *** [_parse_section], [_extract_global_metadata], [parse_file] *)

Definition _parse_section (section_type content : string) : Result (list Dict) :=
  if String.eqb section_type "metadata" then Ok (_parse_metadata content)
  else if String.eqb section_type "inline_json" then _parse_json_section content
  else if String.eqb section_type "malformed_json" then _parse_malformed_json content
  else if String.eqb section_type "html_snippet" then Ok (_parse_html_section content)
  else if String.eqb section_type "csv_section" || String.eqb section_type "inline_csv"
  then Ok (_parse_csv_section content)
  else if String.eqb section_type "key_value" then Ok (_parse_key_value content)
  else if String.eqb section_type "json_ld" then _parse_json_ld content
  else if String.eqb section_type "repeated_fields" then Ok (_parse_repeated_fields content)
  else if String.eqb section_type "ambiguous_types" then Ok (_parse_ambiguous_types content)
  else if String.eqb section_type "variant_v2" then _parse_variant_section content
  else if String.eqb section_type "raw_paragraph" then Ok (_parse_raw_text content)
  else if String.eqb section_type "free_text" then Ok (_parse_free_text content)
  else if String.eqb section_type "ocr_footer" then Ok (_parse_ocr_footer content)
  else Ok (_parse_generic_text content section_type).

(** "scraped_at:\s*([^\n]+)" *)
Definition scraped_pattern : regex :=
  seq [lit "scraped_at:"; Star ws; Grp 1 (plus (noneof (str1 NL)))].

(** "source:\s*(https?://[^\n\s]+)" *)
Definition source_pattern : regex :=
  seq [lit "source:"; Star ws;
       Grp 1 (seq [lit "http"; opt (chr "s"); lit "://";
                   plus (Cls (fun c => negb (Ascii.eqb c NL || isspace c)))])].

Definition set_if_found (key : string) (found : option string) (metadata : Dict) : Dict :=
  match found with
  | Some g => dict_set key (VStr (strip g)) metadata
  | None => metadata
  end.

Definition _extract_global_metadata (content filename : string) : Dict :=
  let metadata :=
    [ ("source_file", VStr filename);
      ("processed_at", VStr (now_isoformat rt));
      ("file_size_chars", VNat (String.length content));
      ("total_lines", VNat (List.length (split NL content))) ] in
  let metadata := set_if_found "scraped_at" (search1 scraped_pattern content) metadata in
  let metadata := set_if_found "source_url" (search1 source_pattern content) metadata in
  metadata.

(** The record appended by the [except Exception as e] branch. *)
Definition fallback (section_type section_content e filename : string) : Dict :=
  [ ("section_type", VStr section_type);
    ("raw_content", VStr (take 500 section_content));
    ("parse_error", VStr e);
    ("source_file", VStr filename) ].

(** One turn of the loop over [sections.items()]. *)
Definition parse_step (filename : string) (parsed_data : list Dict)
    (section : string * string) : list Dict :=
  match _parse_section (fst section) (snd section) with
  | Ok section_data =>
      match section_data with
      | [] => parsed_data
      | _ => (parsed_data ++ section_data)%list
      end
  | Raise e =>
      (parsed_data ++ [fallback (fst section) (snd section) e filename])%list
  end.

Definition parse_file (content filename : string) : list Dict :=
  let sections := _extract_sections content in
  let parsed_data := fold_left (parse_step filename) sections [] in
  match parsed_data with
  | [] => []
  | _ =>
      let metadata := _extract_global_metadata content filename in
      map (fun record => dict_update record metadata) parsed_data
  end.

End WithRuntime.

End Parser.

(** ** A model of [json.loads]

    The decoder of CPython 3.11 on texts of the character model: the
    grammar, what is returned and the position of the first error.  It is
    used where a development below needs a concrete [Runtime]; the general
    results hold for any [json_loads].  Two limits of the model: an escape
    above code point 255 has no character to stand for it and is reported
    as [Crash]; and the nesting is bounded by the length of the text, which
    no text reaches, where CPython raises [RecursionError] at its
    recursion limit. *)

Module Json.
Import Str Re.

Inductive failure : Type :=
| Bad (msg : string) (remaining : nat)   (* the message and the characters left at the error *)
| Outside                           (* a character outside the model *)
| TooDeep.                          (* the bound on nesting is reached *)

Definition parsed (A : Type) : Type := (failure + A * string)%type.

Definition is_ws (c : ascii) : bool := has_char c (String " " (String "009" (String NL (String "013" EmptyString)))).

Fixpoint skip_ws (s : string) : string :=
  match s with
  | String c s' => if is_ws c then skip_ws s' else s
  | EmptyString => EmptyString
  end.

Definition hexval (c : ascii) : option nat :=
  if isdecimal c then Some (code c - 48)
  else if between 97 102 c then Some (code c - 87)
  else if between 65 70 c then Some (code c - 55)
  else None.

Definition hex4 (a b c d : ascii) : option nat :=
  match hexval a, hexval b, hexval c, hexval d with
  | Some x, Some y, Some z, Some w => Some (((x * 16 + y) * 16 + z) * 16 + w)
  | _, _, _, _ => None
  end.

Definition simple_escape (e : ascii) : option ascii :=
  if Ascii.eqb e DQ then Some DQ
  else if Ascii.eqb e "\" then Some "\"%char
  else if Ascii.eqb e "/" then Some "/"%char
  else if Ascii.eqb e "b" then Some "008"%char
  else if Ascii.eqb e "f" then Some "012"%char
  else if Ascii.eqb e "n" then Some NL
  else if Ascii.eqb e "r" then Some "013"%char
  else if Ascii.eqb e "t" then Some "009"%char
  else None.

Definition push (c : ascii) (r : parsed string) : parsed string :=
  match r with
  | inr (t, s) => inr (String c t, s)
  | inl f => inl f
  end.

(** The text after an opening quote; [start] is what was left at the quote. *)
Fixpoint scanstring (start : nat) (s : string) : parsed string :=
  match s with
  | EmptyString => inl (Bad "Unterminated string starting at" start)
  | String c s' =>
      if Ascii.eqb c DQ then inr (EmptyString, s')
      else if Ascii.eqb c "\" then
        match s' with
        | EmptyString => inl (Bad "Unterminated string starting at" start)
        | String "u" (String h1 (String h2 (String h3 (String h4 r)))) =>
            match hex4 h1 h2 h3 h4 with
            | Some n =>
                if Nat.ltb n 256 then push (ascii_of_nat n) (scanstring start r)
                else inl Outside
            | None => inl (Bad "Invalid \uXXXX escape" (String.length s'))
            end
        | String "u" _ => inl (Bad "Invalid \uXXXX escape" (String.length s'))
        | String e r =>
            match simple_escape e with
            | Some x => push x (scanstring start r)
            | None => inl (Bad "Invalid \escape" (String.length s))
            end
        end
      else if Nat.ltb (code c) 32 then
        inl (Bad "Invalid control character at" (String.length s))
      else push c (scanstring start s')
  end.

Fixpoint drop (n : nat) (s : string) : string :=
  match n, s with
  | S n', String _ s' => drop n' s'
  | _, _ => s
  end.

(** [NUMBER_RE] of [json.scanner]: the integer part "-?(?:0|[1-9]\d* )",
    the fraction "\.\d+" and the exponent "[eE][-+]?\d+", each a group. *)
Definition NUMBER_RE : regex :=
  seq [Grp 1 (Cat (opt (chr "-"))
                  (Alt (chr "0") (Cat (Cls (between 49 57)) (Star digit))));
       opt (Grp 2 (Cat (chr ".") (plus digit)));
       opt (Grp 3 (seq [oneof "eE"; opt (oneof "-+"); plus digit]))].

Definition int_value (literal : string) : Z :=
  match literal with
  | String "-" digits => (- digits_value 0 digits)%Z
  | _ => digits_value 0 literal
  end.

Definition number (s : string) : option (Value * string) :=
  match match_here NUMBER_RE s with
  | Some (len, g) =>
      let literal := substring 0 len s in
      Some (if String.eqb (group 2 g ++ group 3 g) EmptyString
            then VInt (int_value literal) else VFloat literal,
            drop len s)
  | None => None
  end.

(** [scan_once] on text whose leading blanks are gone. *)
Definition literal (s : string) : option (Value * string) :=
  if prefix "null" s then Some (VNone, drop 4 s)
  else if prefix "true" s then Some (VBool true, drop 4 s)
  else if prefix "false" s then Some (VBool false, drop 5 s)
  else if prefix "NaN" s then Some (VFloat "NaN", drop 3 s)
  else if prefix "Infinity" s then Some (VFloat "Infinity", drop 8 s)
  else if prefix "-Infinity" s then Some (VFloat "-Infinity", drop 9 s)
  else None.

Definition expecting (msg : string) (s : string) : failure := Bad msg (String.length s).

Fixpoint value (fuel : nat) (s : string) {struct fuel} : parsed Value :=
  match fuel with
  | O => inl TooDeep
  | S fuel' =>
      match s with
      | EmptyString => inl (expecting "Expecting value" s)
      | String c s' =>
          if Ascii.eqb c DQ then
            match scanstring (String.length s) s' with
            | inr (t, r) => inr (VStr t, r)
            | inl f => inl f
            end
          else if Ascii.eqb c "{" then
            match skip_ws s' with
            | String "}" r => inr (VDict [], r)
            | r => members fuel' r []
            end
          else if Ascii.eqb c "[" then
            match skip_ws s' with
            | String "]" r => inr (VList [], r)
            | r => elements fuel' r []
            end
          else
            match number s with
            | Some vr => inr vr
            | None =>
                match literal s with
                | Some vr => inr vr
                | None => inl (expecting "Expecting value" s)
                end
            end
      end
  end

with elements (fuel : nat) (s : string) (acc : list Value) {struct fuel}
    : parsed Value :=
  match fuel with
  | O => inl TooDeep
  | S fuel' =>
      match value fuel' s with
      | inl f => inl f
      | inr (v, r) =>
          match skip_ws r with
          | String "]" r' => inr (VList (acc ++ [v]), r')
          | String "," r' => elements fuel' (skip_ws r') (acc ++ [v])%list
          | r' => inl (expecting "Expecting ',' delimiter" r')
          end
      end
  end

with members (fuel : nat) (s : string) (acc : Dict) {struct fuel} : parsed Value :=
  match fuel with
  | O => inl TooDeep
  | S fuel' =>
      match s with
      | String c s' =>
          if Ascii.eqb c DQ then
            match scanstring (String.length s) s' with
            | inl f => inl f
            | inr (key, r) =>
                match skip_ws r with
                | String ":" r' =>
                    match value fuel' (skip_ws r') with
                    | inl f => inl f
                    | inr (v, r'') =>
                        match skip_ws r'' with
                        | String "}" r3 => inr (VDict (dict_set key v acc), r3)
                        | String "," r3 =>
                            members fuel' (skip_ws r3) (dict_set key v acc)
                        | r3 => inl (expecting "Expecting ',' delimiter" r3)
                        end
                    end
                | r' => inl (expecting "Expecting ':' delimiter" r')
                end
            end
          else inl (expecting "Expecting property name enclosed in double quotes" s)
      | EmptyString =>
          inl (expecting "Expecting property name enclosed in double quotes" s)
      end
  end.

(** [JSONDecodeError.__str__]: the message with the line, column and index
    of the error. *)
Definition errmsg (doc msg : string) (pos : nat) : string :=
  let before := split NL (substring 0 pos doc) in
  msg ++ ": line " ++ string_of_nat (List.length before)
      ++ " column " ++ string_of_nat (S (String.length (last before EmptyString)))
      ++ " (char " ++ string_of_nat pos ++ ")".

Definition loads (s : string) : Decode Value :=
  let total := String.length s in
  match value (S (S total)) (skip_ws s) with
  | inr (v, r) =>
      match skip_ws r with
      | EmptyString => Decoded v
      | r' => DecodeError (errmsg s "Extra data" (total - String.length r'))
      end
  | inl (Bad msg remaining) => DecodeError (errmsg s msg (total - remaining))
  | inl Outside => Crash "character outside the model"
  | inl TooDeep => Crash "maximum recursion depth exceeded"
  end.

End Json.

(** A runtime without the optional libraries ([HAS_PANDAS], [HAS_BS4] and
    [HAS_YAML] all false), at a given clock reading.  The library entry
    points are then never called. *)
Definition bare_runtime (now : string) : Runtime :=
  {| HAS_PANDAS := false;
     HAS_BS4 := false;
     HAS_YAML := false;
     json_loads := Json.loads;
     read_csv_rows := fun _ => Raise "No module named 'pandas'";
     BeautifulSoup := fun _ => Raise "No module named 'bs4'";
     yaml_safe_load := fun _ => Crash "No module named 'yaml'";
     now_isoformat := now |}.

(** ** The schema engine

    [src/schema_inference/engine.py] is imported by [main.py] and
    [etl/pipeline.py] but is not among the sources; the definitions of this
    module follow sections 3, 4.4 and 4.5 of the specification. *)

Module Engine.
Import Str Re.

(** Modelled from the spec: the inferred types of section 3. *)
Inductive DataType : Type :=
| TString | TInteger | TFloat | TBoolean | TDate | TNull | TObject | TArray.

Definition DataType_eqb (a b : DataType) : bool :=
  match a, b with
  | TString, TString | TInteger, TInteger | TFloat, TFloat | TBoolean, TBoolean
  | TDate, TDate | TNull, TNull | TObject, TObject | TArray, TArray => true
  | _, _ => false
  end.

(** Modelled from the spec: the FieldSchema of section 3.  The confidence
    is the fraction [matching / non_null], and 0 when [non_null] is 0. *)
Record FieldSchema : Type := {
  inferred : DataType;
  matching : nat;
  non_null : nat;
  nullable : bool;
  samples : list Value
}.

(** Modelled from the spec: the confidence bucketed to two decimals, in
    hundredths, rounding half up. *)
Definition bucket (f : FieldSchema) : nat :=
  match non_null f with
  | O => 0
  | n => (200 * matching f + n) / (2 * n)
  end.

(** Modelled from the spec: the Change of section 3. *)
Inductive Change : Type :=
| field_added (field : string) (new : DataType)
| field_removed (field : string) (old : DataType)
| type_changed (field : string) (old new : DataType)
| confidence_changed (field : string) (old new : nat).

Definition Fields : Type := list (string * FieldSchema).

(** Modelled from the spec: the SchemaVersion of section 3. *)
Record SchemaVersion : Type := {
  version : string;
  timestamp : string;
  hash : string;
  schema : Fields;
  changes : list Change;
  source_id : string
}.

(** Modelled from the spec: the SchemaStore of section 3: the append-only
    history (version id to version), the index from hash to version id,
    the current version of each source and the global allocator of
    version ids.  History and index are the store's, shared by all
    sources as the allocator is; only the current pointer is kept per
    source. *)
Record SchemaStore : Type := {
  schema_versions : list (string * SchemaVersion);
  hash_index : list (string * string);
  current : list (string * SchemaVersion);
  next_id : nat
}.

(** Modelled from the spec: the store of a process that has seen no batch;
    the first version id is 1. *)
Definition empty_store : SchemaStore :=
  {| schema_versions := []; hash_index := []; current := []; next_id := 1 |}.

Fixpoint lookup {A : Type} (k : string) (l : list (string * A)) : option A :=
  match l with
  | [] => None
  | (k', v) :: t => if String.eqb k k' then Some v else lookup k t
  end.

Fixpoint assign {A : Type} (k : string) (v : A) (l : list (string * A))
    : list (string * A) :=
  match l with
  | [] => [(k, v)]
  | (k', v') :: t => if String.eqb k k' then (k', v) :: t else (k', v') :: assign k v t
  end.

(** *** Section 4.4, the field type inferencer *)

(** Modelled from the spec: the class of one value; [None] for null.
    Strings are tried as integer literal, float literal and date, the
    date patterns being those of the parser. *)
Definition classify (v : Value) : option DataType :=
  match v with
  | VNone => None
  | VBool _ => Some TBoolean
  | VDict _ => Some TObject
  | VList _ => Some TArray
  | VInt _ => Some TInteger
  | VFloat _ => Some TFloat
  | VStr s =>
      if Parser.fullmatch (Cat (opt (oneof "+-")) (plus digit)) s then Some TInteger
      else if Parser.float_parses s then Some TFloat
      else if existsb (fun p => match findall p s with [] => false | _ => true end)
                      Parser.date_patterns
      then Some TDate
      else Some TString
  end.

(** Modelled from the spec: the values observed for a field, lists
    unwrapped element by element, a record without the field counting as
    null. *)
Definition observed (field : string) (record : Dict) : list Value :=
  match dict_get field record with
  | Some (VList items) => items
  | Some v => [v]
  | None => [VNone]
  end.

Definition count_class (t : DataType) (classes : list (option DataType)) : nat :=
  List.length (filter (fun c => match c with
                                | Some t' => DataType_eqb t t'
                                | None => false
                                end) classes).

(** Modelled from the spec: the specificity order that breaks ties. *)
Definition specificity : list DataType :=
  [TInteger; TFloat; TDate; TBoolean; TString; TObject; TArray].

(** Modelled from the spec: the majority class, the first in specificity
    order among the most frequent. *)
Definition majority (classes : list (option DataType)) : DataType * nat :=
  fold_left (fun best t =>
               if Nat.ltb (snd best) (count_class t classes)
               then (t, count_class t classes) else best)
            specificity (TNull, 0).

(** Modelled from the spec: the content a hash is computed from, the
    (field, type, bucketed confidence) triples of a schema in the order
    of its fields. *)
Definition content (fields : Fields) : list (string * DataType * nat) :=
  map (fun kf => (fst kf, inferred (snd kf), bucket (snd kf))) fields.

(** Modelled from the spec: whether two triples are the same. *)
Definition triple_eqb (a b : string * DataType * nat) : bool :=
  String.eqb (fst (fst a)) (fst (fst b))
  && DataType_eqb (snd (fst a)) (snd (fst b))
  && Nat.eqb (snd a) (snd b).

(** Modelled from the spec: whether two contents are the same, triple by
    triple; a hash shared by two contents that differ is a collision. *)
Fixpoint same_content (a b : list (string * DataType * nat)) : bool :=
  match a, b with
  | [], [] => true
  | x :: a', y :: b' => triple_eqb x y && same_content a' b'
  | _, _ => false
  end.

(** Modelled from the spec: the update of the current pointer of a
    source; history, index and allocator are left as they are. *)
Definition point (st : SchemaStore) (source : string) (v : SchemaVersion)
    : SchemaStore :=
  {| schema_versions := schema_versions st;
     hash_index := hash_index st;
     current := assign source v (current st);
     next_id := next_id st |}.

Section Inference.

(** What the specification leaves open: how many sample values a
    FieldSchema keeps and the digest behind the content hash. *)
Variable sample_limit : nat.
Variable digest : list (string * DataType * nat) -> string.

Definition is_null (v : Value) : bool :=
  match v with VNone => true | _ => false end.

(** Modelled from the spec: the FieldSchema of the values observed for a
    field: the majority class and how many values have it, the number of
    values that are not null, whether any is null. *)
Definition infer_field (values : list Value) : FieldSchema :=
  let classes := map classify values in
  let present := filter (fun v => negb (is_null v)) values in
  let best := majority classes in
  {| inferred := fst best;
     matching := snd best;
     non_null := List.length present;
     nullable := existsb is_null values;
     samples := firstn sample_limit present |}.

Fixpoint insert_sorted (k : string) (l : list string) : list string :=
  match l with
  | [] => [k]
  | k' :: t =>
      if String.eqb k k' then l
      else if String.ltb k k' then k :: l
      else k' :: insert_sorted k t
  end.

(** Modelled from the spec: the field names of a batch, sorted, each once. *)
Definition field_names (records : list Dict) : list string :=
  fold_left (fun names record =>
               fold_left (fun names kv => insert_sorted (fst kv) names) record names)
            records [].

(** Modelled from the spec: the candidate schema, a sorted map from field
    to FieldSchema. *)
Definition build_schema (records : list Dict) : Fields :=
  map (fun field => (field, infer_field (flat_map (observed field) records)))
      (field_names records).

(** Modelled from the spec: the hash over the sorted (field, type,
    bucketed confidence) triples. *)
Definition schema_hash (fields : Fields) : string :=
  digest (content fields).

(** *** Section 4.5, the snapshot builder and the version store *)

(** Modelled from the spec: the change of one field of the candidate: an
    addition, a change of type, or a change of the confidence bucket. *)
Definition diff_field (old : Fields) (kf : string * FieldSchema) : list Change :=
  match lookup (fst kf) old with
  | None => [field_added (fst kf) (inferred (snd kf))]
  | Some f =>
      if negb (DataType_eqb (inferred f) (inferred (snd kf)))
      then [type_changed (fst kf) (inferred f) (inferred (snd kf))]
      else if negb (Nat.eqb (bucket f) (bucket (snd kf)))
      then [confidence_changed (fst kf) (bucket f) (bucket (snd kf))]
      else []
  end.

(** Modelled from the spec: the removal of a field the candidate lacks. *)
Definition removed_field (new : Fields) (kf : string * FieldSchema) : list Change :=
  match lookup (fst kf) new with
  | None => [field_removed (fst kf) (inferred (snd kf))]
  | Some _ => []
  end.

(** Modelled from the spec: the field-by-field diff against the prior
    current version. *)
Definition diff (old new : Fields) : list Change :=
  (flat_map (diff_field old) new ++ flat_map (removed_field new) old)%list.

(** Modelled from the spec: what a candidate is compared with, the
    current version of the source or, for its first snapshot, nothing. *)
Definition baseline (st : SchemaStore) (source : string) : Fields :=
  match lookup source (current st) with
  | Some v => schema v
  | None => []
  end.

(** Modelled from the spec: whether a hash is that of the current version
    of the source. *)
Definition is_current (st : SchemaStore) (source h : string) : bool :=
  match lookup source (current st) with
  | Some v => String.eqb (hash v) h
  | None => false
  end.

(** Modelled from the spec: a new version.  The next id is allocated, the
    version joins the history and the index and becomes the current one
    of its source. *)
Definition mint (st : SchemaStore) (source now : string) (candidate : Fields)
    : SchemaStore * SchemaVersion :=
  let v := {| version := string_of_nat (next_id st);
              timestamp := now;
              hash := schema_hash candidate;
              schema := candidate;
              changes := diff (baseline st source) candidate;
              source_id := source |} in
  ({| schema_versions := (schema_versions st ++ [(version v, v)])%list;
      hash_index := assign (hash v) (version v) (hash_index st);
      current := assign source v (current st);
      next_id := S (next_id st) |}, v).

(** Modelled from the spec: [SchemaInferenceEngine.infer_schema(records,
    source_id)] of the missing [engine.py], after sections 2, 3, 4.5, 5
    and 7.  The result is the store after the call, the active
    SchemaVersion and the Change list of the call; an empty batch is an
    InvalidSourceBatch.

    The candidate's hash is looked up in the index.  A hash the history
    does not hold makes a new version.  A hash it holds never does: the
    existing version is reused, whichever call made it.  When the hash is
    that of the current version of the source the call is a no-op with an
    empty Change list; otherwise the candidate is diffed against the
    prior current version of the source and the current pointer is moved,
    as for a new version, but nothing is allocated or appended.  An
    indexed version whose content is not the candidate's is a hash
    collision, an InternalInvariantViolation, as is an index entry
    without its version. *)
Definition infer_schema (st : SchemaStore) (records : list Dict) (source now : string)
    : Result (SchemaStore * SchemaVersion * list Change) :=
  match records with
  | [] => Raise "InvalidSourceBatch"
  | _ =>
      let candidate := build_schema records in
      match lookup (schema_hash candidate) (hash_index st) with
      | None =>
          let (st', v') := mint st source now candidate in
          Ok (st', v', changes v')
      | Some id =>
          match lookup id (schema_versions st) with
          | None => Raise "InternalInvariantViolation"
          | Some v =>
              if negb (same_content (content (schema v)) (content candidate))
              then Raise "InternalInvariantViolation"
              else if is_current st source (schema_hash candidate)
              then Ok (st, v, [])
              else Ok (point st source v, v, diff (baseline st source) candidate)
          end
      end
  end.

(** Modelled from the spec: [SchemaInferenceEngine.export_schema(version_id)]
    of the missing [engine.py], after section 6: the exported structure,
    or SchemaVersionNotFound. *)
Record Export : Type := {
  e_version : string;
  e_timestamp : string;
  e_hash : string;
  e_fields : Fields;
  e_changes : list Change
}.

Definition export_schema (st : SchemaStore) (version_id : string) : Result Export :=
  match lookup version_id (schema_versions st) with
  | Some v =>
      Ok {| e_version := version v; e_timestamp := timestamp v; e_hash := hash v;
            e_fields := schema v; e_changes := changes v |}
  | None => Raise "SchemaVersionNotFound"
  end.

End Inference.

End Engine.

(** ** [main.py]: the schema export endpoint *)

Module Main.

(** What a handler can raise: FastAPI's [HTTPException] or anything else. *)
Inductive Exception : Type :=
| HTTPException (status_code : nat) (detail : string)
| Error (msg : string).

Section Endpoint.

(** The engine of [main.py] as the handler sees it: the keys of
    [schema_engine.schema_versions] and [schema_engine.export_schema]. *)
Variable A : Type.
Variable schema_versions : list string.
Variable engine_export_schema : string -> Result A.

(** [str(e)] of an [HTTPException], which depends on the Starlette release. *)
Variable http_str : nat -> string -> string.

Definition str (e : Exception) : string :=
  match e with
  | HTTPException status_code detail => http_str status_code detail
  | Error msg => msg
  end.

(** The body of the [try] statement of [export_schema]. *)
Definition export_body (version_id : string) : Exception + A :=
  if negb (Str.mem version_id schema_versions) then
    inl (HTTPException 404 ("Schema version " ++ version_id ++ " not found"))
  else
    match engine_export_schema version_id with
    | Ok schema_export => inr schema_export
    | Raise msg => inl (Error msg)
    end.

(** [export_schema]: [except Exception as e] catches whatever the body
    raised, the [HTTPException] of the body included. *)
Definition export_schema (version_id : string) : Exception + A :=
  match export_body version_id with
  | inr schema_export => inr schema_export
  | inl e => inl (HTTPException 500 ("Failed to export schema: " ++ str e))
  end.

End Endpoint.

End Main.

(** ** [src/etl/pipeline.py]

    The records of the pipeline are the values of the parser: JSON-like
    data with text keys.  [json.dumps] and pandas are parameters, like
    the libraries of the parser. *)

Module Pipeline.
Import Str.

(** [len(v)] and [for x in v], which a handler applies to whatever a
    request or an uploaded file decodes to. *)
Definition len (v : Value) : Result nat :=
  match v with
  | VStr s => Ok (String.length s)
  | VList items => Ok (List.length items)
  | VDict entries => Ok (List.length entries)
  | _ => Raise ("object of type '" ++ type_name v ++ "' has no len()")
  end.

Fixpoint chars (s : string) : list Value :=
  match s with
  | EmptyString => []
  | String c s' => VStr (str1 c) :: chars s'
  end.

Definition iter (v : Value) : Result (list Value) :=
  match v with
  | VStr s => Ok (chars s)
  | VList items => Ok items
  | VDict entries => Ok (map (fun kv => VStr (fst kv)) entries)
  | _ => Raise ("'" ++ type_name v ++ "' object is not iterable")
  end.

(** *** [DataTransformer] *)

(** [''.join(c for c in s if p(c))] *)
Fixpoint keep_chars (p : ascii -> bool) (s : string) : string :=
  match s with
  | EmptyString => EmptyString
  | String c s' => if p c then String c (keep_chars p s') else keep_chars p s'
  end.

(** The two statements that clean a key name. *)
Definition clean_key (key : string) : string :=
  let clean_key := replace_char "-" "_" (replace_char " " "_" (strip key)) in
  keep_chars (fun c => isalnum c || Ascii.eqb c "_") clean_key.

(** The [isinstance] chain that [clean_data], [clean_nested_dict] and
    [clean_list] apply to a value: a text is stripped, a dict goes to
    [clean_nested_dict], a list to [clean_list], anything else is kept. *)
Fixpoint clean_value (value : Value) : Value :=
  match value with
  | VStr s => VStr (strip s)
  | VDict data =>
      VDict (fold_left (fun cleaned kv =>
                          dict_set (clean_key (fst kv)) (clean_value (snd kv)) cleaned)
                       data [])
  | VList data => VList (map clean_value data)
  | _ => value
  end.

Definition clean_nested_dict (data : Dict) : Dict :=
  fold_left (fun cleaned kv =>
               dict_set (clean_key (fst kv)) (clean_value (snd kv)) cleaned)
            data [].

Definition clean_list (data : list Value) : list Value := map clean_value data.

(** One turn of the loop of [clean_data]: [record.items()] is an
    [AttributeError] unless the record is a dict; the loop body is that of
    [clean_nested_dict]. *)
Definition clean_record (record : Value) : Result Dict :=
  match record with
  | VDict entries => Ok (clean_nested_dict entries)
  | _ => Raise ("'" ++ type_name record ++ "' object has no attribute 'items'")
  end.

Fixpoint clean_records (records : list Value) (cleaned_data : list Dict)
    : Result (list Dict) :=
  match records with
  | [] => Ok cleaned_data
  | record :: t =>
      cleaned_record <- clean_record record ;;
      clean_records t (cleaned_data ++ [cleaned_record])%list
  end.

Definition clean_data (data : Value) : Result (list Dict) :=
  records <- iter data ;;
  clean_records records [].

(** *** [DataLoader] *)

Section Loader.

(** [json.dumps] of a list value. *)
Variable json_dumps : Value -> string.

(** [f"{parent_key}{separator}{key}" if parent_key else key] *)
Definition new_key (parent_key separator key : string) : string :=
  match parent_key with
  | EmptyString => key
  | _ => parent_key ++ separator ++ key
  end.

(** [dict(items)] *)
Definition dict (items : list (string * Value)) : Dict := Parser.assign_all items [].

(** The items one entry of the dict adds in [_flatten_dict]: those of the
    flattened dict it holds, the JSON text of a list, or the entry
    itself. *)
Fixpoint flatten_entry (separator new_key_ : string) (value : Value)
    : list (string * Value) :=
  match value with
  | VDict data =>
      dict (flat_map (fun kv =>
                        flatten_entry separator (new_key new_key_ separator (fst kv))
                                      (snd kv))
                     data)
  | VList items =>
      [(new_key_, VStr (match items with [] => "[]" | _ => json_dumps value end))]
  | _ => [(new_key_, value)]
  end.

Definition _flatten_dict (data : Dict) (parent_key separator : string) : Dict :=
  dict (flat_map (fun kv =>
                    flatten_entry separator (new_key parent_key separator (fst kv))
                                  (snd kv))
                 data).

(** [DataLoader.to_json], [to_csv] and [to_parquet]: [json.dumps(data,
    indent=2, default=str)] and the two writers of a pandas [DataFrame]
    are parameters; each may raise. *)
Variable dumps_indent : list Dict -> Result string.
Variable frame_to_csv : list Dict -> Result string.
Variable frame_to_parquet : list Dict -> Result string.

(** What a loader returns: a text, or the bytes of a Parquet file. *)
Inductive Output : Type :=
| Text (s : string)
| Bytes (b : string).

Definition to_json (data : list Dict) : Result Output :=
  s <- dumps_indent data ;; Ok (Text s).

Definition to_csv (data : list Dict) : Result Output :=
  match data with
  | [] => Ok (Text EmptyString)
  | _ =>
      let flattened_data := map (fun record => _flatten_dict record EmptyString "_") data in
      s <- frame_to_csv flattened_data ;; Ok (Text s)
  end.

Definition to_parquet (data : list Dict) : Result Output :=
  match data with
  | [] => Ok (Bytes EmptyString)
  | _ =>
      let flattened_data := map (fun record => _flatten_dict record EmptyString "_") data in
      b <- frame_to_parquet flattened_data ;; Ok (Bytes b)
  end.

End Loader.

(** *** [DataTransformer.apply_transformations]

    The rules are whatever JSON object the request carried.  Python's own
    conversions and comparisons are parameters.  One case leaves the
    model: a field renamed to a name that is hashable but no text (a
    number, a boolean, [None]) would give the record a key that is no
    text; the outcome is then [Beyond], of which nothing is stated. *)

Inductive Outcome (A : Type) : Type :=
| Returns (a : A)
| Raises (e : string)
| Beyond.
Arguments Returns {A} a.
Arguments Raises {A} e.
Arguments Beyond {A}.

Definition lift {A : Type} (x : Result A) : Outcome A :=
  match x with
  | Ok a => Returns a
  | Raise e => Raises e
  end.

Definition and_then {A B : Type} (x : Outcome A) (f : A -> Outcome B) : Outcome B :=
  match x with
  | Returns a => f a
  | Raises e => Raises e
  | Beyond => Beyond
  end.

(** The result of a conversion inside [try: ... except (ValueError,
    TypeError)]: the value, an exception the handler catches, or another
    exception (an [OverflowError]). *)
Inductive Conv : Type :=
| Converted (v : Value)
| Caught (e : string)
| Uncaught (e : string).

Record Builtins : Type := {
  int_float : Value -> Conv;             (* int(float(x)) *)
  float_ : Value -> Conv;                (* float(x) *)
  str_ : Value -> Conv;                  (* str(x) *)
  bool_ : Value -> bool;                 (* bool(x) *)
  eq : Value -> Value -> bool;           (* x == y *)
  gt : Value -> Value -> Result bool;    (* x > y, x an int or a float *)
  lt : Value -> Value -> Result bool     (* x < y, x an int or a float *)
}.

Section Transformations.

Variable py : Builtins.

(** [v.items()] and [v.get(k, default)] *)
Definition items (v : Value) : Result Dict :=
  match v with
  | VDict entries => Ok entries
  | _ => Raise ("'" ++ type_name v ++ "' object has no attribute 'items'")
  end.

Definition get (v : Value) (k : string) (default : Value) : Result Value :=
  match v with
  | VDict entries =>
      Ok match dict_get k entries with Some x => x | None => default end
  | _ => Raise ("'" ++ type_name v ++ "' object has no attribute 'get'")
  end.

(** [d.pop(k)] for a key that is there: the dict without the key. *)
Fixpoint dict_pop (k : string) (d : Dict) : Dict :=
  match d with
  | [] => []
  | (k', v) :: t => if String.eqb k k' then t else (k', v) :: dict_pop k t
  end.

(** [v == s] for a text [s] *)
Definition is_str (v : Value) (s : string) : bool :=
  match v with
  | VStr t => String.eqb t s
  | _ => false
  end.

(** One turn of the loop over [rules['field_mappings'].items()]. *)
Definition rename (record : Dict) (mapping : string * Value) : Outcome Dict :=
  match dict_get (fst mapping) record with
  | None => Returns record
  | Some value =>
      match snd mapping with
      | VStr new_field => Returns (dict_set new_field value (dict_pop (fst mapping) record))
      | VList _ | VDict _ =>
          Raises ("unhashable type: '" ++ type_name (snd mapping) ++ "'")
      | _ => Beyond
      end
  end.

Fixpoint renames (record : Dict) (mappings : Dict) : Outcome Dict :=
  match mappings with
  | [] => Returns record
  | mapping :: t => and_then (rename record mapping) (fun record' => renames record' t)
  end.

(** What [transformed_record[field] = ...] does with a conversion. *)
Definition assign_converted (record : Dict) (field : string) (c : Conv) : Result Dict :=
  match c with
  | Converted v => Ok (dict_set field v record)
  | Caught _ => Ok record
  | Uncaught e => Raise e
  end.

(** One turn of the loop over [rules['type_conversions'].items()]. *)
Definition convert (record : Dict) (conversion : string * Value) : Result Dict :=
  match dict_get (fst conversion) record with
  | None => Ok record
  | Some x =>
      let field := fst conversion in
      let target_type := snd conversion in
      if is_str target_type "int" then assign_converted record field (int_float py x)
      else if is_str target_type "float" then assign_converted record field (float_ py x)
      else if is_str target_type "str" then assign_converted record field (str_ py x)
      else if is_str target_type "bool" then Ok (dict_set field (VBool (bool_ py x)) record)
      else Ok record
  end.

Fixpoint converts (record : Dict) (conversions : Dict) : Result Dict :=
  match conversions with
  | [] => Ok record
  | conversion :: t => record' <- convert record conversion ;; converts record' t
  end.

(** [field in transformed_record], with the value when it is there. *)
Definition lookup_field (record : Dict) (field : Value) : Result (option Value) :=
  match field with
  | VStr k => Ok (dict_get k record)
  | VList _ | VDict _ => Raise ("unhashable type: '" ++ type_name field ++ "'")
  | _ => Ok None
  end.

(** [isinstance(v, (int, float))]; a [bool] is an [int]. *)
Definition is_number (v : Value) : bool :=
  match v with
  | VInt _ | VFloat _ | VBool _ => true
  | _ => false
  end.

(** One turn of the loop over [rules['filters']]: whether the loop goes
    on ([true]) or sets [include_record = False] and breaks. *)
Definition passes (record : Dict) (filter_rule : Value) : Result bool :=
  field <- get filter_rule "field" VNone ;;
  operator <- get filter_rule "operator" (VStr "==") ;;
  value <- get filter_rule "value" VNone ;;
  present <- lookup_field record field ;;
  match present with
  | None => Ok true
  | Some record_value =>
      if is_str operator "==" && negb (eq py record_value value) then Ok false
      else if is_str operator "!=" && eq py record_value value then Ok false
      else if is_str operator ">" then
        if is_number record_value
        then above <- gt py record_value value ;; Ok above
        else Ok false
      else if is_str operator "<" then
        if is_number record_value
        then below <- lt py record_value value ;; Ok below
        else Ok false
      else Ok true
  end.

Fixpoint include_record (record : Dict) (filter_rules : list Value) : Result bool :=
  match filter_rules with
  | [] => Ok true
  | filter_rule :: t =>
      ok <- passes record filter_rule ;;
      if ok then include_record record t else Ok false
  end.

(** The body of the loop over [data]: the records to append, one or none. *)
Definition transform_record (rules : Dict) (record : Dict) : Outcome (list Dict) :=
  and_then
    match dict_get "field_mappings" rules with
    | Some mappings => and_then (lift (items mappings)) (renames record)
    | None => Returns record
    end
    (fun transformed_record =>
       and_then
         (lift match dict_get "type_conversions" rules with
               | Some conversions =>
                   entries <- items conversions ;; converts transformed_record entries
               | None => Ok transformed_record
               end)
         (fun transformed_record =>
            match dict_get "filters" rules with
            | Some filters =>
                lift (filter_rules <- iter filters ;;
                      keep <- include_record transformed_record filter_rules ;;
                      Ok (if keep then [transformed_record] else []))
            | None => Returns [transformed_record]
            end)).

Fixpoint transform_records (rules : Dict) (data transformed_data : list Dict)
    : Outcome (list Dict) :=
  match data with
  | [] => Returns transformed_data
  | record :: t =>
      and_then (transform_record rules record)
        (fun added => transform_records rules t (transformed_data ++ added)%list)
  end.

Definition apply_transformations (data : list Dict) (rules : Dict) : Outcome (list Dict) :=
  match rules with
  | [] => Returns data
  | _ => transform_records rules data []
  end.

End Transformations.

(** *** [ETLPipeline]

    What the pipeline calls outside itself: Python's conversions and the
    writers of [json] and pandas, and the schema engine.  Of the engine,
    which is not among the sources, only the interface is used: its state,
    the version object [infer_schema] returns with its [version] field,
    and the two methods, either of which may raise and may change the
    state.  [uuid.uuid4()] and the readings of [datetime.utcnow()] come
    with each call. *)

Record Libraries : Type := {
  builtins : Builtins;
  json_dumps : Value -> string;                    (* json.dumps(value) *)
  dumps_indent : list Dict -> Result string;       (* json.dumps(data, indent=2, default=str) *)
  frame_to_csv : list Dict -> Result string;       (* pd.DataFrame(rows).to_csv(index=False) *)
  frame_to_parquet : list Dict -> Result string    (* pd.DataFrame(rows).to_parquet(index=False) *)
}.

Record SchemaEngine (Engine SchemaVersion Info : Type) : Type := {
  version : SchemaVersion -> string;
  infer_schema : Engine -> list Dict -> string -> Engine * Result SchemaVersion;
  export_schema : Engine -> string -> Engine * Result Info
}.
Arguments version {Engine SchemaVersion Info} s _.
Arguments infer_schema {Engine SchemaVersion Info} s _ _ _.
Arguments export_schema {Engine SchemaVersion Info} s _ _.

Section ETL.

Variable lib : Libraries.
Variable Engine : Type.
Variable SchemaVersion : Type.
Variable Info : Type.
Variable Time : Type.
Variable engine_ : SchemaEngine Engine SchemaVersion Info.

Record ETLJob : Type := {
  job_id : string;
  source_id : string;
  status : string;
  created_at : Time;
  completed_at : option Time;
  records_count : nat;
  schema_version : string;
  target_format : string;
  error_message : option string
}.

Record Statistics : Type := {
  total_jobs : nat;
  successful_jobs : nat;
  failed_jobs : nat;
  total_records_processed : nat
}.

Record ETLPipeline : Type := {
  schema_engine : Engine;
  jobs : list (string * ETLJob);
  statistics : Statistics
}.

(** [ETLPipeline(schema_engine)] *)
Definition init (engine : Engine) : ETLPipeline :=
  {| schema_engine := engine;
     jobs := [];
     statistics := {| total_jobs := 0; successful_jobs := 0; failed_jobs := 0;
                      total_records_processed := 0 |} |}.

(** [self.jobs[job_id] = job] *)
Fixpoint set_job (id : string) (job : ETLJob) (l : list (string * ETLJob))
    : list (string * ETLJob) :=
  match l with
  | [] => [(id, job)]
  | (id', job') :: t =>
      if String.eqb id id' then (id', job) :: t else (id', job') :: set_job id job t
  end.

Fixpoint find_job (id : string) (l : list (string * ETLJob)) : option ETLJob :=
  match l with
  | [] => None
  | (id', job) :: t => if String.eqb id id' then Some job else find_job id t
  end.

(** The dict [process_async] returns. *)
Record JobResult : Type := {
  r_job_id : string;
  r_status : string;
  r_message : string;
  r_schema_version : string;
  r_processed_records : nat;
  r_output_data : option Output;
  r_schema_info : option Info;
  r_error : option string
}.

(** Step 4, the loader for the target format. *)
Definition load (transformed_data : list Dict) (target_format : string) : Result Output :=
  if String.eqb target_format "json" then to_json (dumps_indent lib) transformed_data
  else if String.eqb target_format "csv"
  then to_csv (json_dumps lib) (frame_to_csv lib) transformed_data
  else if String.eqb target_format "parquet"
  then to_parquet (json_dumps lib) (frame_to_parquet lib) transformed_data
  else Raise ("Unsupported target format: " ++ target_format).

(** How far the [try] block got when it raised: the engine as it was
    left, the job as it was left, and the statistics. *)
Record Progress : Type := {
  at_engine : Engine;
  at_job : ETLJob;
  at_statistics : Statistics
}.

Definition with_version (job : ETLJob) (v : string) : ETLJob :=
  {| job_id := job_id job; source_id := source_id job; status := status job;
     created_at := created_at job; completed_at := completed_at job;
     records_count := records_count job; schema_version := v;
     target_format := target_format job; error_message := error_message job |}.

Definition completed (job : ETLJob) (now : Time) : ETLJob :=
  {| job_id := job_id job; source_id := source_id job; status := "completed";
     created_at := created_at job; completed_at := Some now;
     records_count := records_count job; schema_version := schema_version job;
     target_format := target_format job; error_message := error_message job |}.

Definition failed (job : ETLJob) (now : Time) (e : string) : ETLJob :=
  {| job_id := job_id job; source_id := source_id job; status := "failed";
     created_at := created_at job; completed_at := Some now;
     records_count := records_count job; schema_version := schema_version job;
     target_format := target_format job; error_message := Some e |}.

Definition count_success (s : Statistics) (processed : nat) : Statistics :=
  {| total_jobs := total_jobs s + 1;
     successful_jobs := successful_jobs s + 1;
     failed_jobs := failed_jobs s;
     total_records_processed := total_records_processed s + processed |}.

Definition count_failure (s : Statistics) : Statistics :=
  {| total_jobs := total_jobs s + 1;
     successful_jobs := successful_jobs s;
     failed_jobs := failed_jobs s + 1;
     total_records_processed := total_records_processed s |}.

(** The [except Exception as e] block. *)
Definition handler (self : ETLPipeline) (at_ : Progress) (now : Time) (e : string)
    : ETLPipeline * JobResult :=
  let job := failed (at_job at_) now e in
  ({| schema_engine := at_engine at_;
      jobs := set_job (job_id job) job (jobs self);
      statistics := count_failure (at_statistics at_) |},
   {| r_job_id := job_id job;
      r_status := "failed";
      r_message := "ETL job failed: " ++ e;
      r_schema_version := EmptyString;
      r_processed_records := 0;
      r_output_data := None;
      r_schema_info := None;
      r_error := Some e |}).

(** [process_async].  [uuid4] is the id drawn for the job; [created] is
    the reading of the clock when the job is made, [finished] the next
    reading (at completion, or in the handler when the block raised
    before), and [refailed] the reading in the handler when the block
    raised after completion.  The call itself raises only from
    [len(data)], before the [try]. *)
Definition process_async (self : ETLPipeline) (uuid4 : string)
    (created finished refailed : Time) (data : Value)
    (source_id_ target_format_ : string) (transformation_rules : option Dict)
    : Outcome (ETLPipeline * JobResult) :=
  and_then (lift (len data)) (fun n =>
  let job :=
    {| job_id := uuid4; source_id := source_id_; status := "processing";
       created_at := created; completed_at := None; records_count := n;
       schema_version := EmptyString; target_format := target_format_;
       error_message := None |} in
  let self := {| schema_engine := schema_engine self;
                 jobs := set_job uuid4 job (jobs self);
                 statistics := statistics self |} in
  let start := {| at_engine := schema_engine self; at_job := job;
                  at_statistics := statistics self |} in
  (* Step 1 *)
  match clean_data data with
  | Raise e => Returns (handler self start finished e)
  | Ok cleaned_data =>
  (* Step 2 *)
  match infer_schema engine_ (schema_engine self) cleaned_data source_id_ with
  | (engine, Raise e) =>
      Returns (handler self {| at_engine := engine; at_job := job;
                               at_statistics := statistics self |} finished e)
  | (engine, Ok schema_version_) =>
  let job := with_version job (version engine_ schema_version_) in
  let inferred := {| at_engine := engine; at_job := job;
                     at_statistics := statistics self |} in
  (* Step 3 *)
  match match transformation_rules with
        | Some ((_ :: _) as rules) => apply_transformations (builtins lib) cleaned_data rules
        | _ => Returns cleaned_data
        end with
  | Beyond => Beyond
  | Raises e => Returns (handler self inferred finished e)
  | Returns transformed_data =>
  (* Step 4 *)
  match load transformed_data target_format_ with
  | Raise e => Returns (handler self inferred finished e)
  | Ok output_data =>
  let job := completed job finished in
  let statistics_ := count_success (statistics self) (List.length transformed_data) in
  match export_schema engine_ engine (version engine_ schema_version_) with
  | (engine', Raise e) =>
      Returns (handler self {| at_engine := engine'; at_job := job;
                               at_statistics := statistics_ |} refailed e)
  | (engine', Ok schema_info) =>
      Returns
        ({| schema_engine := engine';
            jobs := set_job uuid4 job (jobs self);
            statistics := statistics_ |},
         {| r_job_id := uuid4;
            r_status := "completed";
            r_message := "Successfully processed "
                         ++ string_of_nat (List.length transformed_data) ++ " records";
            r_schema_version := version engine_ schema_version_;
            r_processed_records := List.length transformed_data;
            r_output_data := Some output_data;
            r_schema_info := Some schema_info;
            r_error := None |})
  end end end end end).

(** [get_job_status]: the fields of the job, [None] for an unknown id. *)
Definition get_job_status (self : ETLPipeline) (id : string) : option ETLJob :=
  find_job id (jobs self).

(** What [get_statistics] adds to the counters: the jobs still
    [processing] and the jobs tracked. *)
Definition active_jobs (self : ETLPipeline) : nat :=
  List.length (filter (fun ij => String.eqb (status (snd ij)) "processing") (jobs self)).

Definition total_jobs_tracked (self : ETLPipeline) : nat := List.length (jobs self).

End ETL.

Arguments job_id {Time} e.
Arguments source_id {Time} e.
Arguments status {Time} e.
Arguments created_at {Time} e.
Arguments completed_at {Time} e.
Arguments records_count {Time} e.
Arguments schema_version {Time} e.
Arguments target_format {Time} e.
Arguments error_message {Time} e.
Arguments schema_engine {Engine Time} e.
Arguments jobs {Engine Time} e.
Arguments statistics {Engine Time} e.
Arguments r_job_id {Info} j.
Arguments r_status {Info} j.
Arguments r_message {Info} j.
Arguments r_schema_version {Info} j.
Arguments r_processed_records {Info} j.
Arguments r_output_data {Info} j.
Arguments r_schema_info {Info} j.
Arguments r_error {Info} j.
Arguments get_job_status {Engine Time} self id.
Arguments active_jobs {Engine Time} self.
Arguments total_jobs_tracked {Engine Time} self.
Arguments find_job {Time} id l.
Arguments set_job {Time} id job l.
Arguments at_engine {Engine Time} p.
Arguments at_job {Engine Time} p.
Arguments at_statistics {Engine Time} p.
Arguments with_version {Time} job v.
Arguments completed {Time} job now.
Arguments failed {Time} job now e.
Arguments handler {Engine Info Time} self at_ now e.
Arguments process_async lib {Engine SchemaVersion Info Time} engine_ self uuid4
  created finished refailed data source_id_ target_format_ transformation_rules.

End Pipeline.

(** ** [main.py]: the ETL endpoints

    [upload_file] and [process_etl_job] over the pipeline above.  The
    handlers share one pipeline; a handler's result is the pipeline as it
    leaves it and what the client gets. *)

Module Api.
Import Str Pipeline.

(** What the client gets: the returned value, or the exception the
    handler raised. *)
Inductive Reply (A : Type) : Type :=
| Responds (a : A)
| Fails (e : Main.Exception).
Arguments Responds {A} a.
Arguments Fails {A} e.

(** [s.endswith(suffix)] *)
Definition endswith (suffix s : string) : bool :=
  Nat.leb (String.length suffix) (String.length s)
  && String.eqb (substring (String.length s - String.length suffix)
                           (String.length suffix) s) suffix.

Section Endpoints.

Variable rt : Runtime.
Variable lib : Libraries.
Variable Engine : Type.
Variable SchemaVersion : Type.
Variable Info : Type.
Variable Time : Type.
Variable engine_ : SchemaEngine Engine SchemaVersion Info.

(** The uploaded bytes and [content.decode('utf-8')]; the records of
    [pd.read_csv(...).to_dict('records')]; [str(e)] of an
    [HTTPException]. *)
Variable Content : Type.
Variable decode : Content -> Result string.
Variable read_csv_records : string -> Result (list Dict).
Variable http_str : nat -> string -> string.

(** The body of [upload_file] down to the call of the pipeline: the data
    read from the file, or what was raised. *)
Definition read_upload (filename : string) (content : Content)
    : Main.Exception + Value :=
  if endswith ".json" filename then
    match decode content with
    | Raise e => inl (Main.Error e)
    | Ok text =>
        match json_loads rt text with
        | Decoded (VDict entries) => inr (VList [VDict entries])
        | Decoded data => inr data
        | DecodeError e => inl (Main.Error e)
        | Crash e => inl (Main.Error e)
        end
    end
  else if endswith ".csv" filename then
    match decode content with
    | Raise e => inl (Main.Error e)
    | Ok text =>
        match read_csv_records text with
        | Raise e => inl (Main.Error e)
        | Ok records => inr (VList (map VDict records))
        end
    end
  else if endswith ".txt" filename then
    match decode content with
    | Raise e => inl (Main.Error e)
    | Ok text_content =>
        inr (VList (map VDict (Parser.parse_file rt text_content filename)))
    end
  else inl (Main.HTTPException 400 "Unsupported file format. Use JSON, CSV, or TXT.").

Record UploadResponse : Type := {
  u_filename : string;
  u_records_processed : nat;
  u_job_result : JobResult Info
}.

(** [except Exception as e] of [upload_file] *)
Definition upload_failed (e : Main.Exception) : Main.Exception :=
  Main.HTTPException 500 ("File upload processing failed: " ++ Main.str http_str e).

(** [upload_file]; [file.filename] is a text.  The result is [None] when
    the pipeline leaves the model, which it does not without
    transformation rules. *)
Definition upload_file (self : ETLPipeline Engine Time) (uuid4 : string)
    (created finished refailed : Time) (filename : string) (content : Content)
    (source_id : string) : option (ETLPipeline Engine Time * Reply UploadResponse) :=
  match read_upload filename content with
  | inl e => Some (self, Fails (upload_failed e))
  | inr data =>
      match process_async lib engine_ self uuid4 created finished refailed
              data source_id "json" None with
      | Beyond => None
      | Raises e => Some (self, Fails (upload_failed (Main.Error e)))
      | Returns (self', result) =>
          match len data with
          | Ok n =>
              Some (self', Responds {| u_filename := filename;
                                       u_records_processed := n;
                                       u_job_result := result |})
          | Raise e => Some (self', Fails (upload_failed (Main.Error e)))
          end
      end
  end.

(** [ETLJobRequest] after validation, and [ETLJobResponse]. *)
Record ETLJobRequest : Type := {
  q_data : list Dict;
  q_source_id : string;
  q_target_format : string;
  q_transformation_rules : option Dict
}.

Record ETLJobResponse : Type := {
  p_job_id : string;
  p_status : string;
  p_message : string;
  p_schema_version : string;
  p_processed_records : nat;
  p_created_at : Time
}.

(** [process_etl_job]; [now] is the reading of the clock for
    [created_at]. *)
Definition process_etl_job (self : ETLPipeline Engine Time) (uuid4 : string)
    (created finished refailed now : Time) (job_request : ETLJobRequest)
    : option (ETLPipeline Engine Time * Reply ETLJobResponse) :=
  match process_async lib engine_ self uuid4 created finished refailed
          (VList (map VDict (q_data job_request))) (q_source_id job_request)
          (q_target_format job_request) (q_transformation_rules job_request) with
  | Beyond => None
  | Raises e =>
      Some (self, Fails (Main.HTTPException 500 ("ETL processing failed: " ++ e)))
  | Returns (self', result) =>
      Some (self', Responds {| p_job_id := r_job_id result;
                               p_status := r_status result;
                               p_message := r_message result;
                               p_schema_version := r_schema_version result;
                               p_processed_records := r_processed_records result;
                               p_created_at := now |})
  end.

End Endpoints.

Arguments u_filename {Info} u.
Arguments u_records_processed {Info} u.
Arguments u_job_result {Info} u.
Arguments p_job_id {Time} e.
Arguments p_status {Time} e.
Arguments p_message {Time} e.
Arguments p_schema_version {Time} e.
Arguments p_processed_records {Time} e.
Arguments p_created_at {Time} e.
Arguments read_upload rt {Content} decode read_csv_records filename content.
Arguments upload_file rt lib {Engine SchemaVersion Info Time} engine_ {Content}
  decode read_csv_records http_str self uuid4 created finished refailed
  filename content source_id.
Arguments process_etl_job lib {Engine SchemaVersion Info Time} engine_ self uuid4
  created finished refailed now job_request.

End Api.

(** ** Notions used in the statements *)

(** What one matched section adds to the result of [parse_file]: the
    records of its parser, or the one fallback record when the parser
    raised. *)
Definition contribution (rt : Runtime) (filename : string) (section : string * string)
    : list Dict :=
  match Parser._parse_section rt (fst section) (snd section) with
  | Ok section_data => section_data
  | Raise e => [Parser.fallback (fst section) (snd section) e filename]
  end.

(** The number of records a matched section accounts for. *)
Definition records_of_section (rt : Runtime) (section : string * string) : nat :=
  match Parser._parse_section rt (fst section) (snd section) with
  | Ok section_data => List.length section_data
  | Raise _ => 1
  end.

(** The same runtime at another reading of the clock. *)
Definition at_clock (rt : Runtime) (now : string) : Runtime :=
  {| HAS_PANDAS := HAS_PANDAS rt;
     HAS_BS4 := HAS_BS4 rt;
     HAS_YAML := HAS_YAML rt;
     json_loads := json_loads rt;
     read_csv_rows := read_csv_rows rt;
     BeautifulSoup := BeautifulSoup rt;
     yaml_safe_load := yaml_safe_load rt;
     now_isoformat := now |}.

(** Two runtimes with the same libraries: they may differ in the clock. *)
Definition same_libraries (a b : Runtime) : Prop :=
  HAS_PANDAS a = HAS_PANDAS b /\ HAS_BS4 a = HAS_BS4 b /\ HAS_YAML a = HAS_YAML b
  /\ json_loads a = json_loads b /\ read_csv_rows a = read_csv_rows b
  /\ BeautifulSoup a = BeautifulSoup b /\ yaml_safe_load a = yaml_safe_load b.

(** The texts a pattern can consume.  A lookahead and [$] consume
    nothing; what they require of the text that follows is not recorded. *)
Inductive lang : Re.regex -> string -> Prop :=
| lang_eps : lang Re.Eps EmptyString
| lang_cls (p : ascii -> bool) (c : ascii) :
    p c = true -> lang (Re.Cls p) (String c EmptyString)
| lang_cat (a b : Re.regex) (s t : string) :
    lang a s -> lang b t -> lang (Re.Cat a b) (s ++ t)
| lang_alt_l (a b : Re.regex) (s : string) : lang a s -> lang (Re.Alt a b) s
| lang_alt_r (a b : Re.regex) (s : string) : lang b s -> lang (Re.Alt a b) s
| lang_star_nil (r : Re.regex) : lang (Re.Star r) EmptyString
| lang_star_more (r : Re.regex) (s t : string) :
    lang r s -> lang (Re.Star r) t -> lang (Re.Star r) (s ++ t)
| lang_lazy_nil (r : Re.regex) : lang (Re.StarLazy r) EmptyString
| lang_lazy_more (r : Re.regex) (s t : string) :
    lang r s -> lang (Re.StarLazy r) t -> lang (Re.StarLazy r) (s ++ t)
| lang_grp (n : nat) (r : Re.regex) (s : string) : lang r s -> lang (Re.Grp n r) s
| lang_ahead (r : Re.regex) : lang (Re.Ahead r) EmptyString
| lang_dollar : lang Re.Dollar EmptyString.

(** The positions a match can reach from [i]: further on, at the distance
    that has been consumed. *)
Definition reach (i j : Re.cursor) : Prop :=
  Re.offset i <= Re.offset j
  /\ String.length (Re.rest j) + Re.offset j = String.length (Re.rest i) + Re.offset i.

(** A run of [r] from [i] that ends in [x]: it consumed a text of [r] and
    the continuation gave [x] at the position reached. *)
Definition consumed {A : Type} (r : Re.regex) (i : Re.cursor)
    (k : Re.cursor -> Re.groups -> option A) (x : A) : Prop :=
  exists s j g',
    lang r s /\ Re.rest i = s ++ Re.rest j
    /\ Re.offset j = Re.offset i + String.length s /\ k j g' = Some x.

(** The depth of braces at the end of a text entered at depth [d], and
    the greatest depth reached on the way. *)
Fixpoint depth_after (d : nat) (s : string) : nat :=
  match s with
  | EmptyString => d
  | String c s' =>
      if Ascii.eqb c "{" then depth_after (S d) s'
      else if Ascii.eqb c "}" then depth_after (d - 1) s'
      else depth_after d s'
  end.

Fixpoint deepest (d : nat) (s : string) : nat :=
  match s with
  | EmptyString => d
  | String c s' =>
      if Ascii.eqb c "{" then deepest (S d) s'
      else if Ascii.eqb c "}" then Nat.max d (deepest (d - 1) s')
      else deepest d s'
  end.

(** How deep the braces of a text nest. *)
Definition nesting (s : string) : nat := deepest 0 s.

(** The assignments [key] = [value] a line makes in [_parse_metadata],
    [_parse_repeated_fields] and [_parse_ambiguous_types]: one for a line
    that passes the guard, with the text before the first colon as key. *)
Definition metadata_writes (line : string) : list (string * string) :=
  if Parser.colon_line line then
    match Parser.key_value_of line with
    | Some kv => [kv]
    | None => []
    end
  else [].

Fixpoint tag_writes (i : nat) (parts : list string) : list (string * string) :=
  match parts with
  | [] => []
  | part :: t => ("tag_" ++ string_of_nat i, Str.strip part) :: tag_writes (S i) t
  end.

(** The assignments a line makes in [_parse_key_value], where a line
    without colon but with semicolons assigns [tag_0], [tag_1], ... *)
Definition key_value_writes (line : string) : list (string * string) :=
  if Parser.colon_line line then
    match Parser.key_value_of line with
    | Some kv => [kv]
    | None => []
    end
  else if Str.has_char ";" line && negb (Str.startswith "#" (Str.strip line)) then
    tag_writes 0 (Str.split ";" line)
  else [].

(** A run of assignments [d[key] = value]. *)
Definition apply_writes (writes : list (string * string)) (d : Dict) : Dict :=
  fold_left (fun d kv => dict_set (fst kv) (VStr (snd kv)) d) writes d.

(** A run of the [if key in fields] statement of [_parse_repeated_fields]. *)
Definition accumulate_writes (writes : list (string * string)) (d : Dict) : Dict :=
  fold_left (fun d kv => Parser.accumulate (fst kv) (snd kv) d) writes d.

(** The values assigned to [key], in order. *)
Definition written (key : string) (writes : list (string * string)) : list string :=
  map snd (filter (fun kv => String.eqb (fst kv) key) writes).

(** What repeated values accumulate to: nothing, the value, or the list of
    the values. *)
Definition collapse (values : list string) : option Value :=
  match values with
  | [] => None
  | [v] => Some (VStr v)
  | _ => Some (VStrs values)
  end.

(** ** Documents and runtimes used as examples *)

(** The versions of the history of a store, in order of creation. *)
Definition versions (st : Engine.SchemaStore) : list Engine.SchemaVersion :=
  map snd (Engine.schema_versions st).

(** A call of [infer_schema]: the batch, the source and the reading of
    the clock. *)
Definition Call : Type := list Dict * string * string.

(** The store a call leaves; a call that raises leaves it as it was. *)
Definition after_call (sample_limit : nat)
    (digest : list (string * Engine.DataType * nat) -> string)
    (st : Engine.SchemaStore) (call : Call) : Engine.SchemaStore :=
  match Engine.infer_schema sample_limit digest st
          (fst (fst call)) (snd (fst call)) (snd call) with
  | Ok (st', _, _) => st'
  | Raise _ => st
  end.

(** The store of a process after a sequence of calls. *)
Definition after (sample_limit : nat)
    (digest : list (string * Engine.DataType * nat) -> string)
    (calls : list Call) : Engine.SchemaStore :=
  fold_left (after_call sample_limit digest) calls Engine.empty_store.

(** What holds of the store of a process between calls: every version of
    the history is filed under its own id, an id the allocator has given
    out, and carries the hash of its schema; no id is used twice; the
    index holds exactly the versions of the history, each under its hash;
    and the current version of a source is a version of the history. *)
Definition consistent (digest : list (string * Engine.DataType * nat) -> string)
    (st : Engine.SchemaStore) : Prop :=
  (forall id v, In (id, v) (Engine.schema_versions st) ->
     Engine.version v = id
     /\ Engine.hash v = Engine.schema_hash digest (Engine.schema v)
     /\ exists n, n < Engine.next_id st /\ id = string_of_nat n)
  /\ NoDup (map fst (Engine.schema_versions st))
  /\ (forall h id,
        Engine.lookup h (Engine.hash_index st) = Some id ->
        exists v, In (id, v) (Engine.schema_versions st) /\ Engine.hash v = h)
  /\ (forall id v, In (id, v) (Engine.schema_versions st) ->
        Engine.lookup (Engine.hash v) (Engine.hash_index st) = Some id)
  /\ (forall source v, Engine.lookup source (Engine.current st) = Some v ->
        In (Engine.version v, v) (Engine.schema_versions st)).

Module Samples.
Import Str.

Definition nl : string := str1 NL.
Definition q : string := str1 DQ.

Definition clock : string := "2024-01-01T00:00:00".
Definition later : string := "2024-01-01T00:00:01".

(** A document whose only section holds nothing but its marker. *)
Definition marker_only : string := "--- METADATA".

(** A metadata section that repeats a key and names a [source_file]. *)
Definition repeated_metadata : string :=
  "--- METADATA" ++ nl ++ "a: 1" ++ nl ++ "a: 2" ++ nl ++ "source_file: other.txt".

(** A JSON-LD section whose payload is a JSON array: [_parse_json_ld]
    raises a [TypeError] on [parsed['data_type'] = 'json_ld']. *)
Definition json_ld_array : string :=
  "--- JSON-LD" ++ nl ++ "<script type=" ++ q ++ "application/ld+json" ++ q
  ++ ">[1]</script>".

(** The same with an array of 250 numbers, a section of more than 500
    characters. *)
Definition long_json_ld : string :=
  "--- JSON-LD" ++ nl ++ "<script type=" ++ q ++ "application/ld+json" ++ q
  ++ ">[" ++ join ", " (repeat "1" 250) ++ "]</script>".

(** A CSV-like section whose third line has one field too many. *)
Definition ragged_csv : string :=
  "--- CSV-LIKE SECTION" ++ nl ++ "name,age" ++ nl ++ "ann,31" ++ nl
  ++ "bob,27,extra" ++ nl ++ "cy,40".

(** The first data line with more than [width] fields: its number and
    its number of fields. *)
Fixpoint first_long_line (width lineno : nat) (rows : list string)
    : option (nat * nat) :=
  match rows with
  | [] => None
  | row :: t =>
      if Nat.ltb width (List.length (split "," row))
      then Some (lineno, List.length (split "," row))
      else first_long_line width (S lineno) t
  end.

(** [pd.read_csv] on a ragged table: with its default
    [on_bad_lines='error'] the tokenizer raises a [ParserError] at the
    first data line that has more fields than the header.  On other
    tables this stand-in returns the cells as text. *)
Definition read_csv_strict (text : string) : Result (list Dict) :=
  match split NL text with
  | [] => Ok []
  | header :: rows =>
      let names := split "," header in
      match first_long_line (List.length names) 2 rows with
      | Some (lineno, saw) =>
          Raise ("Error tokenizing data. C error: Expected "
                 ++ string_of_nat (List.length names) ++ " fields in line "
                 ++ string_of_nat lineno ++ ", saw " ++ string_of_nat saw ++ nl)
      | None => Ok (map (fun row => assign_columns names (split "," row) []) rows)
      end
  end.

(** A runtime where [import pandas] succeeds. *)
Definition pandas_runtime (now : string) : Runtime :=
  {| HAS_PANDAS := true;
     HAS_BS4 := false;
     HAS_YAML := false;
     json_loads := Json.loads;
     read_csv_rows := read_csv_strict;
     BeautifulSoup := fun _ => Raise "No module named 'bs4'";
     yaml_safe_load := fun _ => Crash "No module named 'yaml'";
     now_isoformat := now |}.

(** The near-JSON text of the specification's example. *)
Definition john : string := "{name: John, age: 30,}".

(** What the minimal fix and the aggressive fix make of it. *)
Definition john_minimal : string :=
  "{" ++ q ++ "name" ++ q ++ ": John, " ++ q ++ "age" ++ q ++ ": 30}".
Definition john_aggressive : string :=
  "{name: " ++ q ++ "John" ++ q ++ ", age: 30}".

(** A digest for the examples: the triples written out. *)
Definition data_type_name (t : Engine.DataType) : string :=
  match t with
  | Engine.TString => "string" | Engine.TInteger => "integer"
  | Engine.TFloat => "float" | Engine.TBoolean => "boolean"
  | Engine.TDate => "date" | Engine.TNull => "null"
  | Engine.TObject => "object" | Engine.TArray => "array"
  end.

Definition plain_digest (triples : list (string * Engine.DataType * nat)) : string :=
  join ";" (map (fun t => fst (fst t) ++ ":" ++ data_type_name (snd (fst t)) ++ ":"
                          ++ string_of_nat (snd t)) triples).

(** The sequential batches of section 8 of the specification. *)
Definition batch_a : list Dict := [[("a", VInt 1)]].
Definition batch_ab : list Dict := [[("a", VInt 1); ("b", VStr "x")]].

(** The batch of section 8 of the specification. *)
Definition batch : list Dict :=
  [[("a", VStr "1")]; [("a", VStr "2")]; [("a", VStr "x")]].

(** Starlette's [HTTPException.__str__]: the status and the detail. *)
Definition starlette_str (status_code : nat) (detail : string) : string :=
  string_of_nat status_code ++ ": " ++ detail.

(** What one candidate adds in [_parse_malformed_json]: the record of the
    repair cascade, if the cascade returns a true object. *)
Definition cascade_records (rt : Runtime) (json_str : string) : Result (list Dict) :=
  parsed_obj <- Parser._attempt_json_fixes rt json_str ;;
  if truthy parsed_obj then
    d <- Parser.tag_json parsed_obj true ;;
    Ok [d]
  else Ok [].

(** What one candidate adds in [_parse_json_section]: the object that
    [json.loads] returns, the dict elements of the array it returns, or,
    when it raises [JSONDecodeError], what the cascade gives. *)
Definition inline_records (rt : Runtime) (json_str : string) : Result (list Dict) :=
  match json_loads rt json_str with
  | Decoded (VDict d) =>
      Ok [dict_set "was_malformed" (VBool false)
            (dict_set "data_type" (VStr "json_object") d)]
  | Decoded (VList items) => Ok (flat_map Parser.from_array items)
  | Decoded _ => Ok []
  | DecodeError _ => cascade_records rt json_str
  | Crash e => Raise e
  end.

(** The records of the candidates in order, up to the first that raises. *)
Fixpoint gather (f : string -> Result (list Dict)) (candidates : list string)
    : Result (list Dict) :=
  match candidates with
  | [] => Ok []
  | c :: t =>
      records <- f c ;;
      more <- gather f t ;;
      Ok (records ++ more)%list
  end.

(** An object nested three deep, and the part of it the pattern finds. *)
Definition three_deep : string :=
  "{" ++ q ++ "a" ++ q ++ ": {" ++ q ++ "b" ++ q ++ ": {" ++ q ++ "c" ++ q ++ ": 1}}}".
Definition two_deep : string :=
  "{" ++ q ++ "b" ++ q ++ ": {" ++ q ++ "c" ++ q ++ ": 1}}".

(** A well-formed object. *)
Definition well_formed : string := "{" ++ q ++ "a" ++ q ++ ": 1}".

(** The same key on two lines. *)
Definition twice : string := "a: 1" ++ nl ++ "a: 2".

End Samples.

(** ** Notions used in the further properties *)

(** What is left of [s] after the literal [m], read without regard to case. *)
Fixpoint skip_i (m s : string) : option string :=
  match m with
  | EmptyString => Some s
  | String c m' =>
      match s with
      | String x s' =>
          if Ascii.eqb (Str.lower_char x) (Str.lower_char c) then skip_i m' s' else None
      | EmptyString => None
      end
  end.

(** The lookahead "(?=---|$)" of the section patterns at the text [t]. *)
Definition ahead (t : string) : bool :=
  match skip_i "---" t with
  | Some _ => true
  | None =>
      match t with
      | EmptyString => true
      | String c EmptyString => Ascii.eqb c Str.NL
      | _ => false
      end
  end.

(** The number of characters before the first position of [t] where the
    lookahead holds. *)
Fixpoint stop (t : string) : nat :=
  if ahead t then 0
  else match t with
       | String _ t' => S (stop t')
       | EmptyString => 0
       end.

(** The result of [k] at the first position of [s], from the left, where
    it succeeds. *)
Fixpoint first_some {A : Type} (k : Re.cursor -> Re.groups -> option A) (off : nat)
    (s : string) (g : Re.groups) : option A :=
  Re.orelse (k (Re.Cursor off s) g)
    match s with
    | String _ s' => first_some k (S off) s' g
    | EmptyString => None
    end.

(** A metadata section with a rule inside a value, and a text without
    any marker. *)
Definition ruled_metadata : string :=
  "--- METADATA" ++ Samples.nl ++ "range: 1---5" ++ Samples.nl ++ "unit: cm".
Definition plain_csv : string := "name,age" ++ Samples.nl ++ "ann,31".

(** The pattern the table gives a name. *)
Fixpoint pattern_of (name : string) (table : list (string * Re.regex))
    : option Re.regex :=
  match table with
  | [] => None
  | (name', pattern) :: t =>
      if String.eqb name name' then Some pattern else pattern_of name t
  end.

(** Whether the pattern of a section name matches somewhere in the
    document. *)
Definition found (content name : string) : bool :=
  match pattern_of name Parser.section_patterns with
  | Some pattern =>
      match Re.findall pattern content with
      | [] => false
      | _ => true
      end
  | None => false
  end.

(** Whether the first character, and the last, is outside the class [p]
    (true of the empty string). *)
Definition head_ok (p : ascii -> bool) (s : string) : bool :=
  match s with
  | EmptyString => true
  | String c _ => negb (p c)
  end.

Fixpoint last_ok (p : ascii -> bool) (s : string) : bool :=
  match s with
  | EmptyString => true
  | String c EmptyString => negb (p c)
  | String _ s' => last_ok p s'
  end.

(** The values [_parse_ambiguous_types] stores: text, booleans, [None],
    integers that are not negative, and floats written with a point. *)
Definition ambiguous_value (v : Value) : Prop :=
  match v with
  | VInt z => (0 <= z)%Z
  | VFloat l => Str.has_char "." l = true /\ Parser.float_parses l = true
  | VList _ | VDict _ => False
  | _ => True
  end.

(** What [if found: result[key] = found] leaves under the key. *)
Definition listed (found : list string) : option Value :=
  match found with
  | [] => None
  | _ => Some (VStrs found)
  end.

(** The characters a cleaned key is made of. *)
Definition name_char (c : ascii) : bool := Str.isalnum c || Ascii.eqb c "_".

Fixpoint distinct (l : list string) : bool :=
  match l with
  | [] => true
  | x :: t => negb (Str.mem x t) && distinct t
  end.

(** A value as [clean_data] leaves it: at every depth the keys of a dict
    are distinct and made of letters, digits and underscores, and a text
    has no white space at either end. *)
Fixpoint cleaned (v : Value) : bool :=
  match v with
  | VStr s => String.eqb (Str.strip s) s
  | VDict entries =>
      distinct (map fst entries)
      && forallb (fun kv => Str.all_chars name_char (fst kv) && cleaned (snd kv)) entries
  | VList items => forallb cleaned items
  | _ => true
  end.

(** A value that is neither a dict nor a list. *)
Definition scalar (v : Value) : bool :=
  match v with
  | VDict _ | VList _ => false
  | _ => true
  end.

(** ** Stand-ins used in the examples of the pipeline *)

Module Cases.
Import Str Pipeline.

(** Python's conversions and comparisons on texts and integers, which is
    all the examples hold. *)
Definition plain_builtins : Builtins :=
  {| int_float := fun x => match x with
                           | VInt z => Converted (VInt z)
                           | _ => Caught "could not convert"
                           end;
     float_ := fun x => Caught "could not convert";
     str_ := fun x => match x with
                      | VStr s => Converted (VStr s)
                      | _ => Caught "could not convert"
                      end;
     bool_ := fun x => match x with
                       | VStr s => negb (String.eqb s EmptyString)
                       | VInt z => negb (Z.eqb z 0)
                       | _ => true
                       end;
     eq := fun x y => match x, y with
                      | VStr a, VStr b => String.eqb a b
                      | VInt a, VInt b => Z.eqb a b
                      | _, _ => false
                      end;
     gt := fun x y => match x, y with
                      | VInt a, VInt b => Ok (Z.ltb b a)
                      | _, _ => Raise "'>' not supported"
                      end;
     lt := fun x y => match x, y with
                      | VInt a, VInt b => Ok (Z.ltb a b)
                      | _, _ => Raise "'<' not supported"
                      end |}.

(** Writers that report how many records they were given. *)
Definition counting_libraries : Libraries :=
  {| builtins := plain_builtins;
     json_dumps := fun _ => "[...]";
     dumps_indent := fun data => Ok ("json of " ++ string_of_nat (List.length data));
     frame_to_csv := fun rows => Ok ("csv of " ++ string_of_nat (List.length rows));
     frame_to_parquet := fun rows => Ok ("parquet of " ++ string_of_nat (List.length rows)) |}.

(** An engine that numbers its versions: the state is the number of
    versions made, a version is its number, and the export of a version
    is its name. *)
Definition numbering_engine : SchemaEngine nat nat string :=
  {| version := fun v => "v" ++ string_of_nat v;
     infer_schema := fun made _ _ => (S made, Ok (S made));
     export_schema := fun made version_id => (made, Ok ("schema " ++ version_id)) |}.

(** The same engine with an [export_schema] that raises. *)
Definition forgetful_engine : SchemaEngine nat nat string :=
  {| version := fun v => "v" ++ string_of_nat v;
     infer_schema := fun made _ _ => (S made, Ok (S made));
     export_schema := fun made version_id =>
                        (made, Raise ("Schema version " ++ version_id ++ " not found")) |}.

(** A pipeline that has run no job; the clock counts in ticks. *)
Definition fresh : ETLPipeline nat nat := init nat nat 0.

(** A batch of one record with untidy names, two of which clean to the
    same name. *)
Definition untidy : Value :=
  VList [VDict [(" first name", VStr " Ann "); ("first-name", VStr "Bob");
                ("tags", VList [VStr " a "; VStr "b"]);
                ("home address", VDict [("zip code", VInt 10001)])]].

(** A batch whose second element is no dict. *)
Definition mixed : Value := VList [VDict [("a", VInt 1)]; VInt 2].

(** A flat record. *)
Definition flat : Dict := [("name", VStr "Ann"); ("age", VInt 31); ("member", VBool true)].

(** Two records and a filter on a field neither has. *)
Definition people : list Dict :=
  [[("name", VStr "Ann"); ("age", VInt 31)]; [("name", VStr "Bob"); ("age", VInt 27)]].
Definition height_filter : Value :=
  VDict [("field", VStr "height"); ("operator", VStr ">"); ("value", VInt 180)].

(** Rules of one entry, a filter that no record of [people] passes. *)
Definition zed_filter : Value :=
  VDict [("field", VStr "name"); ("operator", VStr "=="); ("value", VStr "Zed")].
Definition zed_only : Dict := [("filters", VList [zed_filter])].

(** Uploaded bytes that are their own text. *)
Definition as_text (content : string) : Result string := Ok content.
Definition no_csv (text : string) : Result (list Dict) := Raise "No module named 'pandas'".

End Cases.

(** * Properties *)

(** ** Dicts *)

Lemma dict_get_set_same (k : string) (v : Value) (d : Dict) :
  dict_get k (dict_set k v d) = Some v.
Proof.
  induction d as [|[k' v'] d IH]; simpl.
  - now rewrite String.eqb_refl.
  - destruct (String.eqb k k') eqn:E; simpl; rewrite E; auto.
Qed.

Lemma dict_get_set_other (k k' : string) (v : Value) (d : Dict) :
  k <> k' -> dict_get k (dict_set k' v d) = dict_get k d.
Proof.
  intros N. induction d as [|[k0 v0] d IH]; simpl.
  - destruct (String.eqb_spec k k'); [contradiction | reflexivity].
  - destruct (String.eqb_spec k' k0); simpl.
    + subst k0. destruct (String.eqb_spec k k'); [contradiction | reflexivity].
    + destruct (String.eqb k k0); auto.
Qed.

Lemma dict_get_set (k k' : string) (v : Value) (d : Dict) :
  dict_get k (dict_set k' v d) = if String.eqb k k' then Some v else dict_get k d.
Proof.
  destruct (String.eqb_spec k k').
  - subst. apply dict_get_set_same.
  - now apply dict_get_set_other.
Qed.

(** After [record.update(m)] a key of [m] has the last value [m] gives it
    and any other key keeps its value. *)
Lemma dict_get_update (k : string) (m d : Dict) :
  dict_get k (dict_update d m) =
  match dict_get k (rev m) with Some v => Some v | None => dict_get k d end.
Proof.
  unfold dict_update.
  induction m as [|[k' v'] m IH] using rev_ind; simpl; auto.
  rewrite fold_left_app, rev_app_distr. simpl.
  rewrite dict_get_set. destruct (String.eqb k k'); auto.
Qed.

Lemma dict_set_set (k : string) (v1 v2 : Value) (d : Dict) :
  dict_set k v2 (dict_set k v1 d) = dict_set k v2 d.
Proof.
  induction d as [|[k' v'] d IH]; simpl.
  - now rewrite String.eqb_refl.
  - destruct (String.eqb k k') eqn:E; simpl; rewrite E; congruence.
Qed.

Lemma dict_set_comm (k k' : string) (v v' : Value) (d : Dict) :
  k <> k' -> dict_get k d <> None ->
  dict_set k v (dict_set k' v' d) = dict_set k' v' (dict_set k v d).
Proof.
  intros N. induction d as [|[k0 v0] d IH]; simpl; intros P.
  - congruence.
  - destruct (String.eqb_spec k k0), (String.eqb_spec k' k0); subst; simpl.
    + contradiction.
    + rewrite String.eqb_refl. destruct (String.eqb_spec k' k0); congruence.
    + rewrite String.eqb_refl. destruct (String.eqb_spec k k0); congruence.
    + destruct (String.eqb_spec k k0), (String.eqb_spec k' k0); try congruence.
      now rewrite IH.
Qed.

Lemma dict_update_app (d m1 m2 : Dict) :
  dict_update d (m1 ++ m2)%list = dict_update (dict_update d m1) m2.
Proof. unfold dict_update. apply fold_left_app. Qed.

(** Overwriting a key that is there commutes with an update by other keys. *)
Lemma dict_set_update (k : string) (v : Value) (m d : Dict) :
  dict_get k d <> None -> dict_get k m = None ->
  dict_set k v (dict_update d m) = dict_update (dict_set k v d) m.
Proof.
  revert d. induction m as [|[k' v'] m IH]; intros d P A; simpl in *; auto.
  destruct (String.eqb_spec k k'); [discriminate|].
  unfold dict_update in *. simpl. rewrite IH; auto.
  - now rewrite dict_set_comm.
  - rewrite dict_get_set_other; auto.
Qed.

(** ** [parse_file] *)

Section ParseFile.

Import Str Parser.

Variable rt : Runtime.

Lemma parse_step_app (filename : string) (parsed_data : list Dict)
    (section : string * string) :
  parse_step rt filename parsed_data section
  = (parsed_data ++ contribution rt filename section)%list.
Proof.
  unfold parse_step, contribution.
  destruct (_parse_section rt (fst section) (snd section)) as [[|r data]|e]; auto.
  now rewrite app_nil_r.
Qed.

Lemma parse_loop (filename : string) (sections : list (string * string))
    (parsed_data : list Dict) :
  fold_left (parse_step rt filename) sections parsed_data
  = (parsed_data ++ flat_map (contribution rt filename) sections)%list.
Proof.
  revert parsed_data.
  induction sections as [|s sections IH]; intros parsed_data; simpl.
  - now rewrite app_nil_r.
  - now rewrite IH, parse_step_app, <- app_assoc.
Qed.

(** [parse_file] puts the global metadata on what the sections added. *)
Lemma parse_file_unfold (content filename : string) :
  parse_file rt content filename
  = map (fun record =>
           dict_update record (_extract_global_metadata rt content filename))
        (flat_map (contribution rt filename) (_extract_sections content)).
Proof.
  unfold parse_file. rewrite parse_loop. simpl.
  now destruct (flat_map (contribution rt filename) (_extract_sections content)).
Qed.

Lemma contribution_length (filename : string) (section : string * string) :
  List.length (contribution rt filename section) = records_of_section rt section.
Proof.
  unfold contribution, records_of_section.
  now destruct (_parse_section rt (fst section) (snd section)).
Qed.

Lemma contributions_length (filename : string) (sections : list (string * string)) :
  List.length (flat_map (contribution rt filename) sections)
  = list_sum (map (records_of_section rt) sections).
Proof.
  induction sections as [|s sections IH]; simpl; auto.
  now rewrite length_app, IH, contribution_length.
Qed.

(** The keys of the global metadata and their values. *)
Lemma metadata_cases (content filename : string) :
  exists extra,
    _extract_global_metadata rt content filename
    = ([ ("source_file", VStr filename);
         ("processed_at", VStr (now_isoformat rt));
         ("file_size_chars", VNat (String.length content));
         ("total_lines", VNat (List.length (split NL content))) ] ++ extra)%list
    /\ extra
       = ((match Re.search1 scraped_pattern content with
           | Some g => [("scraped_at", VStr (strip g))]
           | None => []
           end)
          ++ (match Re.search1 source_pattern content with
              | Some g => [("source_url", VStr (strip g))]
              | None => []
              end))%list.
Proof.
  eexists. split; [|reflexivity].
  unfold _extract_global_metadata, set_if_found.
  destruct (Re.search1 scraped_pattern content), (Re.search1 source_pattern content);
    reflexivity.
Qed.

End ParseFile.

(** ** The section parsers and the clock *)

Section SameLibraries.

Import Str Parser.

Variables a b : Runtime.
Hypothesis same : same_libraries a b.

Let Hp : HAS_PANDAS a = HAS_PANDAS b. Proof. apply same. Qed.
Let Hb : HAS_BS4 a = HAS_BS4 b. Proof. apply same. Qed.
Let Hy : HAS_YAML a = HAS_YAML b. Proof. apply same. Qed.
Let Hj : json_loads a = json_loads b. Proof. apply same. Qed.
Let Hc : read_csv_rows a = read_csv_rows b. Proof. apply same. Qed.
Let Hs : BeautifulSoup a = BeautifulSoup b. Proof. apply same. Qed.
Let Hl : yaml_safe_load a = yaml_safe_load b. Proof. apply same. Qed.

Lemma same_repaired (json_str : string) (results : list Dict) :
  repaired a json_str results = repaired b json_str results.
Proof. unfold repaired, _attempt_json_fixes. now rewrite Hj. Qed.

Lemma same_json_section_loop (l : list string) (results : list Dict) :
  json_section_loop a l results = json_section_loop b l results.
Proof.
  revert results. induction l as [|x l IH]; intros results; simpl; auto.
  rewrite Hj, same_repaired.
  destruct (json_loads b x) as [[]| |]; auto.
  destruct (repaired b x results); simpl; auto.
Qed.

Lemma same_malformed_loop (l : list string) (results : list Dict) :
  malformed_loop a l results = malformed_loop b l results.
Proof.
  revert results. induction l as [|x l IH]; intros results; simpl; auto.
  rewrite same_repaired. destruct (repaired b x results); simpl; auto.
Qed.

Lemma same_json_ld_loop (l : list string) (results : list Dict) :
  json_ld_loop a l results = json_ld_loop b l results.
Proof.
  revert results. induction l as [|x l IH]; intros results; simpl; auto.
  rewrite Hj. destruct (json_loads b (strip x)); auto.
  destruct (setitem a0 "data_type" (VStr "json_ld")); simpl; auto.
Qed.

Lemma same_variant_json_loop (l : list string) (results : list Dict) :
  variant_json_loop a l results = variant_json_loop b l results.
Proof.
  revert results. induction l as [|x l IH]; intros results; simpl; auto.
  rewrite Hj. destruct (json_loads b x); auto.
  destruct (setitem a0 "data_type" (VStr "schema_variant")); simpl; auto.
Qed.

Lemma same_variant_yaml_loop (l : list string) (results : list Dict) :
  variant_yaml_loop a l results = variant_yaml_loop b l results.
Proof.
  revert results. induction l as [|x l IH]; intros results; simpl; auto.
  rewrite Hl. destruct (yaml_safe_load b x) as [[]| |]; auto.
Qed.

(** The section parsers read the libraries and nothing else of the runtime. *)
Lemma same_parse_section (section_type content : string) :
  _parse_section a section_type content = _parse_section b section_type content.
Proof.
  unfold _parse_section, _parse_json_section, _parse_malformed_json,
    _parse_html_section, _parse_csv_section, _parse_json_ld,
    _parse_variant_section, variant_csv, pandas_csv, _parse_free_text, js_object,
    ld_json_script.
  rewrite same_json_section_loop, same_malformed_loop, same_json_ld_loop,
    same_variant_json_loop, Hp, Hb, Hy, Hj, Hc, Hs.
  repeat match goal with |- (if ?c then _ else _) = _ => destruct c; auto end.
  destruct (variant_json_loop b (Re.findall json_object content) []); simpl; auto.
  destruct (HAS_YAML b); auto. now rewrite same_variant_yaml_loop.
Qed.

Lemma same_contribution (filename : string) (section : string * string) :
  contribution a filename section = contribution b filename section.
Proof. unfold contribution. now rewrite same_parse_section. Qed.

End SameLibraries.

Lemma at_clock_same (rt : Runtime) (t1 t2 : string) :
  same_libraries (at_clock rt t1) (at_clock rt t2).
Proof. repeat split. Qed.

(** ** Claims about [parse_file] *)

Section ParseFileClaims.

Import Str Parser Samples.

Lemma take_length (n : nat) (s : string) :
  String.length (take n s) = Nat.min n (String.length s).
Proof.
  unfold take. revert s. induction n as [|n IH]; intros [|c s]; simpl; auto.
Qed.

Lemma take_prefix (n : nat) (s : string) : prefix (take n s) s = true.
Proof.
  unfold take. revert s. induction n as [|n IH]; intros [|c s]; simpl; auto.
  destruct (ascii_dec c c); [apply IH | congruence].
Qed.

Lemma take_whole (n : nat) (s : string) : String.length s <= n -> take n s = s.
Proof.
  unfold take. revert s. induction n as [|n IH]; intros [|c s]; simpl; auto.
  - intros H. inversion H.
  - intros H. f_equal. apply IH. now apply Nat.succ_le_mono.
Qed.

Ltac metadata_lookup :=
  unfold dict_update; simpl;
  repeat (rewrite dict_get_set; simpl); try reflexivity.

Lemma productive_le_sum {A : Type} (f : A -> nat) (l : list A) :
  List.length (filter (fun x => Nat.ltb 0 (f x)) l) <= list_sum (map f l).
Proof.
  induction l as [|x l IH]; simpl; auto.
  destruct (Nat.ltb_spec 0 (f x)); simpl; lia.
Qed.

(** C1 (as amended).  The number of records [parse_file] returns is the
    sum, over the matched sections, of what each accounts for: one record
    when its parser raised (the fallback), otherwise as many as the parser
    returned, which may be none.  So there are at least as many records as
    matched sections whose parser raised or returned a record. *)
Theorem parse_file_record_count (rt : Runtime) (content filename : string) :
  List.length (parse_file rt content filename)
  = list_sum (map (records_of_section rt) (_extract_sections content))
  /\ List.length (filter (fun section => Nat.ltb 0 (records_of_section rt section))
                         (_extract_sections content))
     <= List.length (parse_file rt content filename).
Proof.
  assert (H : List.length (parse_file rt content filename)
              = list_sum (map (records_of_section rt) (_extract_sections content))).
  { rewrite parse_file_unfold, length_map. apply contributions_length. }
  split; [exact H|]. rewrite H. apply productive_le_sum.
Qed.

(** C1, counterexample.  A document that holds the metadata marker and
    nothing else has one matched section and no record. *)
Lemma parse_file_fewer_records_than_sections :
  List.length (_extract_sections marker_only) = 1
  /\ parse_file (bare_runtime clock) marker_only "page.txt" = []
  /\ ~ (List.length (parse_file (bare_runtime clock) marker_only "page.txt")
        >= List.length (_extract_sections marker_only)).
Proof.
  assert (H : parse_file (bare_runtime clock) marker_only "page.txt" = [])
    by (vm_compute; reflexivity).
  rewrite H. split; [vm_compute; reflexivity|]. split; [reflexivity|].
  vm_compute. lia.
Qed.

(** C2.  [parse_file] is a total function: it returns a list for every
    input.  When the parser of a matched section raises [e], the result
    holds, between the records of the sections before and of the sections
    after, exactly one record for that section; it carries the section's
    tag, [e], and the section's text cut to its first 500 characters: the
    slice [substring 0 500] of the text, which is a prefix of the text of
    length [min 500 (length text)], so the whole text when that has at
    most 500 characters. *)
Theorem parse_file_fallback (rt : Runtime) (content filename : string)
    (before after : list (string * string)) (tag text e : string) :
  _extract_sections content = (before ++ (tag, text) :: after)%list ->
  _parse_section rt tag text = Raise e ->
  exists pre r post,
    parse_file rt content filename = (pre ++ r :: post)%list
    /\ List.length pre = list_sum (map (records_of_section rt) before)
    /\ List.length post = list_sum (map (records_of_section rt) after)
    /\ dict_get "section_type" r = Some (VStr tag)
    /\ dict_get "raw_content" r = Some (VStr (substring 0 500 text))
    /\ dict_get "parse_error" r = Some (VStr e)
    /\ String.length (substring 0 500 text) = Nat.min 500 (String.length text)
    /\ prefix (substring 0 500 text) text = true
    /\ (String.length text <= 500 -> substring 0 500 text = text).
Proof.
  intros Hs He.
  set (md := _extract_global_metadata rt content filename).
  exists (map (fun record => dict_update record md)
              (flat_map (contribution rt filename) before)),
         (dict_update (fallback tag text e filename) md),
         (map (fun record => dict_update record md)
              (flat_map (contribution rt filename) after)).
  split.
  { rewrite parse_file_unfold, Hs, flat_map_app, map_app. simpl.
    unfold contribution at 2. simpl. rewrite He. reflexivity. }
  rewrite !length_map, !contributions_length.
  split; [reflexivity|]. split; [reflexivity|].
  destruct (metadata_cases rt content filename) as [extra [Hm Hx]].
  fold md in Hm. rewrite Hm, Hx.
  assert (Hwhole : String.length text <= 500 -> substring 0 500 text = text)
    by apply (take_whole 500).
  destruct (Re.search1 scraped_pattern content), (Re.search1 source_pattern content);
    (repeat split;
     [metadata_lookup .. | apply (take_length 500) | apply (take_prefix 500)
      | exact Hwhole]).
Qed.

Lemma parse_file_fallback_witness :
  String.length long_json_ld = 806
  /\ exists pre r post,
    parse_file (bare_runtime clock) long_json_ld "page.txt" = (pre ++ r :: post)%list
    /\ List.length pre = list_sum (map (records_of_section (bare_runtime clock)) [])
    /\ List.length post = list_sum (map (records_of_section (bare_runtime clock)) [])
    /\ dict_get "section_type" r = Some (VStr "json_ld")
    /\ dict_get "raw_content" r = Some (VStr (substring 0 500 long_json_ld))
    /\ dict_get "parse_error" r
       = Some (VStr "list indices must be integers or slices, not str")
    /\ String.length (substring 0 500 long_json_ld)
       = Nat.min 500 (String.length long_json_ld)
    /\ prefix (substring 0 500 long_json_ld) long_json_ld = true
    /\ (String.length long_json_ld <= 500
        -> substring 0 500 long_json_ld = long_json_ld).
Proof.
  split; [vm_compute; reflexivity|].
  apply (parse_file_fallback (bare_runtime clock) long_json_ld "page.txt"
           [] [] "json_ld" long_json_ld
           "list indices must be integers or slices, not str");
    vm_compute; reflexivity.
Defined.

(** C10.  Every record [parse_file] returns is a record of a section with
    the global metadata put on it: whatever the section parser produced
    under these names, [source_file] is the filename, [processed_at] the
    clock reading, [file_size_chars] and [total_lines] the sizes of the
    document, and [scraped_at] and [source_url] the stripped captures of
    their patterns when these match the document. *)
Theorem parse_file_global_metadata (rt : Runtime) (content filename : string)
    (r : Dict) :
  In r (parse_file rt content filename) ->
  (exists r0,
      In r0 (flat_map (contribution rt filename) (_extract_sections content))
      /\ r = dict_update r0 (_extract_global_metadata rt content filename))
  /\ dict_get "source_file" r = Some (VStr filename)
  /\ dict_get "processed_at" r = Some (VStr (now_isoformat rt))
  /\ dict_get "file_size_chars" r = Some (VNat (String.length content))
  /\ dict_get "total_lines" r = Some (VNat (List.length (split NL content)))
  /\ (forall g, Re.search1 scraped_pattern content = Some g ->
                dict_get "scraped_at" r = Some (VStr (strip g)))
  /\ (forall g, Re.search1 source_pattern content = Some g ->
                dict_get "source_url" r = Some (VStr (strip g))).
Proof.
  rewrite parse_file_unfold, in_map_iff. intros [r0 [Hr Hin]]. subst r.
  split; [now exists r0|].
  destruct (metadata_cases rt content filename) as [extra [Hm Hx]].
  rewrite Hm, Hx.
  destruct (Re.search1 scraped_pattern content), (Re.search1 source_pattern content);
    repeat split; try (intros g Hg; inversion Hg; subst); try discriminate;
    metadata_lookup.
Qed.

(** The metadata section of [repeated_metadata] has a line
    [source_file: other.txt]; the record returned names the file parsed. *)
Lemma parse_file_global_metadata_witness :
  let r := [("data_type", VStr "metadata"); ("a", VStr "2");
            ("source_file", VStr "page.txt"); ("processed_at", VStr clock);
            ("file_size_chars", VInt 45); ("total_lines", VInt 4)] in
  In r (parse_file (bare_runtime clock) repeated_metadata "page.txt")
  /\ _parse_metadata repeated_metadata
     = [[("data_type", VStr "metadata"); ("a", VStr "2");
         ("source_file", VStr "other.txt")]]
  /\ dict_get "source_file" r = Some (VStr "page.txt")
  /\ dict_get "processed_at" r = Some (VStr clock)
  /\ dict_get "file_size_chars" r = Some (VNat (String.length repeated_metadata))
  /\ dict_get "total_lines" r = Some (VNat (List.length (split NL repeated_metadata))).
Proof.
  intros r.
  assert (H : In r (parse_file (bare_runtime clock) repeated_metadata "page.txt"))
    by (vm_compute; left; reflexivity).
  split; [exact H|]. split; [vm_compute; reflexivity|].
  destruct (parse_file_global_metadata (bare_runtime clock) repeated_metadata
              "page.txt" r H) as [_ [H1 [H2 [H3 [H4 _]]]]].
  repeat split; assumption.
Defined.

(** C8 (as amended).  The result of [parse_file] at one reading of the
    clock is its result at any other reading with [processed_at] set to the
    new reading: apart from that field the records are a function of the
    text, the filename and the libraries. *)
Theorem parse_file_clock (rt : Runtime) (t1 t2 content filename : string) :
  parse_file (at_clock rt t2) content filename
  = map (dict_set "processed_at" (VStr t2))
        (parse_file (at_clock rt t1) content filename).
Proof.
  rewrite !parse_file_unfold, map_map.
  rewrite (flat_map_ext _ _ (same_contribution _ _ (at_clock_same rt t2 t1) filename)).
  apply map_ext. intros r0.
  destruct (metadata_cases (at_clock rt t1) content filename) as [x1 [Hm1 Hx1]].
  destruct (metadata_cases (at_clock rt t2) content filename) as [x2 [Hm2 Hx2]].
  rewrite <- Hx1 in Hx2. subst x2.
  rewrite Hm1, Hm2, !dict_update_app.
  assert (Hextra : dict_get "processed_at" x1 = None).
  { rewrite Hx1.
    destruct (Re.search1 scraped_pattern content), (Re.search1 source_pattern content);
      reflexivity. }
  rewrite dict_set_update; auto.
  - f_equal. unfold dict_update. simpl.
    rewrite (dict_set_comm "processed_at" "total_lines"), (dict_set_comm "processed_at" "file_size_chars"), dict_set_set;
      try discriminate; auto;
      repeat (rewrite dict_get_set; simpl); discriminate.
  - unfold dict_update. simpl. repeat (rewrite dict_get_set; simpl). discriminate.
Qed.

(** C8, counterexample.  Two calls on the same text and filename at two
    readings of the clock return different records. *)
Lemma parse_file_depends_on_clock :
  parse_file (bare_runtime clock) repeated_metadata "page.txt"
  <> parse_file (bare_runtime later) repeated_metadata "page.txt".
Proof. vm_compute. discriminate. Qed.

End ParseFileClaims.

(** ** The key/value parsers *)

Section KeyValue.

Import Str Parser Samples.

Lemma fold_left_flat_map {A B C : Type} (f : A -> B -> A) (g : A -> C -> A)
    (w : B -> list C) (l : list B) (a : A) :
  (forall a b, f a b = fold_left g (w b) a) ->
  fold_left f l a = fold_left g (flat_map w l) a.
Proof.
  intros H. revert a. induction l as [|b l IH]; intros a; simpl; auto.
  now rewrite fold_left_app, <- H, IH.
Qed.

Lemma metadata_line_writes (d : Dict) (line : string) :
  metadata_line d line = apply_writes (metadata_writes line) d.
Proof.
  unfold metadata_line, metadata_writes, apply_writes.
  destruct (colon_line line); auto.
  destruct (key_value_of line) as [[k v]|]; auto.
Qed.

Lemma assign_tags_writes (parts : list string) (i : nat) (d : Dict) :
  assign_tags i parts d = apply_writes (tag_writes i parts) d.
Proof.
  revert i d. induction parts as [|p parts IH]; intros i d; simpl;
    [reflexivity | apply IH].
Qed.

Lemma key_value_line_writes (d : Dict) (line : string) :
  key_value_line d line = apply_writes (key_value_writes line) d.
Proof.
  unfold key_value_line, key_value_writes.
  destruct (colon_line line).
  - destruct (key_value_of line) as [[k v]|]; auto.
  - destruct (has_char ";" line && negb (startswith "#" (strip line))); auto.
    apply assign_tags_writes.
Qed.

Lemma written_app (key : string) (a b : list (string * string)) :
  written key (a ++ b) = (written key a ++ written key b)%list.
Proof. unfold written. now rewrite filter_app, map_app. Qed.

(** After a run of assignments a key holds the last value assigned to it. *)
Lemma apply_writes_last (key : string) (writes : list (string * string)) (d : Dict)
    (vs : list string) (v : string) :
  written key writes = (vs ++ [v])%list ->
  dict_get key (apply_writes writes d) = Some (VStr v).
Proof.
  revert vs v. unfold apply_writes.
  induction writes as [|[k x] writes IH] using rev_ind; intros vs v H.
  - destruct vs; discriminate.
  - rewrite fold_left_app. simpl. rewrite dict_get_set.
    rewrite written_app in H. unfold written at 2 in H. simpl in H.
    rewrite (String.eqb_sym key k).
    destruct (String.eqb k key); simpl in H.
    + apply app_inj_tail in H. destruct H as [_ H]. now subst.
    + rewrite app_nil_r in H. eauto.
Qed.

Lemma collapse_snoc (values : list string) (v : string) :
  collapse (values ++ [v]) =
  match collapse values with
  | None => Some (VStr v)
  | Some (VList items) => Some (VList (items ++ [VStr v]))
  | Some old => Some (VList [old; VStr v])
  end.
Proof.
  destruct values as [|a [|b values]]; simpl; auto.
  unfold VStrs. simpl. now rewrite map_app.
Qed.

Lemma repeated_line_writes (d : Dict) (line : string) :
  repeated_line d line = accumulate_writes (metadata_writes line) d.
Proof.
  unfold repeated_line, metadata_writes, accumulate_writes.
  destruct (colon_line line); auto.
  destruct (key_value_of line) as [[k v]|]; auto.
Qed.

Lemma accumulate_get (key k v : string) (d : Dict) (values : list string) :
  dict_get key d = collapse values ->
  dict_get key (accumulate k v d)
  = collapse (values ++ (if String.eqb k key then [v] else []))%list.
Proof.
  intros H. unfold accumulate.
  destruct (String.eqb_spec k key).
  - subst k. rewrite collapse_snoc, <- H.
    destruct (dict_get key d) as [[]|]; now rewrite dict_get_set_same.
  - rewrite app_nil_r, <- H.
    destruct (dict_get k d) as [[]|]; rewrite dict_get_set_other; congruence.
Qed.

(** Repeated assignments accumulate. *)
Lemma accumulate_writes_get (key : string) (writes : list (string * string)) :
  dict_get key (accumulate_writes writes []) = collapse (written key writes).
Proof.
  unfold accumulate_writes.
  induction writes as [|[k v] writes IH] using rev_ind; auto.
  rewrite fold_left_app, written_app. cbn [fold_left fst snd].
  rewrite (accumulate_get key k v _ _ IH). f_equal. f_equal.
  unfold written. simpl. now destruct (String.eqb k key).
Qed.

Lemma has_char_cons (a c : ascii) (s : string) :
  has_char a (String c s) = Ascii.eqb c a || has_char a s.
Proof.
  unfold has_char, str1. simpl.
  destruct (ascii_dec a c) as [E|E].
  - subst. rewrite Ascii.eqb_refl. now destruct s.
  - destruct (Ascii.eqb_spec c a); [congruence | reflexivity].
Qed.

Lemma split1_first_colon (k v : string) :
  has_char ":" k = false -> split1 ":" (k ++ String ":" v) = Some (k, v).
Proof.
  induction k as [|c k IH]; simpl; intros H; auto.
  rewrite has_char_cons in H. apply orb_false_elim in H. destruct H as [H1 H2].
  now rewrite H1, IH.
Qed.

(** C4 (as amended).  In the three parsers a line that has a colon and is
    neither a comment nor a marker is split at its first colon.  In
    [_parse_metadata] and [_parse_key_value] a key holds the last value
    assigned to it (in [_parse_key_value] a semicolon line assigns the
    keys [tag_0], [tag_1], ...); in [_parse_repeated_fields] a key other
    than [data_type] holds its value when it occurs once and the list of
    its values, in order, when it occurs several times. *)
Theorem key_value_parsers_repeated_keys (content key : string) :
  (forall k v, has_char ":" k = false ->
               key_value_of (k ++ String ":" v) = Some (strip k, strip v))
  /\ (forall r vs v,
        In r (_parse_metadata content) ->
        written key (flat_map metadata_writes (split NL content)) = (vs ++ [v])%list ->
        dict_get key r = Some (VStr v))
  /\ (forall r vs v,
        In r (_parse_key_value content) ->
        written key (flat_map key_value_writes (split NL content)) = (vs ++ [v])%list ->
        dict_get key r = Some (VStr v))
  /\ (forall r,
        In r (_parse_repeated_fields content) ->
        key <> "data_type" ->
        dict_get key r
        = collapse (written key (flat_map metadata_writes (split NL content)))).
Proof.
  split; [|split; [|split]].
  - intros k v H. unfold key_value_of. now rewrite split1_first_colon.
  - intros r vs v Hr Hw. unfold _parse_metadata in Hr.
    rewrite (fold_left_flat_map _ _ metadata_writes _ _ metadata_line_writes) in Hr.
    fold (apply_writes (flat_map metadata_writes (split NL content))
            [("data_type", VStr "metadata")]) in Hr.
    destruct (Nat.ltb _ _); [|contradiction].
    destruct Hr as [Hr|[]]. subst r. eapply apply_writes_last; eauto.
  - intros r vs v Hr Hw. unfold _parse_key_value in Hr.
    rewrite (fold_left_flat_map _ _ key_value_writes _ _ key_value_line_writes) in Hr.
    fold (apply_writes (flat_map key_value_writes (split NL content))
            [("data_type", VStr "key_value_pairs")]) in Hr.
    destruct (Nat.ltb _ _); [|contradiction].
    destruct Hr as [Hr|[]]. subst r. eapply apply_writes_last; eauto.
  - intros r Hr Hk. unfold _parse_repeated_fields in Hr.
    rewrite (fold_left_flat_map _ _ metadata_writes _ _ repeated_line_writes) in Hr.
    fold (accumulate_writes (flat_map metadata_writes (split NL content)) []) in Hr.
    rewrite <- accumulate_writes_get.
    destruct (accumulate_writes _ _) as [|x fields]; [contradiction|].
    destruct Hr as [Hr|[]]. subst r. now apply dict_get_set_other.
Qed.

Lemma key_value_parsers_repeated_keys_witness :
  key_value_of ("a" ++ String ":" " 1") = Some ("a", "1")
  /\ dict_get "a" [("data_type", VStr "metadata"); ("a", VStr "2")] = Some (VStr "2")
  /\ dict_get "a" [("data_type", VStr "key_value_pairs"); ("a", VStr "2")]
     = Some (VStr "2")
  /\ dict_get "a" [("a", VList [VStr "1"; VStr "2"]); ("data_type", VStr "repeated_fields")]
     = Some (VList [VStr "1"; VStr "2"]).
Proof.
  destruct (key_value_parsers_repeated_keys twice "a") as [H1 [H2 [H3 H4]]].
  split; [apply (H1 "a" " 1"); reflexivity|].
  split; [apply (H2 _ ["1"] "2"); vm_compute; auto|].
  split; [apply (H3 _ ["1"] "2"); vm_compute; auto|].
  apply (H4 [("a", VList [VStr "1"; VStr "2"]); ("data_type", VStr "repeated_fields")]).
  - vm_compute. auto.
  - discriminate.
Defined.

(** C4, counterexample.  On the same key given twice the metadata and the
    key-value parsers keep the second value; only the repeated-fields
    parser builds a list. *)
Lemma metadata_keeps_last_value :
  _parse_metadata twice = [[("data_type", VStr "metadata"); ("a", VStr "2")]]
  /\ _parse_key_value twice = [[("data_type", VStr "key_value_pairs"); ("a", VStr "2")]]
  /\ _parse_repeated_fields twice
     = [[("a", VList [VStr "1"; VStr "2"]); ("data_type", VStr "repeated_fields")]].
Proof. repeat split; vm_compute; reflexivity. Qed.

End KeyValue.

(** ** CSV-like sections *)

Section Csv.

Import Str Parser Samples.

Lemma csv_row_data_type (headers : list string) (line : string) (r : Dict) :
  In r (csv_row "csv_row" headers line) ->
  dict_get "data_type" r = Some (VStr "csv_row").
Proof.
  unfold csv_row. destruct (Nat.eqb _ _); [|contradiction].
  intros [H|[]]. subst r. apply dict_get_set_same.
Qed.

(** The two paths of [_parse_csv_section].  Let the comma-bearing lines of
    a CSV-like section be a header and at least one row.  Without pandas
    ([HAS_PANDAS] false) the result is, in order, one [csv_row] record for
    each row that has as many fields as the header; a row with another
    number of fields adds nothing and no error record is made.  With
    pandas the lines go to [pd.read_csv], and when that raises [e] the
    result is the single record [malformed_csv] carrying the lines and
    [e]. *)
Theorem csv_section_rows (rt : Runtime) (content header : string)
    (rows : list string) :
  filter csv_line (split NL (strip content)) = header :: rows ->
  rows <> [] ->
  let headers := map strip (split "," header) in
  (HAS_PANDAS rt = false ->
     _parse_csv_section rt content = flat_map (csv_row "csv_row" headers) rows
     /\ (forall line,
           List.length (split "," line) <> List.length (split "," header) ->
           csv_row "csv_row" headers line = [])
     /\ (forall line,
           List.length (split "," line) = List.length (split "," header) ->
           csv_row "csv_row" headers line
           = [dict_set "data_type" (VStr "csv_row")
                (assign_columns headers (map strip (split "," line)) [])])
     /\ Forall (fun r => dict_get "data_type" r = Some (VStr "csv_row"))
               (_parse_csv_section rt content))
  /\ (HAS_PANDAS rt = true ->
      forall e,
        read_csv_rows rt (join (str1 NL) (header :: rows)) = Raise e ->
        _parse_csv_section rt content
        = [[("data_type", VStr "malformed_csv");
            ("raw_content", VStr (join (str1 NL) (header :: rows)));
            ("error", VStr e)]]).
Proof.
  intros Hl Hr headers.
  assert (Hlen : Nat.leb 2 (List.length (header :: rows)) = true)
    by (destruct rows; [congruence | reflexivity]).
  assert (Hm : _parse_csv_section rt content
               = if HAS_PANDAS rt then
                   match pandas_csv rt "csv_row" (header :: rows) with
                   | Ok results => results
                   | Raise e =>
                       [[("data_type", VStr "malformed_csv");
                         ("raw_content", VStr (join (str1 NL) (header :: rows)));
                         ("error", VStr e)]]
                   end
                 else manual_csv "csv_row" (header :: rows)).
  { unfold _parse_csv_section. rewrite Hl, Hlen. reflexivity. }
  split.
  - intros Hp. rewrite Hm, Hp. simpl. fold headers.
    split; [reflexivity|]. split; [|split].
    + intros line Hn. unfold csv_row, headers. rewrite !length_map.
      destruct (Nat.eqb_spec (List.length (split "," line))
                             (List.length (split "," header))); congruence.
    + intros line He. unfold csv_row, headers. rewrite !length_map, He.
      now rewrite Nat.eqb_refl.
    + apply Forall_forall. intros r Hin. apply in_flat_map in Hin.
      destruct Hin as [line [_ Hin]]. eapply csv_row_data_type; eauto.
  - intros Hp e He. rewrite Hm, Hp. unfold pandas_csv. now rewrite He.
Qed.

Lemma csv_section_rows_witness :
  _parse_csv_section (bare_runtime clock) ragged_csv
  = [ [("name", VStr "ann"); ("age", VStr "31"); ("data_type", VStr "csv_row")];
      [("name", VStr "cy"); ("age", VStr "40"); ("data_type", VStr "csv_row")] ]
  /\ _parse_csv_section (pandas_runtime clock) ragged_csv
     = [[("data_type", VStr "malformed_csv");
         ("raw_content",
          VStr (join nl ["name,age"; "ann,31"; "bob,27,extra"; "cy,40"]));
         ("error",
          VStr ("Error tokenizing data. C error: Expected 2 fields in line 3, saw 3"
                ++ nl))]].
Proof.
  split.
  - destruct (csv_section_rows (bare_runtime clock) ragged_csv "name,age"
                ["ann,31"; "bob,27,extra"; "cy,40"]) as [H _];
      [vm_compute; reflexivity | discriminate |].
    destruct (H eq_refl) as [H1 _]. rewrite H1. vm_compute. reflexivity.
  - destruct (csv_section_rows (pandas_runtime clock) ragged_csv "name,age"
                ["ann,31"; "bob,27,extra"; "cy,40"]) as [_ H];
      [vm_compute; reflexivity | discriminate |].
    apply (H eq_refl). vm_compute. reflexivity.
Defined.

(** C6.  [_parse_csv_section] at a section with a header, two well-formed
    rows and one row with a field too many.  Where pandas is installed
    the result is the single error record [malformed_csv], and the
    [csv_row] record of the well-formed row [ann,31] is not in it.  The
    manual path of the same function, taken without pandas, drops the
    long row, makes no error record and keeps the two other rows. *)
Lemma ragged_csv_with_pandas :
  _parse_csv_section (pandas_runtime clock) ragged_csv
  = [[("data_type", VStr "malformed_csv");
      ("raw_content",
       VStr (join nl ["name,age"; "ann,31"; "bob,27,extra"; "cy,40"]));
      ("error",
       VStr ("Error tokenizing data. C error: Expected 2 fields in line 3, saw 3"
             ++ nl))]]
  /\ ~ In [("name", VStr "ann"); ("age", VStr "31"); ("data_type", VStr "csv_row")]
          (_parse_csv_section (pandas_runtime clock) ragged_csv)
  /\ _parse_csv_section (bare_runtime clock) ragged_csv
     = [ [("name", VStr "ann"); ("age", VStr "31"); ("data_type", VStr "csv_row")];
         [("name", VStr "cy"); ("age", VStr "40"); ("data_type", VStr "csv_row")] ].
Proof.
  assert (H : _parse_csv_section (pandas_runtime clock) ragged_csv
              = [[("data_type", VStr "malformed_csv");
                  ("raw_content",
                   VStr (join nl ["name,age"; "ann,31"; "bob,27,extra"; "cy,40"]));
                  ("error",
                   VStr ("Error tokenizing data. C error: Expected 2 fields in line 3, saw 3"
                         ++ nl))]])
    by (vm_compute; reflexivity).
  split; [exact H|]. split; [|vm_compute; reflexivity].
  rewrite H. intros [E|[]]. discriminate E.
Qed.

End Csv.

(** ** The repair cascade *)

Section Cascade.

Import Str Parser Samples.

(** C5 (as amended).  On [{name: John, age: 30,}] the minimal fix strips
    the trailing comma and quotes the keys but leaves the bare value
    [John], and the aggressive fix quotes [John] but not the keys.  When
    [json.loads] rejects both texts the cascade falls through to manual
    extraction, which recognises the numeric field only: the result is
    [{age: 30}], made without the last-resort strategy and tagged
    [was_malformed]. *)
Theorem repair_cascade_john (rt : Runtime) (e1 e2 : string) :
  json_loads rt john_minimal = DecodeError e1 ->
  json_loads rt john_aggressive = DecodeError e2 ->
  _fix_malformed_json john = john_minimal
  /\ _aggressive_json_fix john = john_aggressive
  /\ _extract_json_fields_manually john = VDict [("age", VInt 30)]
  /\ _attempt_json_fixes rt john = Ok (VDict [("age", VInt 30)])
  /\ _parse_malformed_json rt john
     = Ok [[("age", VInt 30); ("data_type", VStr "json_object");
            ("was_malformed", VBool true)]].
Proof.
  intros H1 H2.
  assert (F1 : _fix_malformed_json john = john_minimal) by (vm_compute; reflexivity).
  assert (F2 : _aggressive_json_fix john = john_aggressive) by (vm_compute; reflexivity).
  assert (F3 : _extract_json_fields_manually john = VDict [("age", VInt 30)])
    by (vm_compute; reflexivity).
  assert (F4 : _attempt_json_fixes rt john = Ok (VDict [("age", VInt 30)])).
  { unfold _attempt_json_fixes, strategy3. rewrite F1, F2, F3, H1, H2. reflexivity. }
  repeat split; auto.
  unfold _parse_malformed_json.
  replace (Re.findall json_object john) with [john] by (vm_compute; reflexivity).
  simpl. unfold repaired. rewrite F4. reflexivity.
Qed.

Lemma repair_cascade_john_witness :
  _attempt_json_fixes (bare_runtime clock) john = Ok (VDict [("age", VInt 30)]).
Proof.
  apply (repair_cascade_john (bare_runtime clock)
           "Expecting value: line 1 column 10 (char 9)"
           "Expecting property name enclosed in double quotes: line 1 column 2 (char 1)");
    vm_compute; reflexivity.
Defined.

(** C5, counterexample.  The text the minimal fix produces is not JSON:
    strategy 1 does not succeed and the record the cascade returns has no
    [name]. *)
Lemma minimal_fix_does_not_parse_john :
  Json.loads (_fix_malformed_json john)
  = DecodeError "Expecting value: line 1 column 10 (char 9)"
  /\ ~ (exists v, Json.loads (_fix_malformed_json john) = Decoded v)
  /\ _attempt_json_fixes (bare_runtime clock) john = Ok (VDict [("age", VInt 30)]).
Proof.
  assert (H : Json.loads (_fix_malformed_json john)
              = DecodeError "Expecting value: line 1 column 10 (char 9)")
    by (vm_compute; reflexivity).
  split; [exact H|]. split.
  - intros [v E]. rewrite H in E. discriminate E.
  - vm_compute. reflexivity.
Qed.

End Cascade.

(** ** The schema engine *)

Section EngineClaims.

Import Engine Samples.

Lemma string_of_nat_inj (a b : nat) : string_of_nat a = string_of_nat b -> a = b.
Proof.
  unfold string_of_nat. intros H.
  apply DecimalNat.Unsigned.to_uint_inj.
  pose proof (DecimalString.NilEmpty.usu (Nat.to_uint a)) as Ha.
  rewrite H, DecimalString.NilEmpty.usu in Ha. now inversion Ha.
Qed.

Lemma lookup_assign_same {A : Type} (k : string) (v : A) (l : list (string * A)) :
  lookup k (assign k v l) = Some v.
Proof.
  induction l as [|[k' v'] l IH]; simpl.
  - now rewrite String.eqb_refl.
  - destruct (String.eqb k k') eqn:E; simpl; now rewrite E.
Qed.

Lemma lookup_assign_other {A : Type} (k k' : string) (v : A) (l : list (string * A)) :
  k <> k' -> lookup k (assign k' v l) = lookup k l.
Proof.
  intros N. induction l as [|[k0 v0] l IH]; simpl.
  - destruct (String.eqb_spec k k'); congruence.
  - destruct (String.eqb_spec k' k0); simpl.
    + subst k0. destruct (String.eqb_spec k k'); congruence.
    + destruct (String.eqb_spec k k0); auto.
Qed.

Lemma lookup_In {A : Type} (k : string) (v : A) (l : list (string * A)) :
  lookup k l = Some v -> In (k, v) l.
Proof.
  induction l as [|[k' v'] l IH]; simpl; [discriminate|].
  destruct (String.eqb_spec k k').
  - intros H. inversion H. subst. now left.
  - intros H. right. auto.
Qed.

Lemma In_lookup {A : Type} (k : string) (v : A) (l : list (string * A)) :
  NoDup (map fst l) -> In (k, v) l -> lookup k l = Some v.
Proof.
  induction l as [|[k' v'] l IH]; simpl; [contradiction|].
  intros D [H|H].
  - inversion H. subst. now rewrite String.eqb_refl.
  - inversion D as [|? ? Hn D']. subst.
    destruct (String.eqb_spec k k').
    + subst k'. exfalso. apply Hn. apply (in_map fst) in H. exact H.
    + auto.
Qed.

Lemma triple_eqb_eq (a b : string * DataType * nat) : triple_eqb a b = true <-> a = b.
Proof.
  destruct a as [[f t] n], b as [[f' t'] n']. unfold triple_eqb. simpl.
  rewrite !andb_true_iff, String.eqb_eq, Nat.eqb_eq. split.
  - intros [[H1 H2] H3]. subst. destruct t, t'; try discriminate; reflexivity.
  - intros H. inversion H. subst. repeat split. now destruct t'.
Qed.

Lemma same_content_eq (a b : list (string * DataType * nat)) :
  same_content a b = true <-> a = b.
Proof.
  revert b. induction a as [|x a IH]; intros [|y b]; simpl;
    try (split; [discriminate | congruence]); [tauto|].
  rewrite andb_true_iff, triple_eqb_eq, IH. split.
  - intros [H1 H2]. congruence.
  - intros H. inversion H. auto.
Qed.

Lemma consistent_empty (digest : list (string * DataType * nat) -> string) :
  consistent digest empty_store.
Proof.
  repeat split; simpl; try contradiction; try discriminate. constructor.
Qed.

Lemma consistent_mint (digest : list (string * DataType * nat) -> string)
    (st : SchemaStore) (source now : string) (candidate : Fields) :
  consistent digest st ->
  lookup (schema_hash digest candidate) (hash_index st) = None ->
  consistent digest (fst (mint digest st source now candidate)).
Proof.
  intros (Hv & Hd & Hs & Hc & Hp) Hnew.
  assert (Hfresh : ~ In (string_of_nat (next_id st)) (map fst (schema_versions st))).
  { intros Hin. apply in_map_iff in Hin. destruct Hin as [[id v] [E Hin]].
    simpl in E. subst id. destruct (Hv _ _ Hin) as (_ & _ & n & Hn & En).
    apply string_of_nat_inj in En. lia. }
  split; [|split; [|split; [|split]]].
  - intros id v Hin. simpl in Hin. apply in_app_or in Hin. destruct Hin as [Hin|[E|[]]].
    + destruct (Hv _ _ Hin) as (H1 & H2 & n & Hn & En).
      split; [exact H1|]. split; [exact H2|]. exists n. simpl. split; [lia | exact En].
    + inversion E. subst. simpl. split; [reflexivity|]. split; [reflexivity|].
      exists (next_id st). split; [lia | reflexivity].
  - simpl. rewrite map_app. simpl.
    apply NoDup_app; [exact Hd | repeat constructor; simpl; tauto |].
    intros a Ha [E|[]]. subst a. contradiction.
  - intros h id. simpl.
    destruct (String.eqb_spec h (schema_hash digest candidate)).
    + subst h. rewrite lookup_assign_same. intros E. inversion E. subst id.
      eexists. split; [apply in_or_app; right; left; reflexivity | reflexivity].
    + rewrite lookup_assign_other by assumption. intros E.
      destruct (Hs _ _ E) as (v & Hin & H2).
      exists v. split; [apply in_or_app; now left | assumption].
  - intros id v Hin. simpl in *.
    apply in_app_or in Hin. destruct Hin as [Hin|[E|[]]].
    + pose proof (Hc _ _ Hin) as Hidx.
      rewrite lookup_assign_other; [exact Hidx|].
      intros Eh. rewrite Eh in Hidx. congruence.
    + inversion E. subst. simpl. apply lookup_assign_same.
  - intros other v. simpl. destruct (String.eqb_spec other source).
    + subst other. rewrite lookup_assign_same. intros E. inversion E. subst v. simpl.
      apply in_or_app; right; left; reflexivity.
    + rewrite lookup_assign_other by assumption. intros E.
      apply in_or_app. left. now apply (Hp other).
Qed.

Lemma consistent_point (digest : list (string * DataType * nat) -> string)
    (st : SchemaStore) (source : string) (v : SchemaVersion) :
  consistent digest st ->
  In (version v, v) (schema_versions st) ->
  consistent digest (point st source v).
Proof.
  intros (Hv & Hd & Hs & Hc & Hp) Hin.
  split; [exact Hv|]. split; [exact Hd|]. split; [exact Hs|]. split; [exact Hc|].
  intros other c. simpl. destruct (String.eqb_spec other source).
  - subst other. rewrite lookup_assign_same. intros E. inversion E. now subst c.
  - rewrite lookup_assign_other by assumption. apply Hp.
Qed.

(** What a call that returns has done: made a new version, for a hash the
    history did not hold, or reused the version the history holds for the
    hash, as a no-op or moving the current pointer of the source. *)
Lemma infer_schema_cases (sample_limit : nat)
    (digest : list (string * DataType * nat) -> string)
    (st st1 : SchemaStore) (records : list Dict) (source now : string)
    (v1 : SchemaVersion) (changes1 : list Change) :
  consistent digest st ->
  infer_schema sample_limit digest st records source now = Ok (st1, v1, changes1) ->
  let h := schema_hash digest (build_schema sample_limit records) in
  records <> []
  /\ ((lookup h (hash_index st) = None
       /\ (st1, v1) = mint digest st source now (build_schema sample_limit records))
      \/ (lookup h (hash_index st) = Some (version v1)
          /\ In (version v1, v1) (schema_versions st)
          /\ hash v1 = h
          /\ content (schema v1) = content (build_schema sample_limit records)
          /\ ((st1 = st /\ is_current st source h = true)
              \/ st1 = point st source v1))).
Proof.
  intros (Hv & Hd & Hs & Hc & Hp) H h. unfold infer_schema in H.
  destruct records as [|r records]; [discriminate|]. split; [discriminate|].
  fold h in H.
  destruct (lookup h (hash_index st)) as [id|] eqn:Ei.
  - right. destruct (lookup id (schema_versions st)) as [v|] eqn:El; [|discriminate].
    destruct (same_content _ _) eqn:Ec; simpl in H; [|discriminate].
    apply same_content_eq in Ec. apply lookup_In in El.
    destruct (Hs _ _ Ei) as (v0 & Hin0 & Hh).
    assert (v0 = v).
    { pose proof (In_lookup _ _ _ Hd Hin0) as L0. pose proof (In_lookup _ _ _ Hd El) as L.
      congruence. }
    subst v0. destruct (Hv _ _ El) as (Eid & _).
    assert (v1 = v) by (destruct (is_current _ _ _); now inversion H). subst v1.
    rewrite Eid. split; [reflexivity|]. split; [exact El|].
    split; [exact Hh|]. split; [exact Ec|].
    destruct (is_current _ _ _); inversion H; auto.
  - left. split; [reflexivity|].
    destruct (mint digest st source now _) as [st' v'] eqn:Em. now inversion H.
Qed.

Lemma infer_schema_consistent (sample_limit : nat)
    (digest : list (string * DataType * nat) -> string)
    (st st1 : SchemaStore) (records : list Dict) (source now : string)
    (v1 : SchemaVersion) (changes1 : list Change) :
  consistent digest st ->
  infer_schema sample_limit digest st records source now = Ok (st1, v1, changes1) ->
  consistent digest st1.
Proof.
  intros C H. destruct (infer_schema_cases _ _ _ _ _ _ _ _ _ C H) as [_ [[Hn Em]|Hr]].
  - replace st1 with (fst (mint digest st source now (build_schema sample_limit records)))
      by now rewrite <- Em.
    now apply consistent_mint.
  - destruct Hr as (_ & Hin & _ & _ & [[E _]|E]); subst st1; [exact C|].
    now apply consistent_point.
Qed.

Lemma after_consistent (sample_limit : nat)
    (digest : list (string * DataType * nat) -> string) (calls : list Call) :
  consistent digest (after sample_limit digest calls).
Proof.
  unfold after.
  assert (G : forall st, consistent digest st ->
                consistent digest (fold_left (after_call sample_limit digest) calls st)).
  { induction calls as [|c calls IH]; intros st C; simpl; [exact C|].
    apply IH. unfold after_call.
    destruct (infer_schema _ _ _ _ _ _) as [[[st' v] ch]|e] eqn:E; [|exact C].
    eapply infer_schema_consistent; eauto. }
  apply G, consistent_empty.
Qed.

Lemma In_versions (st : SchemaStore) (v : SchemaVersion) :
  In v (versions st) -> exists id, In (id, v) (schema_versions st).
Proof.
  unfold versions. rewrite in_map_iff. intros [[id v'] [E H]]. simpl in E. subst v'.
  now exists id.
Qed.

(** In a consistent store a version is known by its id, by its hash and
    by its content. *)
Lemma consistent_unique (digest : list (string * DataType * nat) -> string)
    (st : SchemaStore) (a b : SchemaVersion) :
  consistent digest st ->
  In a (versions st) -> In b (versions st) ->
  version a = version b \/ hash a = hash b
  \/ content (schema a) = content (schema b) ->
  a = b.
Proof.
  intros (Hv & Hd & Hs & Hc & Hp) Ha Hb H.
  apply In_versions in Ha, Hb. destruct Ha as [ida Ha], Hb as [idb Hb].
  assert (E : ida = idb).
  { destruct (Hv _ _ Ha) as (Va & Ka & _), (Hv _ _ Hb) as (Vb & Kb & _).
    destruct H as [H|H]; [congruence|].
    assert (Hh : hash a = hash b).
    { destruct H as [H|H]; [exact H|]. rewrite Ka, Kb. unfold schema_hash. now rewrite H. }
    pose proof (Hc _ _ Ha) as La. pose proof (Hc _ _ Hb) as Lb.
    rewrite Hh in La. congruence. }
  subst idb. pose proof (In_lookup _ _ _ Hd Ha). pose proof (In_lookup _ _ _ Hd Hb).
  congruence.
Qed.

(** C3.  In the store of a process, after any calls: a batch that is not
    empty is accepted when the digest has no collision, and whenever a
    call of [infer_schema] returns, a second call with the same batch and
    source returns the same version, so the same id and hash, with an
    empty change list, and leaves the store as it was.  The version
    returned carries the hash of the batch's schema.  No duplicate is
    ever made: if the history already held a version with the content of
    the batch's schema, the first call returned that version, appended
    nothing and allocated no id; and in the store after the call no two
    versions have the same id, the same hash or the same content. *)
Theorem infer_schema_idempotent (sample_limit : nat)
    (digest : list (string * DataType * nat) -> string) (calls : list Call)
    (records : list Dict) (source t1 t2 : string) :
  (records <> [] -> (forall x y, digest x = digest y -> x = y) ->
   exists st1 v1 changes1,
     infer_schema sample_limit digest (after sample_limit digest calls) records source t1
     = Ok (st1, v1, changes1))
  /\ (forall st1 v1 changes1,
      infer_schema sample_limit digest (after sample_limit digest calls) records source t1
      = Ok (st1, v1, changes1) ->
      infer_schema sample_limit digest st1 records source t2 = Ok (st1, v1, [])
      /\ hash v1 = schema_hash digest (build_schema sample_limit records)
      /\ (forall v,
            In v (versions (after sample_limit digest calls)) ->
            content (schema v) = content (build_schema sample_limit records) ->
            v1 = v
            /\ schema_versions st1 = schema_versions (after sample_limit digest calls)
            /\ next_id st1 = next_id (after sample_limit digest calls))
      /\ (forall a b,
            In a (versions st1) -> In b (versions st1) ->
            version a = version b \/ hash a = hash b
            \/ content (schema a) = content (schema b) ->
            a = b)).
Proof.
  set (st := after sample_limit digest calls).
  pose proof (after_consistent sample_limit digest calls) as C. fold st in C.
  set (candidate := build_schema sample_limit records).
  set (h := schema_hash digest candidate).
  split.
  { intros Hne Hinj. unfold infer_schema.
    destruct records as [|r records]; [congruence|]. fold candidate h.
    destruct C as (Kv & Kd & Ks & Kc & Kp).
    destruct (lookup h (hash_index st)) as [id|] eqn:Ei.
    - destruct (Ks _ _ Ei) as (v & Hin & Hh).
      rewrite (In_lookup _ _ _ Kd Hin).
      destruct (Kv _ _ Hin) as (_ & Kh & _).
      assert (Ec : same_content (content (schema v)) (content candidate) = true).
      { apply same_content_eq, Hinj. unfold schema_hash in Kh. rewrite <- Kh. exact Hh. }
      rewrite Ec. simpl. destruct (is_current st source h); eauto.
    - destruct (mint digest st source t1 candidate) as [st' v']. eauto. }
  intros st1 v1 changes1 H.
  pose proof (infer_schema_consistent _ _ _ _ _ _ _ _ _ C H) as C1.
  destruct (infer_schema_cases _ _ _ _ _ _ _ _ _ C H) as [Hne Hcase].
  fold candidate h in Hcase.
  assert (Hh : hash v1 = h).
  { destruct Hcase as [[_ Em]|(_ & _ & Hh & _)]; [|exact Hh].
    unfold mint in Em. now inversion Em. }
  assert (Hidx : lookup h (hash_index st1) = Some (version v1)).
  { destruct Hcase as [[_ Em]|(Hi & _ & _ & _ & [[E _]|E])]; subst; auto.
    unfold mint in Em. inversion Em. simpl. apply lookup_assign_same. }
  assert (Hin : In (version v1, v1) (schema_versions st1)).
  { destruct Hcase as [[_ Em]|(_ & Hin & _ & _ & [[E _]|E])]; subst; auto.
    unfold mint in Em. inversion Em. simpl. apply in_or_app. right. now left. }
  assert (Hcur : is_current st1 source h = true).
  { destruct Hcase as [[_ Em]|(_ & _ & _ & _ & [[E Hc]|E])].
    - unfold mint in Em. inversion Em. unfold is_current. simpl.
      rewrite lookup_assign_same. simpl. apply String.eqb_refl.
    - now subst.
    - subst st1. unfold is_current. simpl. rewrite lookup_assign_same, Hh.
      apply String.eqb_refl. }
  split; [|split; [exact Hh|split]].
  - unfold infer_schema. destruct records as [|r records]; [congruence|].
    fold candidate h. rewrite Hidx.
    destruct C1 as (_ & Hd1 & _). rewrite (In_lookup _ _ _ Hd1 Hin).
    replace (same_content _ _) with true; simpl.
    + now rewrite Hcur.
    + symmetry. apply same_content_eq.
      destruct Hcase as [[_ Em]|(_ & _ & _ & Hc & _)]; [|exact Hc].
      unfold mint in Em. now inversion Em.
  - intros v Hv Hc.
    destruct C as (Kv & Kd & Ks & Kc & Kp).
    apply In_versions in Hv. destruct Hv as [id Hv].
    destruct (Kv _ _ Hv) as (_ & Kh & _).
    assert (L : lookup h (hash_index st) = Some id).
    { pose proof (Kc _ _ Hv) as L. rewrite Kh in L. unfold schema_hash in L.
      rewrite Hc in L. exact L. }
    destruct Hcase as [[Hn _]|(Hi & Hin0 & _ & _ & Hst)]; [congruence|].
    assert (id = version v1) by congruence. subst id.
    split.
    + pose proof (In_lookup _ _ _ Kd Hv). pose proof (In_lookup _ _ _ Kd Hin0).
      congruence.
    + destruct Hst as [[E _]|E]; subst st1; split; reflexivity.
  - intros a b Ha Hb Hab. now apply (consistent_unique digest st1).
Qed.

(** One source sends the sequential batches of section 8 and then the
    first batch again: version 1 is reused and reported as the active
    version, with the removal of [b] as the change of the call, and the
    history keeps its two versions. *)
Lemma infer_schema_idempotent_witness :
  match infer_schema 3 plain_digest
          (after 3 plain_digest [(batch_a, "orders", clock); (batch_ab, "orders", clock)])
          batch_a "orders" later with
  | Ok (st1, v1, changes1) =>
      version v1 = "1" /\ changes1 = [field_removed "b" TString]
      /\ map version (versions st1) = ["1"; "2"]
      /\ infer_schema 3 plain_digest st1 batch_a "orders" later = Ok (st1, v1, [])
  | Raise _ => False
  end.
Proof.
  destruct (infer_schema 3 plain_digest
              (after 3 plain_digest
                 [(batch_a, "orders", clock); (batch_ab, "orders", clock)])
              batch_a "orders" later)
    as [[[st1 v1] changes1]|e] eqn:E.
  - split; [|split; [|split]].
    + vm_compute in E. inversion E. reflexivity.
    + vm_compute in E. inversion E. reflexivity.
    + vm_compute in E. inversion E. reflexivity.
    + exact (proj1 (proj2 (infer_schema_idempotent 3 plain_digest
                             [(batch_a, "orders", clock); (batch_ab, "orders", clock)]
                             batch_a "orders" later later) st1 v1 changes1 E)).
  - vm_compute in E. discriminate E.
Defined.

End EngineClaims.

(** ** The export endpoint *)

Section ExportClaims.

Import Main Samples.

(** C9.  For a version id that is not a key of [schema_versions] the
    handler builds the 404 "not found" exception inside its [try], its own
    [except Exception] catches it, and what reaches the caller is a 500
    whose detail quotes the 404. *)
Theorem export_schema_absent_version (A : Type) (schema_versions : list string)
    (engine_export_schema : string -> Result A)
    (http_str : nat -> string -> string) (version_id : string) :
  Str.mem version_id schema_versions = false ->
  export_schema A schema_versions engine_export_schema http_str version_id
  = inl (HTTPException 500
           ("Failed to export schema: "
            ++ http_str 404 ("Schema version " ++ version_id ++ " not found"))).
Proof.
  intros H. unfold export_schema, export_body. now rewrite H.
Qed.

(** For a version id that is a key, the handler returns what the engine
    exports, and turns a failure of the engine into a 500 as well. *)
Lemma export_schema_present_version (A : Type) (schema_versions : list string)
    (engine_export_schema : string -> Result A)
    (http_str : nat -> string -> string) (version_id : string) :
  Str.mem version_id schema_versions = true ->
  export_schema A schema_versions engine_export_schema http_str version_id
  = match engine_export_schema version_id with
    | Ok schema_export => inr schema_export
    | Raise msg => inl (HTTPException 500 ("Failed to export schema: " ++ msg))
    end.
Proof.
  intros H. unfold export_schema, export_body. rewrite H. simpl.
  now destruct (engine_export_schema version_id).
Qed.

Lemma export_schema_absent_version_witness :
  export_schema Engine.Export [] (Engine.export_schema Engine.empty_store)
    starlette_str "nonexistent"
  = inl (HTTPException 500
           "Failed to export schema: 404: Schema version nonexistent not found").
Proof.
  apply (export_schema_absent_version Engine.Export []
           (Engine.export_schema Engine.empty_store) starlette_str "nonexistent").
  reflexivity.
Defined.

End ExportClaims.

(** ** The matcher and the texts it consumes *)

Section Matcher.

Import Str Re.

Lemma append_assoc (a b c : string) : (a ++ b) ++ c = a ++ (b ++ c).
Proof. induction a as [|x a IH]; simpl; congruence. Qed.

Lemma append_length (a b : string) :
  String.length (a ++ b) = String.length a + String.length b.
Proof. induction a as [|x a IH]; simpl; congruence. Qed.

Ltac here lemma :=
  repeat split; simpl; auto using lemma; try lia.

(** What a successful run has consumed belongs to the pattern. *)
Lemma run_sound {A : Type} (r : regex) :
  forall (i : cursor) (g : groups) (k : cursor -> groups -> option A) (x : A),
    run r i g k = Some x -> consumed r i k x.
Proof.
  unfold consumed.
  induction r as [|p|a IHa b IHb|a IHa b IHb|r IH|r IH|n r IH|r IH|];
    intros i g k x H; cbn [run] in H.
  - exists EmptyString, i, g. here lang_eps.
  - destruct (rest i) as [|c s'] eqn:E; [discriminate|].
    destruct (p c) eqn:P; [|discriminate].
    exists (String c EmptyString), (Cursor (S (offset i)) s'), g.
    here lang_cls.
  - apply IHa in H. destruct H as [s1 [j1 [g1 [L1 [R1 [O1 H]]]]]].
    apply IHb in H. destruct H as [s2 [j2 [g2 [L2 [R2 [O2 H]]]]]].
    exists (s1 ++ s2), j2, g2. here lang_cat.
    + now rewrite R1, R2, append_assoc.
    + rewrite append_length. lia.
  - unfold orelse in H. destruct (run a i g k) eqn:Ea.
    + inversion H; subst. apply IHa in Ea.
      destruct Ea as [s [j [g' [L [R [O K]]]]]]. exists s, j, g'. auto using lang_alt_l.
    + apply IHb in H.
      destruct H as [s [j [g' [L [R [O K]]]]]]. exists s, j, g'. auto using lang_alt_r.
  - revert H. generalize (S (String.length (rest i))). intros n. revert i g x.
    induction n as [|n IHn]; intros i g x H; simpl in H.
    + exists EmptyString, i, g. here lang_star_nil.
    + unfold orelse, turn in H.
      destruct (run r i g _) eqn:E.
      * inversion H; subst. apply IH in E.
        destruct E as [s1 [j1 [g1 [L1 [R1 [O1 K1]]]]]].
        destruct (Nat.ltb (offset i) (offset j1)); [|discriminate].
        apply IHn in K1. destruct K1 as [s2 [j2 [g2 [L2 [R2 [O2 K2]]]]]].
        exists (s1 ++ s2), j2, g2. here lang_star_more.
        -- now rewrite R1, R2, append_assoc.
        -- rewrite append_length. lia.
      * exists EmptyString, i, g. here lang_star_nil.
  - revert H. generalize (S (String.length (rest i))). intros n. revert i g x.
    induction n as [|n IHn]; intros i g x H; simpl in H.
    + exists EmptyString, i, g. here lang_lazy_nil.
    + unfold orelse, turn in H. destruct (k i g) eqn:E.
      * inversion H; subst.
        exists EmptyString, i, g. here lang_lazy_nil.
      * apply IH in H.
        destruct H as [s1 [j1 [g1 [L1 [R1 [O1 K1]]]]]].
        destruct (Nat.ltb (offset i) (offset j1)); [|discriminate].
        apply IHn in K1. destruct K1 as [s2 [j2 [g2 [L2 [R2 [O2 K2]]]]]].
        exists (s1 ++ s2), j2, g2. here lang_lazy_more.
        -- now rewrite R1, R2, append_assoc.
        -- rewrite append_length. lia.
  - apply IH in H. destruct H as [s [j [g' [L [R [O K]]]]]].
    eexists s, j, _. repeat split; eauto using lang_grp.
  - destruct (run r i g (fun _ g' => Some g')) as [g'|]; [|discriminate].
    exists EmptyString, i, g'. here lang_ahead.
  - exists EmptyString, i, g.
    destruct (rest i) as [|c [|]]; try discriminate;
      [|destruct (Ascii.eqb c NL); try discriminate];
      here lang_dollar.
Qed.

End Matcher.

(** ** The bound on repetitions *)

Section Fuel.

Import Str Re.

Lemma reach_refl (i : cursor) : reach i i.
Proof. unfold reach. lia. Qed.

Lemma reach_trans (i j l : cursor) : reach i j -> reach j l -> reach i l.
Proof. unfold reach. lia. Qed.

(** A run calls its continuation at positions it can reach, and nowhere
    else. *)
Lemma run_ext {A : Type} (r : regex) :
  forall (i : cursor) (g : groups) (k1 k2 : cursor -> groups -> option A),
    (forall j g', reach i j -> k1 j g' = k2 j g') ->
    run r i g k1 = run r i g k2.
Proof.
  induction r as [|p|a IHa b IHb|a IHa b IHb|r IH|r IH|n r IH|r IH|];
    intros i g k1 k2 H; cbn [run].
  - apply H, reach_refl.
  - destruct (rest i) as [|c s'] eqn:E; auto.
    destruct (p c); auto. apply H. unfold reach. simpl. rewrite E. simpl. lia.
  - apply IHa. intros j g' Hj. apply IHb. intros l g'' Hl.
    apply H. eapply reach_trans; eauto.
  - now rewrite (IHa i g k1 k2 H), (IHb i g k1 k2 H).
  - generalize (S (String.length (rest i))). intros n. revert i g H.
    induction n as [|n IHn]; intros i g H; simpl.
    + apply H, reach_refl.
    + unfold turn. rewrite (H i g (reach_refl i)). f_equal.
      apply IH. intros j g' Hj. destruct (Nat.ltb (offset i) (offset j)); auto.
      apply IHn. intros l g'' Hl. apply H. eapply reach_trans; eauto.
  - generalize (S (String.length (rest i))). intros n. revert i g H.
    induction n as [|n IHn]; intros i g H; simpl.
    + apply H, reach_refl.
    + unfold turn. rewrite (H i g (reach_refl i)). f_equal.
      apply IH. intros j g' Hj. destruct (Nat.ltb (offset i) (offset j)); auto.
      apply IHn. intros l g'' Hl. apply H. eapply reach_trans; eauto.
  - apply IH. intros j g' Hj. now apply H.
  - destruct (run r i g (fun _ g' => Some g')); auto. apply H, reach_refl.
  - destruct (rest i) as [|c [|]]; auto; [apply H, reach_refl|].
    destruct (Ascii.eqb c NL); auto. apply H, reach_refl.
Qed.

(** The number of turns allowed to a greedy repetition is no limit: any
    number above the length of the text left gives the same result. *)
Lemma greedy_fuel {A : Type} (r : regex) (k : cursor -> groups -> option A) :
  forall (n m : nat) (i : cursor) (g : groups),
    String.length (rest i) < n -> String.length (rest i) < m ->
    greedy (run r) k n i g = greedy (run r) k m i g.
Proof.
  induction n as [|n IHn]; intros m i g Hn Hm; [lia|].
  destruct m as [|m]; [lia|]. simpl. f_equal. unfold turn.
  apply run_ext. intros j g' [Ho Hl].
  destruct (Nat.ltb_spec (offset i) (offset j)); auto.
  apply IHn; lia.
Qed.

Lemma lazy_fuel {A : Type} (r : regex) (k : cursor -> groups -> option A) :
  forall (n m : nat) (i : cursor) (g : groups),
    String.length (rest i) < n -> String.length (rest i) < m ->
    lazy (run r) k n i g = lazy (run r) k m i g.
Proof.
  induction n as [|n IHn]; intros m i g Hn Hm; [lia|].
  destruct m as [|m]; [lia|]. simpl. f_equal. unfold turn.
  apply run_ext. intros j g' [Ho Hl].
  destruct (Nat.ltb_spec (offset i) (offset j)); auto.
  apply IHn; lia.
Qed.

End Fuel.

(** ** The candidates of the JSON parsers *)

Section Candidates.

Import Str Re Parser Samples.

Lemma substring_append (s t : string) : substring 0 (String.length s) (s ++ t) = s.
Proof.
  induction s as [|c s IH]; simpl.
  - now destruct t.
  - now rewrite IH.
Qed.

Lemma match_here_lang (r : regex) (s : string) (len : nat) (g : groups) :
  match_here r s = Some (len, g) -> lang r (substring 0 len s).
Proof.
  unfold match_here. intros H. apply run_sound in H.
  destruct H as [t [j [g' [L [R [O K]]]]]]. simpl in *.
  inversion K as [[Hl Hg]]. rewrite R, O. simpl. now rewrite substring_append.
Qed.

Lemma scan_hits_lang (r : regex) (s : string) :
  forall skip m g, In (m, g) (hits (scan r skip s)) -> lang r m.
Proof.
  induction s as [|c s IH]; intros skip m g H.
  - destruct skip; simpl in H; [|contradiction].
    destruct (match_here r EmptyString) as [[len g0]|] eqn:E; simpl in H;
      [|contradiction].
    destruct H as [H|[]]. inversion H; subst. exact (match_here_lang _ _ _ _ E).
  - destruct skip as [|skip]; simpl in H; [|eauto].
    destruct (match_here r (String c s)) as [[len g0]|] eqn:E.
    + simpl in H. destruct H as [H|H].
      * inversion H; subst. exact (match_here_lang _ _ _ _ E).
      * destruct len; simpl in H; eauto.
    + simpl in H. eauto.
Qed.

(** Every text [re.findall] returns belongs to the pattern. *)
Lemma findall_lang (r : regex) (s c : string) : In c (findall r s) -> lang r c.
Proof.
  unfold findall. rewrite in_map_iff. intros [[m g] [E H]]. simpl in E. subst.
  eapply scan_hits_lang; eauto.
Qed.

Lemma lang_cls_inv (p : ascii -> bool) (s : string) :
  lang (Cls p) s -> exists c, s = String c EmptyString /\ p c = true.
Proof. intros H. inversion H; subst. eauto. Qed.

Lemma lang_cat_inv (a b : regex) (s : string) :
  lang (Cat a b) s -> exists s1 s2, s = s1 ++ s2 /\ lang a s1 /\ lang b s2.
Proof. intros H. inversion H; subst. eauto. Qed.

Lemma lang_star_ind (r : regex) (P : string -> Prop) :
  P EmptyString -> (forall s t, lang r s -> P t -> P (s ++ t)) ->
  forall s, lang (Star r) s -> P s.
Proof.
  intros P0 P1 s H. remember (Star r) as r' eqn:E.
  induction H; inversion E; subst; auto.
Qed.

(** *** Depth of braces *)

Lemma depth_after_app (s t : string) (d : nat) :
  depth_after d (s ++ t) = depth_after (depth_after d s) t.
Proof.
  revert d. induction s as [|c s IH]; intros d; simpl; auto.
  destruct (Ascii.eqb c "{"); [|destruct (Ascii.eqb c "}")]; auto.
Qed.

Lemma deepest_ge (s : string) (d : nat) : d <= deepest d s.
Proof.
  revert d. induction s as [|c s IH]; intros d; simpl; auto.
  destruct (Ascii.eqb c "{"); [|destruct (Ascii.eqb c "}")]; auto.
  - specialize (IH (S d)). lia.
  - lia.
Qed.

Lemma deepest_app (s t : string) (d : nat) :
  deepest d (s ++ t) = Nat.max (deepest d s) (deepest (depth_after d s) t).
Proof.
  revert d. induction s as [|c s IH]; intros d; simpl.
  - pose proof (deepest_ge t d). lia.
  - destruct (Ascii.eqb c "{"); [|destruct (Ascii.eqb c "}")]; auto.
    rewrite IH. lia.
Qed.

Lemma no_brace_char (c : ascii) :
  negb (has_char c "{}") = true ->
  Ascii.eqb c "{" = false /\ Ascii.eqb c "}" = false.
Proof.
  rewrite !has_char_cons. intros H.
  apply negb_true_iff in H. apply orb_false_elim in H. destruct H as [H1 H2].
  apply orb_false_elim in H2. destruct H2 as [H2 _].
  rewrite Ascii.eqb_sym in H1. rewrite Ascii.eqb_sym in H2. auto.
Qed.

(** A run of characters other than braces keeps the depth. *)
Lemma plain_depth (s : string) :
  lang (Star (noneof "{}")) s ->
  forall d, depth_after d s = d /\ deepest d s = d.
Proof.
  apply (lang_star_ind (noneof "{}")
           (fun s => forall d, depth_after d s = d /\ deepest d s = d)).
  - intros d. auto.
  - intros s1 t L IH d. apply lang_cls_inv in L. destruct L as [c [E P]]. subst.
    apply no_brace_char in P. destruct P as [P1 P2]. simpl. rewrite P1, P2. apply IH.
Qed.

(** A block of the pattern, an inner pair of braces and what follows it,
    entered at depth 1, reaches depth 2 and ends at depth 1. *)
Lemma block_depth (s : string) :
  lang (seq [chr "{"; Star (noneof "{}"); chr "}"; Star (noneof "{}")]) s ->
  depth_after 1 s = 1 /\ deepest 1 s = 2.
Proof.
  intros H. simpl in H.
  apply lang_cat_inv in H. destruct H as [o [s1 [E1 [Ho H]]]].
  apply lang_cat_inv in H. destruct H as [p1 [s2 [E2 [Hp1 H]]]].
  apply lang_cat_inv in H. destruct H as [c [p2 [E3 [Hc Hp2]]]].
  apply lang_cls_inv in Ho. destruct Ho as [x [Ex Px]].
  apply lang_cls_inv in Hc. destruct Hc as [y [Ey Py]].
  apply Ascii.eqb_eq in Px. apply Ascii.eqb_eq in Py. subst.
  destruct (plain_depth _ Hp1 2) as [A1 B1].
  destruct (plain_depth _ Hp2 1) as [A2 B2].
  simpl. rewrite depth_after_app, deepest_app, A1, B1. simpl.
  rewrite A2, B2. auto.
Qed.

Lemma blocks_depth (s : string) :
  lang (Star (seq [chr "{"; Star (noneof "{}"); chr "}"; Star (noneof "{}")])) s ->
  depth_after 1 s = 1 /\ deepest 1 s <= 2.
Proof.
  apply (lang_star_ind _ (fun s => depth_after 1 s = 1 /\ deepest 1 s <= 2)).
  - simpl. auto.
  - intros b t Hb [A B]. apply block_depth in Hb. destruct Hb as [Ab Bb].
    rewrite depth_after_app, deepest_app, Ab, Bb. split; [exact A | lia].
Qed.

(** A text of [json_object] opens with a brace, closes every brace it
    opens and nests no deeper than two. *)
Lemma json_object_depth (c : string) :
  lang json_object c ->
  prefix "{" c = true /\ depth_after 0 c = 0 /\ nesting c <= 2.
Proof.
  intros H. unfold json_object in H. simpl in H.
  apply lang_cat_inv in H. destruct H as [o [s1 [E1 [Ho H]]]].
  apply lang_cat_inv in H. destruct H as [p [s2 [E2 [Hp H]]]].
  apply lang_cat_inv in H. destruct H as [b [e [E3 [Hb He]]]].
  apply lang_cls_inv in Ho. destruct Ho as [x [Ex Px]].
  apply lang_cls_inv in He. destruct He as [y [Ey Py]].
  apply Ascii.eqb_eq in Px. apply Ascii.eqb_eq in Py. subst.
  destruct (plain_depth _ Hp 1) as [A1 B1].
  destruct (blocks_depth _ Hb) as [A2 B2].
  split; [simpl; now destruct (p ++ b ++ String "}" EmptyString)|].
  unfold nesting. cbn [append depth_after deepest Ascii.eqb Bool.eqb].
  rewrite !depth_after_app, !deepest_app, A1, B1, A2.
  cbn [depth_after deepest Ascii.eqb Bool.eqb Nat.sub].
  split; [reflexivity|]. pose proof (deepest_ge b 1). lia.
Qed.

End Candidates.

(** ** The JSON section parsers, candidate by candidate *)

Section JsonSections.

Import Str Re Parser Samples.

Lemma repaired_records (rt : Runtime) (c : string) (results : list Dict) :
  repaired rt c results
  = bind (cascade_records rt c) (fun records => Ok (results ++ records)%list).
Proof.
  unfold repaired, cascade_records.
  destruct (_attempt_json_fixes rt c) as [v|e]; simpl; auto.
  destruct (truthy v); simpl; [|now rewrite app_nil_r].
  destruct (tag_json v true); reflexivity.
Qed.

Lemma malformed_loop_gather (rt : Runtime) (l : list string) (results : list Dict) :
  malformed_loop rt l results
  = bind (gather (cascade_records rt) l) (fun more => Ok (results ++ more)%list).
Proof.
  revert results. induction l as [|c l IH]; intros results; simpl.
  - now rewrite app_nil_r.
  - rewrite repaired_records.
    destruct (cascade_records rt c) as [records|e]; simpl; auto.
    rewrite IH. destruct (gather (cascade_records rt) l); simpl; auto.
    now rewrite app_assoc.
Qed.

Lemma json_section_loop_gather (rt : Runtime) (l : list string) (results : list Dict) :
  json_section_loop rt l results
  = bind (gather (inline_records rt) l) (fun more => Ok (results ++ more)%list).
Proof.
  revert results. induction l as [|c l IH]; intros results; simpl.
  - now rewrite app_nil_r.
  - unfold inline_records at 1. rewrite repaired_records.
    destruct (json_loads rt c) as [v|e|e]; simpl; auto.
    + destruct v; rewrite IH; destruct (gather (inline_records rt) l); simpl; auto;
        now rewrite <- app_assoc.
    + destruct (cascade_records rt c) as [records|e']; simpl; auto.
      rewrite IH. destruct (gather (inline_records rt) l); simpl; auto.
      now rewrite <- app_assoc.
Qed.

Lemma from_array_tagged (items : list Value) (r : Dict) :
  In r (flat_map from_array items) ->
  dict_get "from_array" r = Some (VBool true)
  /\ dict_get "data_type" r = Some (VStr "json_object").
Proof.
  rewrite in_flat_map. intros [item [_ H]].
  destruct item; simpl in H; try contradiction.
  destruct H as [H|[]]. subst r.
  split; repeat (rewrite dict_get_set; simpl); reflexivity.
Qed.

(** *** The decoder on a text that opens with a brace *)

Lemma members_returns_dict (fuel : nat) :
  forall (s : string) (acc : Dict) (v : Value) (r : string),
    Json.members fuel s acc = inr (v, r) -> exists d, v = VDict d.
Proof.
  induction fuel as [|fuel IH]; intros s acc v r H; simpl in H; [discriminate|].
  destruct s as [|c s]; [discriminate|].
  destruct (Ascii.eqb c DQ); [|discriminate].
  destruct (Json.scanstring _ s) as [f|[key r1]]; [discriminate|].
  destruct (Json.skip_ws r1) as [|c1 r2]; [discriminate|].
  destruct (Ascii.eqb_spec c1 ":"); [subst c1|].
  - destruct (Json.value fuel (Json.skip_ws r2)) as [f|[v' r3]]; [discriminate|].
    destruct (Json.skip_ws r3) as [|c2 r4]; [discriminate|].
    destruct (Ascii.eqb_spec c2 "}"); [subst c2|].
    + inversion H; subst. eauto.
    + destruct (Ascii.eqb_spec c2 ","); [subst c2; eauto|].
      exfalso. revert H. clear - n n0.
      destruct c2 as [[] [] [] [] [] [] [] []]; try discriminate; congruence.
  - exfalso. revert H. clear - n.
    destruct c1 as [[] [] [] [] [] [] [] []]; try discriminate; congruence.
Qed.

Lemma value_brace_returns_dict (fuel : nat) (s : string) (v : Value) (r : string) :
  Json.value fuel (String "{" s) = inr (v, r) -> exists d, v = VDict d.
Proof.
  destruct fuel as [|fuel]; simpl; [discriminate|].
  destruct (Json.skip_ws s) as [|c s'] eqn:E.
  - intros H. eapply members_returns_dict; eauto.
  - destruct (Ascii.eqb_spec c "}"); [subst c|].
    + intros H. inversion H. eauto.
    + intros H. apply (members_returns_dict fuel (String c s') [] v r).
      revert H. clear - n.
      destruct c as [[] [] [] [] [] [] [] []]; auto; congruence.
Qed.

(** [json.loads] of a text that opens with a brace returns an object or
    raises: it never returns an array. *)
Lemma loads_brace_not_array (s : string) (items : list Value) :
  prefix "{" s = true -> Json.loads s <> Decoded (VList items).
Proof.
  destruct s as [|c s]; [discriminate|]. intros H.
  change (prefix "{" (String c s))
    with (if ascii_dec "{" c then prefix EmptyString s else false) in H.
  destruct (ascii_dec "{" c) as [E|E]; [subst c | discriminate H]. clear H.
  unfold Json.loads.
  change (Json.skip_ws (String "{" s)) with (String "{"%char s).
  destruct (Json.value _ (String "{" s)) as [[msg n| |]|[v r]] eqn:E; try discriminate.
  apply value_brace_returns_dict in E. destruct E as [d E]. subst v.
  destruct (Json.skip_ws r); discriminate.
Qed.

(** C7 (as amended).  The candidates of both JSON parsers are the
    matches of [json_object]: each opens with a brace, closes every brace
    it opens and nests at most two deep.  [_parse_json_section] takes them
    in order: the object [json.loads] returns is kept with
    [was_malformed] false; the dict elements of an array it returns are
    kept, each tagged [from_array]; the cascade is called when
    [json.loads] raises [JSONDecodeError].  [_parse_malformed_json] sends
    every candidate to the cascade without decoding it first. *)
Theorem json_parsers_candidates (rt : Runtime) (content : string) :
  (forall c, In c (findall json_object content) ->
             prefix "{" c = true /\ depth_after 0 c = 0 /\ nesting c <= 2)
  /\ _parse_json_section rt content
     = gather (inline_records rt) (findall json_object content)
  /\ _parse_malformed_json rt content
     = gather (cascade_records rt) (findall json_object content)
  /\ (forall items r,
        In r (flat_map from_array items) ->
        dict_get "from_array" r = Some (VBool true)
        /\ dict_get "data_type" r = Some (VStr "json_object")).
Proof.
  split; [|split; [|split]].
  - intros c H. apply json_object_depth. eapply findall_lang; eauto.
  - unfold _parse_json_section. rewrite json_section_loop_gather.
    now destruct (gather (inline_records rt) (findall json_object content)).
  - unfold _parse_malformed_json. rewrite malformed_loop_gather.
    now destruct (gather (cascade_records rt) (findall json_object content)).
  - apply from_array_tagged.
Qed.

Lemma json_parsers_candidates_witness :
  (prefix "{" two_deep = true /\ depth_after 0 two_deep = 0 /\ nesting two_deep <= 2)
  /\ dict_get "from_array"
       [("a", VInt 1); ("data_type", VStr "json_object");
        ("was_malformed", VBool false); ("from_array", VBool true)]
     = Some (VBool true).
Proof.
  destruct (json_parsers_candidates (bare_runtime clock) three_deep)
    as [H1 [_ [_ H4]]].
  assert (H : In two_deep (findall json_object three_deep))
    by (vm_compute; left; reflexivity).
  split; [exact (H1 _ H)|].
  apply (H4 [VDict [("a", VInt 1)]]). vm_compute. left. reflexivity.
Defined.

(** The pattern [json_patterns['json_array']] is not used by any parser,
    and no candidate of [json_object] decodes to an array. *)
Lemma candidates_are_not_arrays (content c : string) (items : list Value) :
  In c (findall json_object content) -> Json.loads c <> Decoded (VList items).
Proof.
  intros H. apply loads_brace_not_array.
  apply json_object_depth. eapply findall_lang; eauto.
Qed.

(** C7, counterexample.  [three_deep] is a JSON object, balanced, nested
    three deep; the only candidate found in it is the object inside, and
    that is what [_parse_json_section] returns.  And a well-formed object
    in a malformed-JSON section goes through the cascade all the same and
    comes out tagged [was_malformed]. *)
Lemma deep_object_is_not_a_candidate :
  Json.loads three_deep
  = Decoded (VDict [("a", VDict [("b", VDict [("c", VInt 1)])])])
  /\ depth_after 0 three_deep = 0
  /\ nesting three_deep = 3
  /\ findall json_object three_deep = [two_deep]
  /\ ~ In three_deep (findall json_object three_deep)
  /\ _parse_json_section (bare_runtime clock) three_deep
     = Ok [[("b", VDict [("c", VInt 1)]); ("data_type", VStr "json_object");
            ("was_malformed", VBool false)]]
  /\ _parse_malformed_json (bare_runtime clock) well_formed
     = Ok [[("a", VInt 1); ("data_type", VStr "json_object");
            ("was_malformed", VBool true)]].
Proof.
  assert (H : findall json_object three_deep = [two_deep]) by (vm_compute; reflexivity).
  repeat split; try (vm_compute; reflexivity).
  rewrite H. intros [E|[]]. vm_compute in E. discriminate E.
Qed.

End JsonSections.

(** * Further properties *)

(** ** The sections of a document *)

Section Sections.
Import Str Re Parser.

Lemma skip_i_cons (c x : ascii) (m s : string) :
  skip_i (String c m) (String x s)
  = if Ascii.eqb (lower_char x) (lower_char c) then skip_i m s else None.
Proof. reflexivity. Qed.

Lemma run_lit_i {A : Type} (m : string) :
  forall (i : cursor) (g : groups) (k : cursor -> groups -> option A),
    run (lit_i m) i g k =
    match skip_i m (rest i) with
    | Some r => k (Cursor (offset i + String.length m) r) g
    | None => None
    end.
Proof.
  induction m as [|c m IH]; intros i g k.
  - simpl. rewrite Nat.add_0_r. now destruct i.
  - destruct m as [|c' m'].
    + simpl. destruct (rest i) as [|x s']; auto.
      destruct (Ascii.eqb _ _); auto. now rewrite Nat.add_1_r.
    + change (lit_i (String c (String c' m'))) with (Cat (chr_i c) (lit_i (String c' m'))).
      cbn [run chr_i]. destruct (rest i) as [|x s'] eqn:E; [reflexivity|].
      rewrite skip_i_cons. destruct (Ascii.eqb _ _); auto.
      rewrite IH. cbn [rest offset]. destruct (skip_i _ s'); auto.
      f_equal. f_equal. simpl. lia.
Qed.

(** A lazy [.*?] with DOTALL hands over at the first position where what
    follows succeeds. *)
Lemma lazy_dotall {A : Type} (k : cursor -> groups -> option A) (g : groups) :
  forall (s : string) (n off : nat),
    String.length s < n ->
    lazy (run dotall) k n (Cursor off s) g = first_some k off s g.
Proof.
  induction s as [|c s IH]; intros n off H; (destruct n as [|n]; [simpl in H; lia|]).
  - cbn [lazy first_some]. f_equal.
  - cbn [lazy first_some]. f_equal. unfold turn. cbn [run dotall rest offset].
    rewrite (proj2 (Nat.ltb_lt off (S off))) by lia.
    apply IH. simpl in H. lia.
Qed.

(** The lookahead of a section pattern. *)
Lemma run_ahead {A : Type} (i : cursor) (g : groups)
    (k : cursor -> groups -> option A) :
  run (Ahead (Alt (lit_i "---") Dollar)) i g k
  = if ahead (rest i) then k i g else None.
Proof.
  cbn [run]. rewrite run_lit_i. unfold ahead.
  destruct (skip_i "---" (rest i)); [reflexivity|]. cbn [orelse].
  destruct (rest i) as [|c [|]]; auto. now destruct (Ascii.eqb c NL).
Qed.

Lemma first_some_stop (g : groups) :
  forall (s : string) (off : nat),
    first_some (fun j g' => if ahead (rest j) then Some (offset j, g') else None) off s g
    = Some (off + stop s, g).
Proof.
  induction s as [|c s IH]; intros off.
  - cbn. now rewrite Nat.add_0_r.
  - cbn [first_some stop rest offset]. destruct (ahead (String c s)).
    + cbn. now rewrite Nat.add_0_r.
    + cbn [orelse]. rewrite IH. f_equal. f_equal. lia.
Qed.

Lemma first_some_ext {A : Type} (k1 k2 : cursor -> groups -> option A) (g : groups) :
  (forall j g', k1 j g' = k2 j g') ->
  forall (s : string) (off : nat), first_some k1 off s g = first_some k2 off s g.
Proof.
  intros H. induction s as [|c s IH]; intros off; cbn [first_some]; rewrite H; auto.
  now rewrite IH.
Qed.

(** Where a section pattern matches, and how far: the marker must be
    there, and the match runs to the first position where the lookahead
    holds. *)
Lemma match_here_section (marker s : string) :
  match_here (section_pattern marker) s
  = match skip_i marker s with
    | Some r => Some (String.length marker + stop r, [])
    | None => None
    end.
Proof.
  unfold match_here, section_pattern. cbn [seq run]. rewrite run_lit_i.
  cbn [rest offset]. destruct (skip_i marker s) as [r|]; [|reflexivity].
  rewrite lazy_dotall by (cbn; lia).
  rewrite <- first_some_stop. apply first_some_ext. intros j g'.
  exact (run_ahead j g' (fun j g => Some (offset j, g))).
Qed.

(** Every match [re.findall] reports was found at some position of the
    text: it is the start of what is left there. *)
Lemma scan_hits_at (r : regex) (s : string) :
  forall skip m g,
    In (m, g) (hits (scan r skip s)) ->
    exists pre t len,
      s = pre ++ t /\ match_here r t = Some (len, g) /\ m = substring 0 len t.
Proof.
  induction s as [|c s IH]; intros skip m g H.
  - destruct skip; simpl in H; [|contradiction].
    destruct (match_here r EmptyString) as [[len g0]|] eqn:E; simpl in H;
      [|contradiction].
    destruct H as [H|[]]. inversion H; subst.
    exists EmptyString, EmptyString, len. auto.
  - assert (later : forall skip', In (m, g) (hits (scan r skip' s)) ->
              exists pre t len, String c s = pre ++ t
                /\ match_here r t = Some (len, g) /\ m = substring 0 len t).
    { intros skip' H'. destruct (IH _ _ _ H') as [pre [t [len [P [M S]]]]].
      exists (String c pre), t, len. simpl. now rewrite <- P. }
    destruct skip as [|skip]; simpl in H; [|eauto].
    destruct (match_here r (String c s)) as [[len g0]|] eqn:E.
    + simpl in H. destruct H as [H|H].
      * inversion H; subst. exists EmptyString, (String c s), len. auto.
      * destruct len; simpl in H; eauto.
    + simpl in H. eauto.
Qed.

Lemma findall_at (r : regex) (s m : string) :
  In m (findall r s) ->
  exists pre t len g,
    s = pre ++ t /\ match_here r t = Some (len, g) /\ m = substring 0 len t.
Proof.
  unfold findall. rewrite in_map_iff. intros [[m' g] [E H]]. simpl in E. subst.
  destruct (scan_hits_at _ _ _ _ _ H) as [pre [t [len [P [M S]]]]].
  exists pre, t, len, g. auto.
Qed.

(** What [skip_i] skips is the marker in some case. *)
Lemma skip_i_split (m : string) :
  forall (t r : string),
    skip_i m t = Some r ->
    exists head, t = head ++ r /\ String.length head = String.length m
                 /\ lower head = lower m.
Proof.
  induction m as [|c m IH]; intros t r H.
  - inversion H; subst. now exists EmptyString.
  - destruct t as [|x t]; [discriminate|]. rewrite skip_i_cons in H.
    destruct (Ascii.eqb_spec (lower_char x) (lower_char c)) as [E|]; [|discriminate].
    destruct (IH _ _ H) as [head [T [L W]]].
    exists (String x head). simpl. now rewrite T, L, W, E at 1.
Qed.

Lemma skip_i_app (a b : string) :
  forall (t r : string),
    skip_i (a ++ b) t = Some r -> exists r', skip_i a t = Some r'.
Proof.
  induction a as [|c a IH]; intros t r H.
  - simpl. eauto.
  - destruct t as [|x t]; [discriminate|]. simpl in *.
    destruct (Ascii.eqb _ _); [eauto|discriminate].
Qed.

Lemma substring_app_head (head r : string) (n : nat) :
  substring 0 (String.length head + n) (head ++ r) = head ++ substring 0 n r.
Proof. induction head as [|c head IH]; simpl; congruence. Qed.

Lemma lower_dash (x : ascii) :
  Ascii.eqb (lower_char x) (lower_char "-") = true -> x = "-"%char.
Proof.
  destruct x as [[|] [|] [|] [|] [|] [|] [|] [|]]; vm_compute; intros; congruence.
Qed.

Lemma lower_equals (x : ascii) :
  Ascii.eqb (lower_char x) (lower_char "=") = true -> x = "="%char.
Proof.
  destruct x as [[|] [|] [|] [|] [|] [|] [|] [|]]; vm_compute; intros; congruence.
Qed.

Lemma prefix_cons (c x : ascii) (p s : string) :
  prefix (String c p) (String x s) = if Ascii.eqb c x then prefix p s else false.
Proof.
  simpl. destruct (ascii_dec c x) as [E|N].
  - subst. now rewrite Ascii.eqb_refl.
  - apply Ascii.eqb_neq in N. now rewrite N.
Qed.

Lemma skip_i_rule (t r : string) : skip_i "---" t = Some r -> prefix "---" t = true.
Proof.
  destruct t as [|a [|b [|c t]]]; try discriminate; cbn [skip_i].
  - destruct (Ascii.eqb _ _); discriminate.
  - destruct (Ascii.eqb (lower_char a) _); [|discriminate].
    destruct (Ascii.eqb _ _); discriminate.
  - destruct (Ascii.eqb (lower_char a) _) eqn:A; [|discriminate].
    destruct (Ascii.eqb (lower_char b) _) eqn:B; [|discriminate].
    destruct (Ascii.eqb (lower_char c) _) eqn:C; [|discriminate].
    apply lower_dash in A, B, C. subst.
    rewrite !prefix_cons, !Ascii.eqb_refl. now destruct t.
Qed.

Lemma skip_i_equals (t r : string) : skip_i "===" t = Some r -> prefix "===" t = true.
Proof.
  destruct t as [|a [|b [|c t]]]; try discriminate; cbn [skip_i].
  - destruct (Ascii.eqb _ _); discriminate.
  - destruct (Ascii.eqb (lower_char a) _); [|discriminate].
    destruct (Ascii.eqb _ _); discriminate.
  - destruct (Ascii.eqb (lower_char a) _) eqn:A; [|discriminate].
    destruct (Ascii.eqb (lower_char b) _) eqn:B; [|discriminate].
    destruct (Ascii.eqb (lower_char c) _) eqn:C; [|discriminate].
    apply lower_equals in A, B, C. subst.
    rewrite !prefix_cons, !Ascii.eqb_refl. now destruct t.
Qed.

Lemma prefix_skip_i (p : string) :
  forall (a b : string), prefix p a = true -> exists r, skip_i p (a ++ b) = Some r.
Proof.
  induction p as [|c p IH]; intros a b H.
  - simpl. eauto.
  - destruct a as [|x a]; [discriminate|]. rewrite prefix_cons in H.
    destruct (Ascii.eqb_spec c x); [|discriminate]. subst.
    simpl. rewrite Ascii.eqb_refl. eauto.
Qed.

(** The text before the first position where the lookahead holds has no
    rule in it, and the lookahead holds of what comes after. *)
Lemma stop_split (r : string) :
  exists post,
    r = substring 0 (stop r) r ++ post /\ ahead post = true
    /\ contains "---" (substring 0 (stop r) r) = false.
Proof.
  induction r as [|c r [post [R [A C]]]].
  - exists EmptyString. auto.
  - cbn [stop]. destruct (ahead (String c r)) eqn:E.
    + exists (String c r). auto.
    + exists post. cbn [substring]. repeat split; auto.
      * simpl. now rewrite <- R.
      * cbn [contains]. rewrite C, orb_false_r.
        destruct (prefix "---" (String c (substring 0 (stop r) r))) eqn:P; auto.
        destruct (prefix_skip_i _ _ post P) as [r' S].
        cbn [append] in S. rewrite <- R in S. unfold ahead in E. now rewrite S in E.
Qed.

Lemma ahead_cases (post : string) :
  ahead post = true ->
  post = EmptyString \/ post = str1 NL \/ prefix "---" post = true.
Proof.
  unfold ahead. destruct (skip_i "---" post) eqn:S.
  - intros _. right. right. eapply skip_i_rule; eauto.
  - destruct post as [|c [|]]; auto; [|discriminate].
    intros H. apply Ascii.eqb_eq in H. subst. auto.
Qed.

Lemma contains_suffix (p t : string) :
  forall pre, prefix p t = true -> contains p (pre ++ t) = true.
Proof.
  induction pre as [|c pre IH]; intros H; simpl.
  - destruct t; simpl in *; rewrite H; auto.
  - rewrite IH; auto. apply orb_true_r.
Qed.

(** The first match of a pattern is one of its matches. *)
Lemma first_match_in (name name' text : string) (pattern : regex) (content : string) :
  In (name', text) (first_match name pattern content) ->
  name' = name /\ In text (findall pattern content).
Proof.
  unfold first_match. destruct (findall pattern content) as [|m l]; [contradiction|].
  intros [H|[]]. inversion H; subst. simpl. auto.
Qed.

(** The patterns of the table: the fourteen markers and the variant block. *)
Lemma section_patterns_cases (name : string) (pattern : regex) :
  In (name, pattern) section_patterns ->
  (exists marker, pattern = section_pattern ("---" ++ marker))
  \/ (name = "variant_v2" /\ pattern = variant_pattern).
Proof.
  unfold section_patterns. intros H.
  repeat (destruct H as [H|H];
          [inversion H; subst;
           try (left; eexists; reflexivity); try (right; split; reflexivity)|]).
  contradiction.
Qed.

Lemma match_here_variant (t : string) (len : nat) (g : groups) :
  match_here variant_pattern t = Some (len, g) -> prefix "===" t = true.
Proof.
  unfold match_here, variant_pattern. cbn [seq run]. rewrite run_lit_i.
  cbn [rest]. destruct (skip_i _ t) as [r|] eqn:S; [|discriminate]. intros _.
  destruct (skip_i_app "===" " VARIANT v2 START ===" _ _ S) as [r' S'].
  eapply skip_i_equals; eauto.
Qed.

Lemma match_here_marker (marker t : string) (len : nat) (g : groups) :
  match_here (section_pattern ("---" ++ marker)) t = Some (len, g) ->
  prefix "---" t = true.
Proof.
  rewrite match_here_section. destruct (skip_i _ t) as [r|] eqn:S; [|discriminate].
  intros _. destruct (skip_i_app "---" marker _ _ S) as [r' S'].
  eapply skip_i_rule; eauto.
Qed.

End Sections.

Section SectionTheorems.
Import Str Re Parser Samples.

(** X1.  [_extract_sections] cuts a section at the first rule.  The text of a
    section other than the variant block is found in the document; it is
    the marker, in any case, and a body that holds no [---]; and what
    follows it in the document is a [---], a last line feed or nothing. *)
Theorem section_text_shape (content name text : string) :
  In (name, text) (_extract_sections content) ->
  name <> "variant_v2" ->
  exists marker head body pre post,
    In (name, section_pattern marker) section_patterns
    /\ content = pre ++ text ++ post
    /\ text = head ++ body
    /\ lower head = lower marker
    /\ contains "---" body = false
    /\ (post = EmptyString \/ post = nl \/ prefix "---" post = true).
Proof.
  unfold _extract_sections. rewrite in_flat_map. intros [[name' pattern] [P H]] V.
  apply first_match_in in H. simpl in H. destruct H as [N H]. subst name'.
  destruct (section_patterns_cases _ _ P) as [[marker E]|[E _]]; [|contradiction].
  subst pattern.
  destruct (findall_at _ _ _ H) as [pre [t [len [g [C [M T]]]]]].
  rewrite match_here_section in M.
  destruct (skip_i _ t) as [r|] eqn:S; [|discriminate]. inversion M; subst len g.
  destruct (skip_i_split _ _ _ S) as [head [Ht [L W]]].
  destruct (stop_split r) as [post [R [A B]]].
  exists ("---" ++ marker), head, (substring 0 (stop r) r), pre, post.
  assert (X : text = head ++ substring 0 (stop r) r).
  { rewrite T, Ht, <- substring_app_head. f_equal. now rewrite L. }
  repeat split; auto.
  - rewrite C, Ht, X, append_assoc. now rewrite <- R.
  - now apply ahead_cases.
Qed.

Lemma section_text_shape_witness :
  exists marker head body pre post,
    In ("metadata", section_pattern marker) section_patterns
    /\ ruled_metadata = pre ++ ("--- METADATA" ++ nl ++ "range: 1") ++ post
    /\ "--- METADATA" ++ nl ++ "range: 1" = head ++ body
    /\ lower head = lower marker
    /\ contains "---" body = false
    /\ (post = EmptyString \/ post = nl \/ prefix "---" post = true).
Proof.
  apply (section_text_shape ruled_metadata "metadata" ("--- METADATA" ++ nl ++ "range: 1")).
  - vm_compute. auto.
  - discriminate.
Defined.

Lemma flat_map_nil {A B : Type} (f : A -> list B) (l : list A) :
  (forall x, In x l -> f x = []) -> flat_map f l = [].
Proof.
  induction l as [|x l IH]; intros H; simpl; auto.
  rewrite H, IH; auto; simpl; auto. intros y Hy. apply H. now right.
Qed.

(** X2.  A document without [---] and without [===] has no section, and
    [parse_file] returns no record for it. *)
Theorem parse_file_without_markers (rt : Runtime) (content filename : string) :
  contains "---" content = false ->
  contains "===" content = false ->
  _extract_sections content = [] /\ parse_file rt content filename = [].
Proof.
  intros D E.
  assert (S : _extract_sections content = []).
  { unfold _extract_sections. apply flat_map_nil. intros [name pattern] P.
    unfold first_match. simpl.
    destruct (findall pattern content) as [|m l] eqn:F; [reflexivity|]. exfalso.
    assert (H : In m (findall pattern content)) by (rewrite F; now left).
    destruct (findall_at _ _ _ H) as [pre [t [len [g [C [M T]]]]]].
    destruct (section_patterns_cases _ _ P) as [[marker X]|[_ X]]; subst pattern.
    - apply match_here_marker in M. apply (contains_suffix _ _ pre) in M.
      congruence.
    - apply match_here_variant in M. apply (contains_suffix _ _ pre) in M.
      congruence. }
  split; [exact S|]. unfold parse_file. now rewrite S.
Qed.

Lemma parse_file_without_markers_witness :
  _extract_sections plain_csv = []
  /\ parse_file (bare_runtime clock) plain_csv "table.txt" = [].
Proof.
  apply (parse_file_without_markers (bare_runtime clock) plain_csv "table.txt");
    vm_compute; reflexivity.
Defined.

Lemma pattern_of_in (k : string) (v : regex) (l : list (string * regex)) :
  NoDup (map fst l) -> In (k, v) l -> pattern_of k l = Some v.
Proof.
  induction l as [|[k' v'] l IH]; intros N H; [contradiction|].
  simpl in *. inversion N as [|x y Nx Nl]; subst.
  destruct H as [H|H].
  - inversion H; subst. now rewrite String.eqb_refl.
  - destruct (String.eqb_spec k k'); auto. subst.
    exfalso. apply Nx. change k' with (fst (k', v)). now apply in_map.
Qed.

Lemma section_names_nodup : NoDup (map fst section_patterns).
Proof.
  unfold section_patterns. cbn [map fst].
  repeat (constructor; [cbn [In]; intuition discriminate|]). constructor.
Qed.

(** X3.  The sections come out in the order of the pattern table, each name
    at most once, whatever their order in the document. *)
Theorem extract_sections_order (content : string) :
  map fst (_extract_sections content)
  = filter (found content) (map fst section_patterns)
  /\ NoDup (map fst (_extract_sections content)).
Proof.
  assert (E : map fst (_extract_sections content)
              = filter (found content) (map fst section_patterns)).
  { unfold _extract_sections.
    assert (G : forall l,
               (forall np, In np l -> In np section_patterns) ->
               map fst (flat_map (fun np => first_match (fst np) (snd np) content) l)
               = filter (found content) (map fst l)).
    { induction l as [|[name pattern] l IH]; intros H; [reflexivity|].
      cbn [flat_map map filter fst snd]. rewrite map_app, IH by (intros; apply H; now right).
      unfold found at 2.
      rewrite (pattern_of_in name pattern) by (auto using section_names_nodup; apply H; now left).
      unfold first_match. now destruct (findall pattern content). }
    apply G. auto. }
  split; [exact E|]. rewrite E. apply NoDup_filter, section_names_nodup.
Qed.

End SectionTheorems.

(** ** The section parsers *)

Section Strings.
Import Str.

Lemma lstrip_by_head_ok (p : ascii -> bool) (s : string) :
  head_ok p (lstrip_by p s) = true.
Proof.
  induction s as [|c s IH]; simpl; auto.
  destruct (p c) eqn:E; auto. simpl. now rewrite E.
Qed.

Lemma lstrip_by_fix (p : ascii -> bool) (s : string) :
  head_ok p s = true -> lstrip_by p s = s.
Proof. destruct s as [|c s]; simpl; auto. now destruct (p c). Qed.

Lemma rstrip_by_last_ok (p : ascii -> bool) (s : string) :
  last_ok p (rstrip_by p s) = true.
Proof.
  induction s as [|c s IH]; simpl; auto.
  destruct (rstrip_by p s) as [|d r]; auto.
  destruct (p c) eqn:E; simpl; auto. now rewrite E.
Qed.

Lemma rstrip_by_fix (p : ascii -> bool) (s : string) :
  last_ok p s = true -> rstrip_by p s = s.
Proof.
  induction s as [|c s IH]; auto. destruct s as [|d s].
  - simpl. unfold str1. destruct (p c); simpl; congruence.
  - intros H. change (last_ok p (String c (String d s))) with (last_ok p (String d s)) in H.
    change (rstrip_by p (String c (String d s)))
      with (match rstrip_by p (String d s) with
            | EmptyString => if p c then EmptyString else str1 c
            | String _ _ as r => String c r
            end).
    now rewrite (IH H).
Qed.

Lemma rstrip_by_head_ok (p : ascii -> bool) (s : string) :
  head_ok p s = true -> head_ok p (rstrip_by p s) = true.
Proof.
  destruct s as [|c s]; simpl; auto. intros H.
  destruct (rstrip_by p s); auto. destruct (p c) eqn:E; simpl; rewrite ?E; auto.
Qed.

Lemma strip_by_fix (p : ascii -> bool) (s : string) :
  head_ok p s = true -> last_ok p s = true -> strip_by p s = s.
Proof.
  intros H L. unfold strip_by. rewrite lstrip_by_fix by auto. now apply rstrip_by_fix.
Qed.

(** Stripping twice is stripping once. *)
Lemma strip_by_idem (p : ascii -> bool) (s : string) :
  strip_by p (strip_by p s) = strip_by p s.
Proof.
  apply strip_by_fix.
  - unfold strip_by. apply rstrip_by_head_ok, lstrip_by_head_ok.
  - apply rstrip_by_last_ok.
Qed.

Lemma last_ok_app (p : ascii -> bool) (a b : string) :
  b <> EmptyString -> last_ok p (a ++ b) = last_ok p b.
Proof.
  intros N. induction a as [|c a IH]; auto.
  simpl. destruct (a ++ b) eqn:E; auto.
  destruct a; simpl in E; [contradiction | discriminate].
Qed.

Lemma last_ok_all (p q : ascii -> bool) (s : string) :
  (forall c, q c = true -> p c = false) ->
  all_chars q s = true -> last_ok p s = true.
Proof.
  intros H. induction s as [|c s IH]; auto. simpl. intros A.
  apply andb_prop in A. destruct A as [A1 A2].
  destruct s; auto. now rewrite (H _ A1).
Qed.

Lemma head_ok_all (p q : ascii -> bool) (s : string) :
  (forall c, q c = true -> p c = false) ->
  all_chars q s = true -> head_ok p s = true.
Proof.
  intros H. destruct s as [|c s]; auto. simpl. intros A.
  apply andb_prop in A. destruct A as [A1 A2]. now rewrite (H _ A1).
Qed.

Lemma has_char_app (c : ascii) (a b : string) :
  has_char c (a ++ b) = has_char c a || has_char c b.
Proof.
  induction a as [|x a IH].
  - simpl. unfold has_char at 2. simpl. now destruct b.
  - simpl. rewrite !has_char_cons, IH. now rewrite orb_assoc.
Qed.

Lemma has_char_all (c : ascii) (q : ascii -> bool) (s : string) :
  q c = false -> all_chars q s = true -> has_char c s = false.
Proof.
  intros H. induction s as [|x s IH]; auto. simpl. intros A.
  apply andb_prop in A. destruct A as [A1 A2].
  rewrite has_char_cons, IH by auto.
  destruct (Ascii.eqb_spec x c); auto. congruence.
Qed.

Lemma isword_not_space (c : ascii) : isword c = true -> isspace c = false.
Proof.
  destruct c as [[|] [|] [|] [|] [|] [|] [|] [|]]; vm_compute; intros; congruence.
Qed.

Lemma isdecimal_not_space (c : ascii) : isdecimal c = true -> isspace c = false.
Proof.
  destruct c as [[|] [|] [|] [|] [|] [|] [|] [|]]; vm_compute; intros; congruence.
Qed.

Lemma isdecimal_not_quote (c : ascii) :
  isdecimal c = true -> has_char c (str1 DQ) = false.
Proof.
  destruct c as [[|] [|] [|] [|] [|] [|] [|] [|]]; vm_compute; intros; congruence.
Qed.

End Strings.

Section Ambiguous.
Import Str Parser Samples.

Lemma digits_value_nonneg (s : string) :
  forall acc, (0 <= acc)%Z -> (0 <= digits_value acc s)%Z.
Proof.
  induction s as [|c s IH]; cbn [digits_value]; intros acc H; auto. apply IH. lia.
Qed.

Lemma dict_set_values (P : Value -> Prop) (k : string) (v : Value) (d : Dict) :
  P v -> Forall (fun kv => P (snd kv)) d ->
  Forall (fun kv => P (snd kv)) (dict_set k v d).
Proof.
  intros Hv. induction d as [|[k' v'] d IH]; simpl; intros H.
  - auto.
  - inversion H; subst. destruct (String.eqb k k'); auto.
Qed.

Lemma dict_get_values (P : Value -> Prop) (k : string) (d : Dict) (v : Value) :
  Forall (fun kv => P (snd kv)) d -> dict_get k d = Some v -> P v.
Proof.
  induction d as [|[k' v'] d IH]; simpl; intros H G; [discriminate|].
  inversion H; subst. destruct (String.eqb k k'); auto. now inversion G; subst.
Qed.

Lemma ambiguous_line_values (result : Dict) (line : string) :
  Forall (fun kv => ambiguous_value (snd kv)) result ->
  Forall (fun kv => ambiguous_value (snd kv)) (ambiguous_line result line).
Proof.
  intros H. unfold ambiguous_line. destruct (colon_line line); auto.
  destruct (split1 ":" line) as [[key value]|]; auto.
  set (k := strip key). set (v := strip_chars (str1 DQ) (strip value)).
  unfold with_original.
  destruct (mem (lower v) _).
  { repeat apply dict_set_values; simpl; auto. }
  destruct (String.eqb v "N/A").
  { repeat apply dict_set_values; simpl; auto. }
  destruct (isdigit v).
  { destruct (all_chars isdecimal v); auto.
    repeat apply dict_set_values; simpl; auto. apply digits_value_nonneg. lia. }
  destruct (_is_float v) eqn:F.
  { unfold _is_float in F. apply andb_prop in F.
    repeat apply dict_set_values; simpl; tauto. }
  apply dict_set_values; simpl; auto.
Qed.

(** X4.  What [_parse_ambiguous_types] stores under any key is a text, a
    boolean, [None], an integer that is not negative or a float whose
    text has a point and that [float()] accepts: never a negative
    integer, a list or a dict. *)
Theorem ambiguous_types_values (content key : string) (r : Dict) (v : Value) :
  In r (_parse_ambiguous_types content) ->
  dict_get key r = Some v ->
  ambiguous_value v.
Proof.
  unfold _parse_ambiguous_types.
  set (result := fold_left ambiguous_line _ _).
  assert (H : Forall (fun kv => ambiguous_value (snd kv)) result).
  { subst result. generalize (split NL content).
    assert (G : forall lines start,
               Forall (fun kv => ambiguous_value (snd kv)) start ->
               Forall (fun kv => ambiguous_value (snd kv))
                      (fold_left ambiguous_line lines start)).
    { induction lines as [|l lines IH]; simpl; auto using ambiguous_line_values. }
    intros lines. apply G. repeat constructor. }
  destruct (Nat.ltb 1 (List.length result)); [|contradiction].
  intros [E|[]] G. subst r. eapply dict_get_values; eauto.
Qed.

Lemma ambiguous_types_values_witness : ambiguous_value (VInt 42).
Proof.
  apply (ambiguous_types_values ("count: 42" ++ nl ++ "delta: -5") "count"
           [("data_type", VStr "ambiguous_types"); ("count", VInt 42);
            ("count_original", VStr "42"); ("delta", VStr "-5")]
           (VInt 42)).
  - vm_compute. auto.
  - reflexivity.
Defined.

Lemma isword_not_hash (c : ascii) (s : string) :
  isword c = true -> startswith "#" (String c s) = false.
Proof.
  unfold startswith. rewrite prefix_cons.
  destruct c as [[|] [|] [|] [|] [|] [|] [|] [|]]; vm_compute; intros; congruence.
Qed.

Lemma isword_not_rule (c : ascii) (s : string) :
  isword c = true -> startswith "---" (String c s) = false.
Proof.
  unfold startswith. rewrite prefix_cons.
  destruct c as [[|] [|] [|] [|] [|] [|] [|] [|]]; vm_compute; intros; congruence.
Qed.

Lemma isword_not_colon (c : ascii) : isword c = true -> Ascii.eqb c ":" = false.
Proof.
  destruct c as [[|] [|] [|] [|] [|] [|] [|] [|]]; vm_compute; intros; congruence.
Qed.

Lemma all_chars_no_colon (key : string) :
  all_chars isword key = true -> has_char ":" key = false.
Proof.
  induction key as [|c key IH]; auto. simpl. intros A.
  apply andb_prop in A. destruct A as [A1 A2].
  now rewrite has_char_cons, isword_not_colon, IH.
Qed.

(** X5.  A signed integer is kept as text.  A line [key: -digits] of
    [_parse_ambiguous_types] stores the text [-digits] under the key and
    no [key_original]: [isdigit()] is false of the sign and
    [_is_float] asks for a point. *)
Theorem ambiguous_signed_integer (result : Dict) (key digits : string) :
  key <> EmptyString -> all_chars isword key = true ->
  digits <> EmptyString -> all_chars isdecimal digits = true ->
  ambiguous_line result (key ++ ": -" ++ digits)
  = dict_set key (VStr ("-" ++ digits)) result.
Proof.
  intros Nk Wk Nd Dd.
  assert (Sl : strip (key ++ ": -" ++ digits) = key ++ ": -" ++ digits).
  { apply strip_by_fix.
    - destruct key as [|c key]; [contradiction|]. simpl in *.
      apply andb_prop in Wk. now rewrite (isword_not_space c).
    - rewrite last_ok_app by discriminate.
      rewrite (last_ok_app isspace ": -" digits) by auto.
      apply (last_ok_all _ isdecimal); auto using isdecimal_not_space. }
  assert (Sk : strip key = key).
  { apply strip_by_fix.
    - apply (head_ok_all _ isword); auto using isword_not_space.
    - apply (last_ok_all _ isword); auto using isword_not_space. }
  assert (Sv : strip (" -" ++ digits) = "-" ++ digits).
  { unfold strip, strip_by. change (lstrip_by isspace (" -" ++ digits)) with ("-" ++ digits).
    apply rstrip_by_fix. rewrite (last_ok_app isspace "-" digits) by auto.
    apply (last_ok_all _ isdecimal); auto using isdecimal_not_space. }
  assert (Sq : strip_chars (str1 DQ) ("-" ++ digits) = "-" ++ digits).
  { unfold strip_chars. apply strip_by_fix; [reflexivity|].
    rewrite (last_ok_app _ "-" digits) by auto.
    apply (last_ok_all _ isdecimal); auto using isdecimal_not_quote. }
  unfold ambiguous_line, colon_line. rewrite Sl.
  rewrite has_char_app. replace (has_char ":" (": -" ++ digits)) with true
    by (cbn [append]; now rewrite has_char_cons).
  rewrite orb_true_r.
  destruct key as [|c key]; [contradiction|].
  simpl in Wk. apply andb_prop in Wk. destruct Wk as [Wc Wk].
  change ((String c key ++ ": -" ++ digits)) with (String c (key ++ ": -" ++ digits)).
  rewrite isword_not_hash, isword_not_rule by auto. cbn [negb andb].
  change (String c (key ++ ": -" ++ digits)) with (String c key ++ String ":" (" -" ++ digits)).
  rewrite split1_first_colon
    by (apply all_chars_no_colon; simpl; now rewrite Wc, Wk).
  rewrite Sk, Sv, Sq.
  replace (mem (lower ("-" ++ digits)) ["true"; "false"]) with false by reflexivity.
  replace (String.eqb ("-" ++ digits) "N/A") with false by reflexivity.
  replace (isdigit ("-" ++ digits)) with false by reflexivity.
  unfold _is_float.
  replace (has_char "." ("-" ++ digits)) with false.
  - now rewrite andb_false_r.
  - symmetry. cbn [append]. rewrite has_char_cons. apply (has_char_all _ isdecimal); auto.
Qed.

Lemma ambiguous_signed_integer_witness :
  ambiguous_line [("data_type", VStr "ambiguous_types")] ("delta" ++ ": -" ++ "5")
  = dict_set "delta" (VStr ("-" ++ "5")) [("data_type", VStr "ambiguous_types")].
Proof.
  apply (ambiguous_signed_integer [("data_type", VStr "ambiguous_types")] "delta" "5");
    (discriminate || reflexivity).
Defined.

End Ambiguous.

Section JsonLd.
Import Str Re Parser Samples.

Lemma setitem_non_dict (v : Value) (k : string) (x : Value) :
  (forall d, v <> VDict d) -> exists e, setitem v k x = Raise e.
Proof. destruct v; simpl; intros H; eauto. now destruct (H entries). Qed.

Lemma json_ld_loop_raises (rt : Runtime) (m : string) (v : Value) :
  json_loads rt (strip m) = Decoded v ->
  (forall d, v <> VDict d) ->
  forall matches results,
    In m matches -> exists e, json_ld_loop rt matches results = Raise e.
Proof.
  intros D N. induction matches as [|x matches IH]; intros results H; [contradiction|].
  cbn [json_ld_loop]. destruct H as [H|H].
  - subst x. rewrite D. destruct (setitem_non_dict v "data_type" (VStr "json_ld") N) as [e E].
    rewrite E. simpl. eauto.
  - destruct (json_loads rt (strip x)) as [parsed|e|e]; eauto.
    destruct (setitem parsed "data_type" (VStr "json_ld")); simpl; eauto.
Qed.

(** X6.  A JSON-LD script whose payload decodes to something other than an
    object (an array, a text, a number) makes [_parse_json_ld] raise on
    [parsed['data_type'] = 'json_ld']: the section gives no record of
    its own, whatever its other scripts hold. *)
Theorem json_ld_non_object (rt : Runtime) (content m : string) (v : Value) :
  In m (findall1 json_ld_pattern content) ->
  json_loads rt (strip m) = Decoded v ->
  (forall d, v <> VDict d) ->
  exists e, _parse_json_ld rt content = Raise e.
Proof. intros H D N. unfold _parse_json_ld. eapply json_ld_loop_raises; eauto. Qed.

Lemma json_ld_non_object_witness :
  exists e, _parse_json_ld (bare_runtime clock) json_ld_array = Raise e.
Proof.
  apply (json_ld_non_object (bare_runtime clock) json_ld_array "[1]" (VList [VInt 1])).
  - vm_compute. auto.
  - vm_compute. reflexivity.
  - discriminate.
Defined.

End JsonLd.

Section Colonless.
Import Str Re Parser Samples.

Lemma has_char_substring (c : ascii) (t : string) :
  forall len, has_char c (substring 0 len t) = true -> has_char c t = true.
Proof.
  induction t as [|x t IH]; intros [|len]; simpl; auto; try discriminate.
  rewrite !has_char_cons. intros H. apply orb_prop in H. destruct H as [H|H].
  - now rewrite H.
  - rewrite (IH _ H). apply orb_true_r.
Qed.

(** A text of a pattern that starts like the patterns of strategy 3 has
    a colon. *)
Lemma key_prefix_colon (tail : list regex) (m : string) :
  tail <> [] -> lang (seq (key_prefix ++ tail)) m -> has_char ":" m = true.
Proof.
  intros N L. destruct tail as [|r0 tail]; [contradiction|].
  unfold key_prefix in L. cbn [app seq] in L.
  apply lang_cat_inv in L. destruct L as [s1 [t1 [E1 [_ L]]]].
  apply lang_cat_inv in L. destruct L as [s2 [t2 [E2 [_ L]]]].
  apply lang_cat_inv in L. destruct L as [s3 [t3 [E3 [_ L]]]].
  apply lang_cat_inv in L. destruct L as [s4 [t4 [E4 [_ L]]]].
  apply lang_cat_inv in L. destruct L as [s5 [t5 [E5 [L _]]]].
  apply lang_cls_inv in L. destruct L as [c [E C]].
  apply Ascii.eqb_eq in C. subst.
  rewrite !has_char_app, has_char_cons, Ascii.eqb_refl. simpl.
  now rewrite !orb_true_r.
Qed.

Lemma findall2_colon (tail : list regex) (s : string) :
  tail <> [] -> has_char ":" s = false ->
  findall2 (seq (key_prefix ++ tail)) s = [].
Proof.
  intros N H. unfold findall2.
  destruct (hits (scan (seq (key_prefix ++ tail)) 0 s)) as [|[m g] l] eqn:E;
    [reflexivity|]. exfalso.
  assert (I : In (m, g) (hits (scan (seq (key_prefix ++ tail)) 0 s)))
    by (rewrite E; now left).
  pose proof (scan_hits_lang _ _ _ _ _ I) as L.
  destruct (scan_hits_at _ _ _ _ _ I) as [pre [t [len [P [_ M]]]]].
  apply key_prefix_colon in L; auto. rewrite M in L.
  apply has_char_substring in L. rewrite P, has_char_app, L, orb_true_r in H.
  discriminate.
Qed.

(** X7.  A candidate without a colon that neither fix makes decodable is
    dropped.  Manual extraction finds no field and returns [None], which
    the cascade returns as it is: the last-resort record is not built and
    the caller appends nothing. *)
Theorem colonless_candidate_dropped (rt : Runtime) (json_str e1 e2 : string)
    (results : list Dict) :
  has_char ":" json_str = false ->
  json_loads rt (_fix_malformed_json json_str) = DecodeError e1 ->
  json_loads rt (_aggressive_json_fix json_str) = DecodeError e2 ->
  _extract_json_fields_manually json_str = VNone
  /\ _attempt_json_fixes rt json_str = Ok VNone
  /\ repaired rt json_str results = Ok results.
Proof.
  intros H D1 D2.
  assert (M : _extract_json_fields_manually json_str = VNone).
  { unfold _extract_json_fields_manually.
    rewrite !findall2_colon by (auto; discriminate). reflexivity. }
  assert (F : _attempt_json_fixes rt json_str = Ok VNone).
  { unfold _attempt_json_fixes, or_next, strategy3. now rewrite D1, D2, M. }
  repeat split; auto. unfold repaired. now rewrite F.
Qed.

Lemma colonless_candidate_dropped_witness :
  _extract_json_fields_manually "{hello}" = VNone
  /\ _attempt_json_fixes (bare_runtime clock) "{hello}" = Ok VNone
  /\ repaired (bare_runtime clock) "{hello}" [] = Ok [].
Proof.
  eapply (colonless_candidate_dropped (bare_runtime clock) "{hello}" _ _ []);
    reflexivity.
Defined.

End Colonless.

Section RawText.
Import Str Re Parser Samples.

Lemma count_words_from_le (s : string) :
  forall inword, count_words_from inword s <= String.length s.
Proof.
  induction s as [|c s IH]; intros inword; cbn [count_words_from String.length]; auto.
  pose proof (IH true). pose proof (IH false).
  destruct (isspace c); [|destruct inword]; lia.
Qed.

Lemma split_length (sep : ascii) (s : string) :
  1 <= List.length (split sep s) <= S (String.length s).
Proof.
  induction s as [|c s IH]; cbn [split List.length String.length]; [lia|].
  destruct (Ascii.eqb c sep); cbn [List.length]; [lia|].
  destruct (split sep s); cbn [List.length] in *; lia.
Qed.

Lemma set_if_any_get (key k : string) (found : list string) (d : Dict) :
  dict_get k (set_if_any key found d)
  = if String.eqb k key then
      match listed found with Some v => Some v | None => dict_get k d end
    else dict_get k d.
Proof.
  unfold set_if_any, listed. destruct found.
  - now destruct (String.eqb k key).
  - apply dict_get_set.
Qed.

(** X8.  [_parse_raw_text] returns one record for every text, the empty
    text included.  The record counts the characters, the words (never
    more than the characters) and the lines (at least one); each of the
    three lists is there when something was found and absent otherwise,
    never empty. *)
Theorem parse_raw_text_record (content : string) :
  exists r,
    _parse_raw_text content = [r]
    /\ dict_get "data_type" r = Some (VStr "raw_text_analysis")
    /\ dict_get "char_count" r = Some (VNat (String.length content))
    /\ dict_get "word_count" r = Some (VNat (count_words content))
    /\ dict_get "line_count" r = Some (VNat (List.length (split NL content)))
    /\ count_words content <= String.length content
    /\ 1 <= List.length (split NL content) <= S (String.length content)
    /\ dict_get "extracted_prices" r
       = listed (flat_map (fun pattern => findall pattern content) price_patterns)
    /\ dict_get "extracted_dates" r
       = listed (flat_map (fun pattern => findall pattern content) date_patterns)
    /\ dict_get "quoted_strings" r
       = listed (findall1 (seq [chr DQ; Grp 1 (Star (noneof (str1 DQ))); chr DQ]) content).
Proof.
  eexists. split; [reflexivity|].
  repeat split; try apply split_length; try apply count_words_from_le;
    repeat (rewrite dict_get_set; cbn [String.eqb Ascii.eqb Bool.eqb]);
    repeat (rewrite set_if_any_get; cbn [String.eqb Ascii.eqb Bool.eqb]);
    try reflexivity;
    repeat match goal with |- context [listed ?l] => destruct (listed l) end;
    reflexivity.
Qed.

End RawText.

Section Html.
Import Str Re Parser Samples.

Lemma html_row_data_type (headers cells : list string) (r : Dict) :
  In r (html_row "html_table_row" headers cells) ->
  dict_get "data_type" r = Some (VStr "html_table_row").
Proof.
  unfold html_row. destruct (Nat.eqb _ _); [|contradiction].
  intros [H|[]]. subst r. apply dict_get_set_same.
Qed.

Lemma html_row_length (headers cells : list string) :
  List.length (html_row "html_table_row" headers cells) <= 1.
Proof. unfold html_row. destruct (Nat.eqb _ _); simpl; lia. Qed.

Lemma flat_map_length_le {A B : Type} (f : A -> list B) (l : list A) :
  (forall x, List.length (f x) <= 1) ->
  List.length (flat_map f l) <= List.length l.
Proof.
  intros H. induction l as [|x l IH]; simpl; auto.
  rewrite length_app. specialize (H x). lia.
Qed.

(** X9.  Without BeautifulSoup the HTML parser reads table rows with
    regular expressions.  The first row is the header: a document with
    fewer than two rows gives nothing, the others give at most one record
    per row after the first, each tagged [html_table_row].  With
    BeautifulSoup, a document it cannot parse becomes one [raw_html]
    record carrying the text and the error. *)
Theorem html_section_rows (rt : Runtime) (content : string) :
  (HAS_BS4 rt = false ->
     List.length (_parse_html_section rt content)
     <= pred (List.length (findall1 tr_pattern content))
     /\ Forall (fun r => dict_get "data_type" r = Some (VStr "html_table_row"))
               (_parse_html_section rt content))
  /\ (HAS_BS4 rt = true ->
      forall e, BeautifulSoup rt content = Raise e ->
        _parse_html_section rt content
        = [[("data_type", VStr "raw_html"); ("content", VStr content);
            ("parse_error", VStr e)]]).
Proof.
  unfold _parse_html_section. split; intros B.
  - rewrite B. cbn [negb]. unfold _parse_html_simple.
    destruct (findall1 tr_pattern content) as [|first [|second rest]];
      try (split; [simpl; lia | constructor]).
    set (headers := map strip _). split.
    + cbn [List.length pred]. apply (flat_map_length_le _ (second :: rest)).
      intros row. apply html_row_length.
    + apply Forall_forall. intros r H. apply in_flat_map in H.
      destruct H as [row [_ H]]. eapply html_row_data_type; eauto.
  - rewrite B. cbn [negb]. intros e E. now rewrite E.
Qed.

End Html.

Section Footer.
Import Str Re Parser Samples.

Lemma ocr_line_flag (result : Dict) (line : string) :
  (dict_get "ocr_errors_detected" result = Some (VBool true)
   <-> dict_get "location" result <> None) ->
  (dict_get "ocr_errors_detected" (ocr_line result line) = Some (VBool true)
   <-> dict_get "location" (ocr_line result line) <> None).
Proof.
  intros H. unfold ocr_line.
  destruct (contains "page" _);
    [rewrite !dict_get_set; exact H|].
  destruct (contains "document title" _);
    [rewrite !dict_get_set; exact H|].
  destruct (contains "l0cation" _ || contains "location" _).
  { rewrite !dict_get_set. cbn. split; [discriminate | reflexivity]. }
  destruct (contains "total" _); [rewrite !dict_get_set; exact H | exact H].
Qed.

(** X10.  In an OCR footer, [ocr_errors_detected] says that a location line
    was seen, not that OCR went wrong.  The flag is there, and true,
    exactly when [location] is, and a line that spells [location]
    correctly sets it like one that reads [l0cation]. *)
Theorem ocr_footer_location_flag (content : string) (r result : Dict) (line : string) :
  In r (_parse_ocr_footer content) ->
  (dict_get "ocr_errors_detected" r = Some (VBool true)
   <-> dict_get "location" r <> None)
  /\ (contains "page" (lower (strip line)) = false ->
      contains "document title" (lower (strip line)) = false ->
      contains "location" (lower (strip line)) = true ->
      dict_get "ocr_errors_detected" (ocr_line result line) = Some (VBool true)).
Proof.
  intros H. split.
  - unfold _parse_ocr_footer in H.
    set (lines := split NL (strip content)) in H.
    assert (G : forall lines start,
               (dict_get "ocr_errors_detected" start = Some (VBool true)
                <-> dict_get "location" start <> None) ->
               (dict_get "ocr_errors_detected" (fold_left ocr_line lines start)
                = Some (VBool true)
                <-> dict_get "location" (fold_left ocr_line lines start) <> None)).
    { induction lines0 as [|l lines0 IH]; simpl; auto using ocr_line_flag. }
    destruct (Nat.ltb 1 _); [|contradiction]. destruct H as [H|[]]. subst r.
    apply G. cbn. split; [discriminate | congruence].
  - intros P D L. unfold ocr_line. rewrite P, D, L, orb_true_r.
    now rewrite dict_get_set.
Qed.

Lemma ocr_footer_location_flag_witness :
  (dict_get "ocr_errors_detected"
     [("data_type", VStr "ocr_footer"); ("location", VStr "Paris");
      ("ocr_errors_detected", VBool true)] = Some (VBool true)
   <-> dict_get "location"
         [("data_type", VStr "ocr_footer"); ("location", VStr "Paris");
          ("ocr_errors_detected", VBool true)] <> None)
  /\ (contains "page" (lower (strip "Location: Paris")) = false ->
      contains "document title" (lower (strip "Location: Paris")) = false ->
      contains "location" (lower (strip "Location: Paris")) = true ->
      dict_get "ocr_errors_detected" (ocr_line [] "Location: Paris")
      = Some (VBool true)).
Proof.
  apply (ocr_footer_location_flag "Location: Paris"). vm_compute. auto.
Defined.

End Footer.

(** ** Cleaning and flattening *)

Section Values.

(** Induction on values, through the lists and dicts they hold. *)
Lemma Value_induction (P : Value -> Prop) :
  P VNone -> (forall b, P (VBool b)) -> (forall z, P (VInt z)) ->
  (forall l, P (VFloat l)) -> (forall s, P (VStr s)) ->
  (forall items, Forall P items -> P (VList items)) ->
  (forall entries, Forall (fun kv => P (snd kv)) entries -> P (VDict entries)) ->
  forall v, P v.
Proof.
  intros HN HB HI HF HS HL HD.
  fix IH 1. intros [| b | z | l | s | items | entries].
  - exact HN.
  - apply HB.
  - apply HI.
  - apply HF.
  - apply HS.
  - apply HL. induction items as [|x items IHl]; constructor; [apply IH | exact IHl].
  - apply HD. induction entries as [|[k x] entries IHl]; constructor;
      [apply IH | exact IHl].
Qed.

End Values.

Section Clean.
Import Str Pipeline.

Lemma mem_In (x : string) (l : list string) : mem x l = true <-> In x l.
Proof.
  induction l as [|y l IH]; simpl; [split; [discriminate | contradiction]|].
  rewrite orb_true_iff, IH. split; intros [H|H]; auto.
  - left. symmetry. now apply String.eqb_eq.
  - left. subst. apply String.eqb_refl.
Qed.

Lemma distinct_NoDup (l : list string) : distinct l = true <-> NoDup l.
Proof.
  induction l as [|x l IH]; simpl; [split; [constructor | reflexivity]|].
  rewrite andb_true_iff, negb_true_iff, IH, NoDup_cons_iff.
  split; intros [H1 H2]; split; auto.
  - intros I. apply mem_In in I. congruence.
  - destruct (mem x l) eqn:E; auto. apply mem_In in E. contradiction.
Qed.

Lemma dict_set_keys (k : string) (v : Value) (d : Dict) :
  map fst (dict_set k v d)
  = if mem k (map fst d) then map fst d else (map fst d ++ [k])%list.
Proof.
  induction d as [|[k' v'] d IH]; simpl; auto.
  destruct (String.eqb k k') eqn:E; simpl; auto.
  rewrite IH. now destruct (mem k (map fst d)).
Qed.

Lemma dict_set_fresh (k : string) (v : Value) (d : Dict) :
  ~ In k (map fst d) -> dict_set k v d = (d ++ [(k, v)])%list.
Proof.
  induction d as [|[k' v'] d IH]; simpl; intros H; auto.
  destruct (String.eqb_spec k k'); [subst; tauto|]. rewrite IH; auto.
Qed.

Lemma NoDup_snoc (k : string) (l : list string) :
  NoDup l -> ~ In k l -> NoDup (l ++ [k]).
Proof.
  intros N I. induction l as [|x l IH]; simpl.
  - repeat constructor. auto.
  - inversion N; subst. constructor.
    + rewrite in_app_iff. simpl. intros [H|[H|[]]]; auto. subst. apply I. now left.
    + apply IH; auto. intros H. apply I. now right.
Qed.

Lemma dict_set_distinct (k : string) (v : Value) (d : Dict) :
  distinct (map fst d) = true -> distinct (map fst (dict_set k v d)) = true.
Proof.
  rewrite !distinct_NoDup, dict_set_keys. intros N.
  destruct (mem k (map fst d)) eqn:E; auto.
  apply NoDup_snoc; auto. intros I. apply mem_In in I. congruence.
Qed.

Lemma dict_set_forallb (Q : string * Value -> bool) (k : string) (v : Value) (d : Dict) :
  Q (k, v) = true -> forallb Q d = true -> forallb Q (dict_set k v d) = true.
Proof.
  intros H. induction d as [|[k' v'] d IH]; simpl; intros F.
  - now rewrite H.
  - apply andb_prop in F. destruct F as [F1 F2].
    destruct (String.eqb_spec k k'); simpl.
    + subst. now rewrite H, F2.
    + now rewrite F1, IH.
Qed.

Lemma keep_chars_all (p : ascii -> bool) (s : string) :
  all_chars p (keep_chars p s) = true.
Proof.
  induction s as [|c s IH]; simpl; auto.
  destruct (p c) eqn:E; simpl; auto. now rewrite E.
Qed.

Lemma keep_chars_fix (p : ascii -> bool) (s : string) :
  all_chars p s = true -> keep_chars p s = s.
Proof.
  induction s as [|c s IH]; simpl; auto. intros H.
  apply andb_prop in H. destruct H as [H1 H2]. now rewrite H1, IH.
Qed.

Lemma replace_char_fix (a b : ascii) (s : string) :
  has_char a s = false -> replace_char a b s = s.
Proof.
  induction s as [|c s IH]; simpl; auto. rewrite has_char_cons. intros H.
  apply orb_false_elim in H. destruct H as [H1 H2]. now rewrite H1, IH.
Qed.

Lemma name_char_not_space (c : ascii) : name_char c = true -> isspace c = false.
Proof.
  destruct c as [[|] [|] [|] [|] [|] [|] [|] [|]]; vm_compute; intros; congruence.
Qed.

Lemma clean_key_chars (key : string) : all_chars name_char (clean_key key) = true.
Proof. unfold clean_key. apply keep_chars_all. Qed.

Lemma clean_key_fix (key : string) :
  all_chars name_char key = true -> clean_key key = key.
Proof.
  intros H. unfold clean_key.
  assert (S : strip key = key).
  { apply strip_by_fix.
    - apply (head_ok_all _ name_char); auto using name_char_not_space.
    - apply (last_ok_all _ name_char); auto using name_char_not_space. }
  rewrite S.
  rewrite (replace_char_fix " ") by (apply (has_char_all _ name_char); auto).
  rewrite (replace_char_fix "-") by (apply (has_char_all _ name_char); auto).
  now apply keep_chars_fix.
Qed.

Lemma strip_idem (s : string) : strip (strip s) = strip s.
Proof. apply strip_by_idem. Qed.

Lemma clean_value_dict (data : Dict) :
  clean_value (VDict data) = VDict (clean_nested_dict data).
Proof. reflexivity. Qed.

(** What cleaning returns is clean. *)
Lemma clean_value_cleaned : forall v, cleaned (clean_value v) = true.
Proof.
  apply Value_induction; auto.
  - intros s. simpl. rewrite strip_idem. apply String.eqb_refl.
  - intros items H. simpl. induction H as [|x items Hx _ IH]; simpl; auto.
    now rewrite Hx, IH.
  - intros entries H. rewrite clean_value_dict. unfold clean_nested_dict.
    assert (G : forall acc,
               cleaned (VDict acc) = true ->
               cleaned (VDict (fold_left
                                 (fun cleaned kv =>
                                    dict_set (clean_key (fst kv)) (clean_value (snd kv)) cleaned)
                                 entries acc)) = true).
    { induction H as [|[k x] entries Hx _ IH]; intros acc A; simpl; auto.
      apply IH. simpl in A |- *. apply andb_prop in A. destruct A as [A1 A2].
      rewrite dict_set_distinct by auto. simpl.
      apply dict_set_forallb; auto. cbn [fst snd] in *. now rewrite clean_key_chars, Hx. }
    now apply G.
Qed.

Lemma fold_set_fresh (ck : string -> string) (cv : Value -> Value) :
  forall (d acc : Dict),
    NoDup (map fst (acc ++ d)) ->
    (forall kv, In kv d -> ck (fst kv) = fst kv /\ cv (snd kv) = snd kv) ->
    fold_left (fun a kv => dict_set (ck (fst kv)) (cv (snd kv)) a) d acc
    = (acc ++ d)%list.
Proof.
  induction d as [|[k v] d IH]; intros acc N H; simpl.
  - now rewrite app_nil_r.
  - destruct (H (k, v)) as [Hk Hv]; [now left|]. simpl in Hk, Hv. rewrite Hk, Hv.
    assert (F : ~ In k (map fst acc)).
    { rewrite map_app in N. simpl in N. apply NoDup_remove_2 in N.
      intros I. apply N. rewrite in_app_iff. now left. }
    rewrite dict_set_fresh by auto.
    rewrite IH.
    + now rewrite <- app_assoc.
    + now rewrite <- app_assoc.
    + intros kv I. apply H. now right.
Qed.

(** Cleaning leaves a clean value as it is. *)
Lemma clean_value_fix : forall v, cleaned v = true -> clean_value v = v.
Proof.
  apply (Value_induction (fun v => cleaned v = true -> clean_value v = v)); auto.
  - intros s H. cbn [cleaned clean_value] in *. apply String.eqb_eq in H. now rewrite H.
  - intros items H C. cbn [cleaned clean_value] in *. f_equal.
    induction H as [|x items Hx _ IH]; cbn [forallb map] in *; auto.
    apply andb_prop in C. destruct C as [C1 C2]. now rewrite Hx, IH.
  - intros entries H C. rewrite clean_value_dict. f_equal. unfold clean_nested_dict.
    cbn [cleaned] in C. apply andb_prop in C. destruct C as [C1 C2].
    rewrite fold_set_fresh; auto.
    + now apply distinct_NoDup.
    + intros kv I. rewrite Forall_forall in H. rewrite forallb_forall in C2.
      specialize (C2 _ I). apply andb_prop in C2. destruct C2 as [K V].
      split; [now apply clean_key_fix | now apply H].
Qed.

End Clean.

Section CleanData.
Import Str Pipeline.

Lemma clean_records_ok :
  forall (records : list Value) (acc out : list Dict),
    clean_records records acc = Ok out ->
    exists ds, records = map VDict ds /\ out = (acc ++ map clean_nested_dict ds)%list.
Proof.
  induction records as [|record records IH]; intros acc out H; simpl in H.
  - inversion H; subst. exists []. now rewrite app_nil_r.
  - destruct record; try discriminate. simpl in H.
    destruct (IH _ _ H) as [ds [R O]]. exists (entries :: ds). subst.
    simpl. now rewrite <- app_assoc.
Qed.

Lemma clean_records_dicts :
  forall (ds : list Dict) (acc : list Dict),
    clean_records (map VDict ds) acc = Ok (acc ++ map clean_nested_dict ds)%list.
Proof.
  induction ds as [|d ds IH]; intros acc; simpl.
  - now rewrite app_nil_r.
  - rewrite IH. now rewrite <- app_assoc.
Qed.

Lemma clean_nested_dict_cleaned (d : Dict) : cleaned (VDict (clean_nested_dict d)) = true.
Proof. rewrite <- clean_value_dict. apply clean_value_cleaned. Qed.

Lemma clean_nested_dict_fix (d : Dict) :
  cleaned (VDict d) = true -> clean_nested_dict d = d.
Proof.
  intros H. apply clean_value_fix in H. rewrite clean_value_dict in H. congruence.
Qed.

(** X11.  What [clean_data] returns is clean at every depth.  In every
    record, and in every dict nested in it, the keys are distinct and made
    of letters, digits and underscores, and no text has white space at
    its ends. *)
Theorem clean_data_cleaned (data : Value) (cleaned_data : list Dict) :
  clean_data data = Ok cleaned_data ->
  Forall (fun record => cleaned (VDict record) = true) cleaned_data.
Proof.
  unfold clean_data. destruct (iter data) as [records|e]; [|discriminate]. simpl.
  intros H. apply clean_records_ok in H. destruct H as [ds [_ O]]. subst.
  simpl. apply Forall_forall. intros r I. apply in_map_iff in I.
  destruct I as [d [E _]]. subst. apply clean_nested_dict_cleaned.
Qed.

(** X12.  [clean_data] is idempotent: cleaning what it returned returns the
    same records. *)
Theorem clean_data_idempotent (data : Value) (cleaned_data : list Dict) :
  clean_data data = Ok cleaned_data ->
  clean_data (VList (map VDict cleaned_data)) = Ok cleaned_data.
Proof.
  intros H. pose proof (clean_data_cleaned _ _ H) as C.
  unfold clean_data. simpl. rewrite clean_records_dicts. simpl. f_equal.
  clear H. induction C as [|r l Hr _ IH]; simpl; auto.
  now rewrite clean_nested_dict_fix, IH.
Qed.

(** X13.  A cleaned dict gives a name the cleaned value of the last entry
    whose cleaned name it is.  Entries whose names clean to the same name
    are merged, and the last one wins. *)
Theorem clean_nested_dict_get (data : Dict) (key : string) :
  dict_get key (clean_nested_dict data)
  = option_map (fun kv => clean_value (snd kv))
      (find (fun kv => String.eqb key (clean_key (fst kv))) (rev data)).
Proof.
  unfold clean_nested_dict.
  induction data as [|[k v] data IH] using rev_ind; [reflexivity|].
  rewrite fold_left_app, rev_app_distr. simpl.
  rewrite dict_get_set. destruct (String.eqb key (clean_key k)); auto.
Qed.

End CleanData.

Section Flatten.
Import Str Pipeline.

Variable json_dumps : Value -> string.

Lemma flatten_entry_dict (separator key : string) (data : Dict) :
  flatten_entry json_dumps separator key (VDict data)
  = _flatten_dict json_dumps data key separator.
Proof. reflexivity. Qed.

Lemma assign_all_values (P : Value -> Prop) (items : list (string * Value)) :
  forall acc,
    Forall (fun kv => P (snd kv)) items -> Forall (fun kv => P (snd kv)) acc ->
    Forall (fun kv => P (snd kv)) (Parser.assign_all items acc).
Proof.
  induction items as [|[k v] items IH]; intros acc H A; simpl; auto.
  inversion H; subst. apply IH; auto. apply dict_set_values; auto.
Qed.

Lemma flatten_entry_scalars :
  forall (value : Value) (separator key : string),
    Forall (fun kv => scalar (snd kv) = true)
           (flatten_entry json_dumps separator key value).
Proof.
  apply (Value_induction
           (fun value => forall separator key,
                Forall (fun kv => scalar (snd kv) = true)
                       (flatten_entry json_dumps separator key value)));
    try solve [intros; repeat constructor].
  intros entries H separator key. cbn [flatten_entry]. unfold dict.
  apply (assign_all_values (fun v => scalar v = true)); [|constructor].
  induction H as [|[k v] entries Hv _ IH]; simpl; [constructor|].
  apply Forall_app. split; auto.
Qed.

(** X14.  A flattened record holds no dict and no list: every value is a
    scalar (a list has become its JSON text). *)
Theorem flatten_dict_scalars (data : Dict) (parent_key separator : string) :
  Forall (fun kv => scalar (snd kv) = true)
         (_flatten_dict json_dumps data parent_key separator).
Proof.
  rewrite <- flatten_entry_dict. apply flatten_entry_scalars.
Qed.

Lemma assign_all_fresh (items : list (string * Value)) :
  forall acc,
    NoDup (map fst (acc ++ items)) -> Parser.assign_all items acc = (acc ++ items)%list.
Proof.
  induction items as [|[k v] items IH]; intros acc N; simpl.
  - now rewrite app_nil_r.
  - assert (F : ~ In k (map fst acc)).
    { rewrite map_app in N. simpl in N. apply NoDup_remove_2 in N.
      intros I. apply N. rewrite in_app_iff. now left. }
    rewrite dict_set_fresh by auto. rewrite IH; now rewrite <- app_assoc.
Qed.

(** X15.  Flattening leaves a flat record as it is: a record whose keys are
    distinct and whose values are scalars is returned unchanged. *)
Theorem flatten_dict_flat (data : Dict) (separator : string) :
  distinct (map fst data) = true ->
  forallb (fun kv => scalar (snd kv)) data = true ->
  _flatten_dict json_dumps data EmptyString separator = data.
Proof.
  intros D S. unfold _flatten_dict, dict.
  assert (E : flat_map (fun kv => flatten_entry json_dumps separator
                                    (new_key EmptyString separator (fst kv)) (snd kv))
                       data = data).
  { clear D. induction data as [|[k v] data IH]; simpl in *; auto.
    apply andb_prop in S. destruct S as [S1 S2]. rewrite IH by auto.
    destruct v; try discriminate; reflexivity. }
  rewrite E. rewrite assign_all_fresh; auto. now apply distinct_NoDup.
Qed.

(** X16.  Flattening drops a field that holds an empty dict: the record
    flattens as it would without the field. *)
Theorem flatten_dict_empty_field (before after : Dict) (key parent_key separator : string) :
  _flatten_dict json_dumps (before ++ (key, VDict []) :: after)%list parent_key separator
  = _flatten_dict json_dumps (before ++ after)%list parent_key separator.
Proof.
  unfold _flatten_dict. now rewrite !flat_map_app.
Qed.

End Flatten.

(** ** The pipeline and its endpoints *)

Section PipelineTheorems.
Import Str Pipeline.

Variable lib : Libraries.
Variable Engine : Type.
Variable SchemaVersion : Type.
Variable Info : Type.
Variable Time : Type.
Variable engine_ : SchemaEngine Engine SchemaVersion Info.

Lemma find_set_job (id : string) (job : ETLJob Time) (l : list (string * ETLJob Time)) :
  find_job id (set_job id job l) = Some job.
Proof.
  induction l as [|[id' job'] l IH]; simpl.
  - now rewrite String.eqb_refl.
  - destruct (String.eqb id id') eqn:E; simpl; rewrite E; auto.
Qed.

Lemma set_set_job (id : string) (j1 j2 : ETLJob Time) (l : list (string * ETLJob Time)) :
  set_job id j2 (set_job id j1 l) = set_job id j2 l.
Proof.
  induction l as [|[id' job'] l IH]; simpl.
  - now rewrite String.eqb_refl.
  - destruct (String.eqb id id') eqn:E; simpl; rewrite E; congruence.
Qed.

Lemma set_job_idle (id : string) (job : ETLJob Time) (l : list (string * ETLJob Time)) :
  String.eqb (status job) "processing" = false ->
  List.length (filter (fun ij => String.eqb (status (snd ij)) "processing")
                      (set_job id job l))
  <= List.length (filter (fun ij => String.eqb (status (snd ij)) "processing") l).
Proof.
  intros H. induction l as [|[id' job'] l IH]; simpl.
  - now rewrite H.
  - destruct (String.eqb id id'); simpl.
    + rewrite H. destruct (String.eqb (status job') "processing"); simpl; lia.
    + destruct (String.eqb (status job') "processing"); simpl; lia.
Qed.

Ltac cases H :=
  repeat match type of H with
         | context [match ?x with _ => _ end] => destruct x eqn:?
         end; try discriminate; inversion H; subst; clear H.

(** X17.  The counters of [process_async] add up.  If every job counted so
    far was counted as successful or as failed, the same holds after any
    call, which counts one job more, or two. *)
Theorem process_async_statistics (self self' : ETLPipeline Engine Time) (uuid4 : string)
    (created finished refailed : Time) (data : Value)
    (source target : string) (rules : option Dict) (result : JobResult Info) :
  process_async lib engine_ self uuid4 created finished refailed data source target rules
  = Returns (self', result) ->
  total_jobs (statistics self)
  = successful_jobs (statistics self) + failed_jobs (statistics self) ->
  total_jobs (statistics self')
  = successful_jobs (statistics self') + failed_jobs (statistics self')
  /\ total_jobs (statistics self) < total_jobs (statistics self')
     <= total_jobs (statistics self) + 2.
Proof.
  unfold process_async, and_then, lift. intros H I.
  destruct (len data); [|discriminate].
  cases H; simpl; lia.
Qed.

(** X18.  [process_async] leaves no job [processing].  When it returns, the
    job it made is tracked under its id, finished ([completed] or
    [failed], as the result says, with a completion time), and the number
    of jobs still [processing] has not grown. *)
Theorem process_async_job_finished (self self' : ETLPipeline Engine Time) (uuid4 : string)
    (created finished refailed : Time) (data : Value)
    (source target : string) (rules : option Dict) (result : JobResult Info) :
  process_async lib engine_ self uuid4 created finished refailed data source target rules
  = Returns (self', result) ->
  r_job_id result = uuid4
  /\ (r_status result = "completed" \/ r_status result = "failed")
  /\ (exists job,
        get_job_status self' uuid4 = Some job
        /\ status job = r_status result
        /\ completed_at job <> None)
  /\ active_jobs self' <= active_jobs self.
Proof.
  unfold process_async, and_then, lift. intros H.
  destruct (len data); [|discriminate].
  unfold get_job_status, active_jobs.
  cases H; cbn -[String.eqb set_job find_job filter];
    rewrite ?set_set_job, ?find_set_job;
    (split; [reflexivity|]); (split; [auto|]);
    (split; [eexists; split; [reflexivity|]; cbn; split; [reflexivity|discriminate]
            | apply set_job_idle; reflexivity]).
Qed.

(** X19.  A job can be counted twice.  When every step succeeds and
    [export_schema] then raises while the result is being built, the
    counters have already been advanced for a success: the handler
    advances them again for a failure.  The call adds two to
    [total_jobs], one to [successful_jobs] and one to [failed_jobs], counts
    the records as processed, and leaves the job [failed]. *)
Theorem process_async_counted_twice (self : ETLPipeline Engine Time) (uuid4 : string)
    (created finished refailed : Time) (data : Value) (source target : string)
    (n : nat) (cleaned_data : list Dict) (engine engine' : Engine)
    (schema_version_ : SchemaVersion) (output : Output) (e : string) :
  len data = Ok n ->
  clean_data data = Ok cleaned_data ->
  infer_schema engine_ (schema_engine self) cleaned_data source
  = (engine, Ok schema_version_) ->
  load lib cleaned_data target = Ok output ->
  export_schema engine_ engine (version engine_ schema_version_) = (engine', Raise e) ->
  exists self' result,
    process_async lib engine_ self uuid4 created finished refailed data source target None
    = Returns (self', result)
    /\ r_status result = "failed"
    /\ r_error result = Some e
    /\ total_jobs (statistics self') = total_jobs (statistics self) + 2
    /\ successful_jobs (statistics self') = successful_jobs (statistics self) + 1
    /\ failed_jobs (statistics self') = failed_jobs (statistics self) + 1
    /\ total_records_processed (statistics self')
       = total_records_processed (statistics self) + List.length cleaned_data
    /\ option_map status (get_job_status self' uuid4) = Some "failed".
Proof.
  intros L C I O X. unfold process_async, and_then, lift.
  rewrite L, C. cbn [schema_engine]. rewrite I, O, X.
  eexists. eexists. split; [reflexivity|].
  unfold get_job_status. cbn -[String.eqb set_job find_job].
  rewrite find_set_job. repeat split; cbn; lia.
Qed.

(** X20.  An unsupported target format is found out late.  The records are
    cleaned and the schema is inferred before the format is looked at: the
    job fails with [Unsupported target format], the engine stays as the
    inference left it, and the job keeps the version it was given while
    the result reports none. *)
Theorem process_async_unsupported_format (self : ETLPipeline Engine Time) (uuid4 : string)
    (created finished refailed : Time) (data : Value) (source target : string)
    (n : nat) (cleaned_data : list Dict) (engine : Engine)
    (schema_version_ : SchemaVersion) :
  String.eqb target "json" = false ->
  String.eqb target "csv" = false ->
  String.eqb target "parquet" = false ->
  len data = Ok n ->
  clean_data data = Ok cleaned_data ->
  infer_schema engine_ (schema_engine self) cleaned_data source
  = (engine, Ok schema_version_) ->
  exists self' result,
    process_async lib engine_ self uuid4 created finished refailed data source target None
    = Returns (self', result)
    /\ r_status result = "failed"
    /\ r_error result = Some ("Unsupported target format: " ++ target)
    /\ r_schema_version result = EmptyString
    /\ schema_engine self' = engine
    /\ option_map schema_version (get_job_status self' uuid4)
       = Some (version engine_ schema_version_)
    /\ failed_jobs (statistics self') = failed_jobs (statistics self) + 1.
Proof.
  intros J V Q L C I. unfold process_async, and_then, lift.
  rewrite L, C. cbn [schema_engine]. rewrite I. unfold load. rewrite J, V, Q.
  eexists. eexists. split; [reflexivity|].
  unfold get_job_status. cbn -[String.eqb set_job find_job].
  rewrite find_set_job. repeat split.
Qed.

Lemma clean_records_non_dict (before : list Dict) (record : Value) (after : list Value) :
  (forall d, record <> VDict d) ->
  forall acc,
    clean_records (map VDict before ++ record :: after)%list acc
    = Raise ("'" ++ type_name record ++ "' object has no attribute 'items'").
Proof.
  intros N. induction before as [|d before IH]; intros acc; simpl.
  - destruct record; try reflexivity. now destruct (N entries).
  - apply IH.
Qed.

(** X21.  One record that is no dict fails the whole job.  When the data is
    a list that holds, anywhere, an element that is not a dict,
    [clean_data] raises on its [.items()]; the job fails with that
    [AttributeError] and the schema engine is not called. *)
Theorem process_async_non_dict_record (self : ETLPipeline Engine Time) (uuid4 : string)
    (created finished refailed : Time) (before : list Dict) (record : Value)
    (after : list Value) (source target : string) (rules : option Dict) :
  (forall d, record <> VDict d) ->
  exists self' result,
    process_async lib engine_ self uuid4 created finished refailed
      (VList (map VDict before ++ record :: after)%list) source target rules
    = Returns (self', result)
    /\ r_status result = "failed"
    /\ r_error result
       = Some ("'" ++ type_name record ++ "' object has no attribute 'items'")
    /\ schema_engine self' = schema_engine self.
Proof.
  intros N. unfold process_async, and_then, lift, clean_data. cbn [len iter bind].
  rewrite clean_records_non_dict by auto.
  eexists. eexists. split; [reflexivity|]. repeat split.
Qed.

(** X22.  [process_async] raises only from [len(data)].  Data without a
    length raises before a job is made; for any other data, and no
    transformation rules, the call returns a result. *)
Theorem process_async_raises_only_len (self : ETLPipeline Engine Time) (uuid4 : string)
    (created finished refailed : Time) (data : Value) (source target : string) :
  match len data with
  | Raise e =>
      forall rules,
        process_async lib engine_ self uuid4 created finished refailed data source target
          rules = Raises e
  | Ok _ =>
      exists self' result,
        process_async lib engine_ self uuid4 created finished refailed data source target
          None = Returns (self', result)
  end.
Proof.
  unfold process_async, and_then, lift. destruct (len data) as [n|e]; [|reflexivity].
  destruct (clean_data data); [|do 2 eexists; reflexivity].
  destruct (infer_schema _ _ _ _) as [engine [sv|e]]; [|do 2 eexists; reflexivity].
  destruct (load _ _ _); [|do 2 eexists; reflexivity].
  destruct (export_schema _ _ _) as [engine' [info|e]]; do 2 eexists; reflexivity.
Qed.

End PipelineTheorems.

Section TransformTheorems.
Import Str Pipeline.

Variable py : Builtins.

Lemma transform_record_length (rules record : Dict) (added : list Dict) :
  transform_record py rules record = Returns added ->
  List.length added <= 1
  /\ (dict_get "filters" rules = None -> List.length added = 1).
Proof.
  unfold transform_record. intros H.
  destruct (match dict_get "field_mappings" rules with
            | Some _ => _ | None => _ end) as [r1| |];
    cbn [and_then] in H; try discriminate.
  destruct (match dict_get "type_conversions" rules with
            | Some _ => _ | None => _ end) as [r2|e];
    cbn [and_then lift] in H; try discriminate.
  destruct (dict_get "filters" rules) as [filters|].
  - destruct (iter filters) as [filter_rules|e]; cbn [bind lift] in H; try discriminate.
    destruct (include_record py r2 filter_rules) as [keep|e]; cbn [bind lift] in H;
      try discriminate.
    inversion H. destruct keep; simpl; split; auto; discriminate.
  - inversion H. simpl. auto.
Qed.

Lemma transform_records_length (rules : Dict) :
  forall (data acc out : list Dict),
    transform_records py rules data acc = Returns out ->
    List.length out <= List.length acc + List.length data
    /\ (dict_get "filters" rules = None ->
        List.length out = List.length acc + List.length data).
Proof.
  induction data as [|record data IH]; intros acc out H; simpl in H.
  - inversion H; subst. simpl. lia.
  - unfold and_then in H.
    destruct (transform_record py rules record) as [added| |] eqn:T; try discriminate.
    apply transform_record_length in T. apply IH in H.
    rewrite length_app in H. simpl. destruct T as [T1 T2], H as [H1 H2].
    split; [lia|]. intros F. specialize (T2 F). specialize (H2 F). lia.
Qed.

(** X23.  [apply_transformations] never adds a record, and only a filter
    drops one: what it returns is no longer than the data, and as long
    when the rules have no [filters]. *)
Theorem apply_transformations_length (data : list Dict) (rules : Dict)
    (transformed_data : list Dict) :
  apply_transformations py data rules = Returns transformed_data ->
  List.length transformed_data <= List.length data
  /\ (dict_get "filters" rules = None ->
      List.length transformed_data = List.length data).
Proof.
  unfold apply_transformations. destruct rules as [|rule rules].
  - intros H. inversion H; subst. auto.
  - intros H. apply transform_records_length in H. simpl in H. exact H.
Qed.

Lemma include_record_absent (record : Dict) (filter_rules : list Value) :
  Forall (fun filter_rule =>
            exists entries field,
              filter_rule = VDict entries
              /\ dict_get "field" entries = Some (VStr field)
              /\ dict_get field record = None)
         filter_rules ->
  include_record py record filter_rules = Ok true.
Proof.
  induction 1 as [|rule rules [entries [field [E [F A]]]] _ IH]; simpl; auto.
  subst rule. unfold passes. simpl. rewrite F. simpl. rewrite A. simpl. exact IH.
Qed.

(** X24.  A filter on a field the records do not have filters nothing.  When
    the only rules are filters and every filter names a field that no
    record has, [apply_transformations] returns the data as it is,
    whatever the operators and values of the filters. *)
Theorem filters_on_absent_fields (data : list Dict) (filter_rules : list Value) :
  Forall (fun filter_rule =>
            exists entries field,
              filter_rule = VDict entries
              /\ dict_get "field" entries = Some (VStr field)
              /\ Forall (fun record => dict_get field record = None) data)
         filter_rules ->
  apply_transformations py data [("filters", VList filter_rules)] = Returns data.
Proof.
  intros H. unfold apply_transformations.
  assert (G : forall records acc,
             (forall record, In record records -> In record data) ->
             transform_records py [("filters", VList filter_rules)] records acc
             = Returns (acc ++ records)%list).
  { induction records as [|record records IH]; intros acc I; simpl.
    - now rewrite app_nil_r.
    - unfold transform_record. cbn [dict_get String.eqb Ascii.eqb Bool.eqb and_then lift iter bind].
      rewrite include_record_absent.
      + simpl. rewrite IH by (intros; apply I; now right). now rewrite <- app_assoc.
      + eapply Forall_impl; [|exact H]. intros rule [entries [field [E [F A]]]].
        exists entries, field. repeat split; auto.
        rewrite Forall_forall in A. apply A, I. now left. }
  now rewrite G.
Qed.

End TransformTheorems.

Section ApiTheorems.
Import Str Pipeline Api.

Variable rt : Runtime.
Variable lib : Libraries.
Variable Engine : Type.
Variable SchemaVersion : Type.
Variable Info : Type.
Variable Time : Type.
Variable engine_ : SchemaEngine Engine SchemaVersion Info.
Variable Content : Type.
Variable decode : Content -> Result string.
Variable read_csv_records : string -> Result (list Dict).
Variable http_str : nat -> string -> string.

(** X25.  An upload in an unsupported format is answered with status 500,
    not 400.  The handler raises [HTTPException(400)] inside its own
    [try]; its [except Exception] catches it and raises status 500 with
    the text of the first exception in the detail.  The pipeline is not
    touched. *)
Theorem upload_file_unsupported_format (self : ETLPipeline Engine Time) (uuid4 : string)
    (created finished refailed : Time) (filename : string) (content : Content)
    (source_id : string) :
  endswith ".json" filename = false ->
  endswith ".csv" filename = false ->
  endswith ".txt" filename = false ->
  upload_file rt lib engine_ decode read_csv_records http_str self uuid4
    created finished refailed filename content source_id
  = Some (self,
          Fails (Main.HTTPException 500
                   ("File upload processing failed: "
                    ++ http_str 400 "Unsupported file format. Use JSON, CSV, or TXT."))).
Proof.
  intros J C T. unfold upload_file, read_upload. rewrite J, C, T. reflexivity.
Qed.

(** X26.  A JSON file whose top level has no length (a number, a boolean,
    [null]) is answered with status 500 from [len(data)], and no job is
    made for it. *)
Theorem upload_file_scalar_json (self : ETLPipeline Engine Time) (uuid4 : string)
    (created finished refailed : Time) (filename : string) (content : Content)
    (source_id text e : string) (data : Value) :
  endswith ".json" filename = true ->
  decode content = Ok text ->
  json_loads rt text = Decoded data ->
  len data = Raise e ->
  upload_file rt lib engine_ decode read_csv_records http_str self uuid4
    created finished refailed filename content source_id
  = Some (self, Fails (Main.HTTPException 500 ("File upload processing failed: " ++ e))).
Proof.
  intros J D L N. unfold upload_file, read_upload. rewrite J, D, L.
  assert (V : forall entries, data <> VDict entries).
  { intros entries E. subst. discriminate. }
  destruct data; try (now destruct (V entries));
    unfold process_async, and_then, lift; rewrite N; reflexivity.
Qed.


End ApiTheorems.

(** ** Examples *)

Section Witnesses.
Import Str Pipeline Api Cases Samples.

Lemma clean_data_cleaned_witness :
  Forall (fun record => cleaned (VDict record) = true)
    [[("first_name", VStr "Bob"); ("tags", VList [VStr "a"; VStr "b"]);
      ("home_address", VDict [("zip_code", VInt 10001)])]].
Proof. apply (clean_data_cleaned untidy). vm_compute. reflexivity. Defined.

Lemma clean_data_idempotent_witness :
  clean_data
    (VList (map VDict
       [[("first_name", VStr "Bob"); ("tags", VList [VStr "a"; VStr "b"]);
         ("home_address", VDict [("zip_code", VInt 10001)])]]))
  = Ok [[("first_name", VStr "Bob"); ("tags", VList [VStr "a"; VStr "b"]);
         ("home_address", VDict [("zip_code", VInt 10001)])]].
Proof. apply (clean_data_idempotent untidy). vm_compute. reflexivity. Defined.

Lemma flatten_dict_flat_witness :
  _flatten_dict (json_dumps counting_libraries) flat EmptyString "_" = flat.
Proof.
  apply (flatten_dict_flat (json_dumps counting_libraries) flat "_"); reflexivity.
Defined.

Lemma process_async_statistics_witness :
  exists self' result,
    process_async counting_libraries numbering_engine fresh "job-1" 0 1 2
      (VList (map VDict people)) "demo" "json" (Some zed_only) = Returns (self', result)
    /\ r_processed_records result = 0
    /\ total_jobs (statistics self')
       = successful_jobs (statistics self') + failed_jobs (statistics self')
    /\ total_jobs (statistics fresh) < total_jobs (statistics self')
       <= total_jobs (statistics fresh) + 2.
Proof.
  eexists. eexists. split; [reflexivity|]. split; [reflexivity|].
  eapply (process_async_statistics counting_libraries nat nat string nat
           numbering_engine fresh _ "job-1" 0 1 2 (VList (map VDict people))
           "demo" "json" (Some zed_only) _);
    reflexivity.
Defined.

Lemma process_async_job_finished_witness :
  exists self' result,
    process_async counting_libraries numbering_engine fresh "job-1" 0 1 2
      (VList (map VDict people)) "demo" "json"
      (Some [("filters", VList [VStr "name"])])
    = Returns (self', result)
    /\ r_error result = Some "'str' object has no attribute 'get'"
    /\ r_job_id result = "job-1"
    /\ (r_status result = "completed" \/ r_status result = "failed")
    /\ (exists job,
          get_job_status self' "job-1" = Some job
          /\ status job = r_status result
          /\ completed_at job <> None)
    /\ active_jobs self' <= active_jobs fresh.
Proof.
  eexists. eexists. split; [reflexivity|]. split; [reflexivity|].
  eapply (process_async_job_finished counting_libraries nat nat string nat
           numbering_engine fresh _ "job-1" 0 1 2 (VList (map VDict people))
           "demo" "json" (Some [("filters", VList [VStr "name"])]) _).
  reflexivity.
Defined.

Lemma process_async_counted_twice_witness :
  exists self' result,
    process_async counting_libraries forgetful_engine fresh "job-1" 0 1 2
      (VList (map VDict people)) "demo" "json" None = Returns (self', result)
    /\ r_status result = "failed"
    /\ r_error result = Some "Schema version v1 not found"
    /\ total_jobs (statistics self') = total_jobs (statistics fresh) + 2
    /\ successful_jobs (statistics self') = successful_jobs (statistics fresh) + 1
    /\ failed_jobs (statistics self') = failed_jobs (statistics fresh) + 1
    /\ total_records_processed (statistics self')
       = total_records_processed (statistics fresh) + List.length people
    /\ option_map status (get_job_status self' "job-1") = Some "failed".
Proof.
  apply (process_async_counted_twice counting_libraries nat nat string nat
           forgetful_engine fresh "job-1" 0 1 2 (VList (map VDict people)) "demo" "json"
           2 people 1 1 1 (Text "json of 2") "Schema version v1 not found");
    reflexivity.
Defined.

Lemma process_async_unsupported_format_witness :
  exists self' result,
    process_async counting_libraries numbering_engine fresh "job-1" 0 1 2
      (VList (map VDict people)) "demo" "xml" None = Returns (self', result)
    /\ r_status result = "failed"
    /\ r_error result = Some ("Unsupported target format: " ++ "xml")
    /\ r_schema_version result = EmptyString
    /\ schema_engine self' = 1
    /\ option_map schema_version (get_job_status self' "job-1")
       = Some (version numbering_engine 1)
    /\ failed_jobs (statistics self') = failed_jobs (statistics fresh) + 1.
Proof.
  apply (process_async_unsupported_format counting_libraries nat nat string nat
           numbering_engine fresh "job-1" 0 1 2 (VList (map VDict people)) "demo" "xml"
           2 people 1 1);
    reflexivity.
Defined.

Lemma process_async_non_dict_record_witness :
  exists self' result,
    process_async counting_libraries numbering_engine fresh "job-1" 0 1 2
      (VList (map VDict [[("a", VInt 1)]] ++ VInt 2 :: [])%list) "demo" "json" None
    = Returns (self', result)
    /\ r_status result = "failed"
    /\ r_error result
       = Some ("'" ++ type_name (VInt 2) ++ "' object has no attribute 'items'")
    /\ schema_engine self' = schema_engine fresh.
Proof.
  apply (process_async_non_dict_record counting_libraries nat nat string nat
           numbering_engine fresh "job-1" 0 1 2 [[("a", VInt 1)]] (VInt 2) []
           "demo" "json" None).
  discriminate.
Defined.

Lemma apply_transformations_length_witness :
  List.length [[("name", VStr "Ann"); ("years", VInt 31)]] <= List.length people
  /\ (dict_get "filters"
        [("field_mappings", VDict [("age", VStr "years")]);
         ("filters", VList [VDict [("field", VStr "years"); ("operator", VStr ">");
                                   ("value", VInt 30)];
                            VDict [("field", VStr "name"); ("operator", VStr "==");
                                   ("value", VStr "Ann")]])] = None ->
      List.length [[("name", VStr "Ann"); ("years", VInt 31)]] = List.length people).
Proof.
  apply (apply_transformations_length plain_builtins people
           [("field_mappings", VDict [("age", VStr "years")]);
            ("filters", VList [VDict [("field", VStr "years"); ("operator", VStr ">");
                                      ("value", VInt 30)];
                               VDict [("field", VStr "name"); ("operator", VStr "==");
                                      ("value", VStr "Ann")]])]).
  vm_compute. reflexivity.
Defined.

Lemma filters_on_absent_fields_witness :
  apply_transformations plain_builtins people [("filters", VList [height_filter])]
  = Returns people.
Proof.
  apply (filters_on_absent_fields plain_builtins people [height_filter]).
  repeat constructor. eexists. exists "height". repeat split; repeat constructor.
Defined.

Lemma upload_file_unsupported_format_witness :
  upload_file (bare_runtime clock) counting_libraries numbering_engine
    as_text no_csv starlette_str fresh "job-1" 0 1 2 "report.pdf" "%PDF" "upload"
  = Some (fresh,
          Fails (Main.HTTPException 500
                   ("File upload processing failed: "
                    ++ starlette_str 400 "Unsupported file format. Use JSON, CSV, or TXT."))).
Proof.
  apply (upload_file_unsupported_format (bare_runtime clock) counting_libraries
           nat nat string nat numbering_engine string as_text no_csv starlette_str
           fresh "job-1" 0 1 2 "report.pdf" "%PDF" "upload");
    reflexivity.
Defined.

Lemma upload_file_scalar_json_witness :
  upload_file (bare_runtime clock) counting_libraries numbering_engine
    as_text no_csv starlette_str fresh "job-1" 0 1 2 "answer.json" "42" "upload"
  = Some (fresh,
          Fails (Main.HTTPException 500
                   ("File upload processing failed: "
                    ++ "object of type 'int' has no len()"))).
Proof.
  apply (upload_file_scalar_json (bare_runtime clock) counting_libraries
           nat nat string nat numbering_engine string as_text no_csv starlette_str
           fresh "job-1" 0 1 2 "answer.json" "42" "upload" "42"
           "object of type 'int' has no len()" (VInt 42));
    reflexivity.
Defined.


End Witnesses.
